(** * AI Podcast Producer: the job record, its store and the client code

    A shallow embedding of the parts of the repository that decide the
    properties of the job ("podcast") record:

    - [Backend/supabase-alter.sql]: the [public.podcasts] table, its column
      constraints and its CHECK on [status];
    - [Frontend/src/services/supabase.ts]: [podcastOperations], [voiceApi]
      and [podcastApi];
    - the create page ([CreatePodcastPage]: [DURATION_OPTIONS],
      [handleSubmit]), the list page ([filteredPodcasts]) and the transcript
      panel of the details page.

    Asynchronous functions are embedded as functions of the outcome of the
    network call they await; a rejected promise is a [Throw].  The table is
    a list of rows, threaded explicitly through the operations that write
    it.

    The row-level security policies of the table are in [Rls]: the SELECT
    policy hides the rows a session may not read, without an error, so a
    query of a session runs over [Rls.visible session t].  An error with
    which the service answers a request instead of carrying it out (the
    network, an INSERT that a policy refuses, an UPDATE whose row a policy
    keeps from the session and which so finds no row, a range beyond the
    last row) is the [fault] of that request.

    An id is the text of a UUID in the spelling in which the database
    returns it (lower-case digits in groups of 8-4-4-4-12); ids are
    compared as texts, so another spelling of the same UUID is taken for
    another id.  Left out: console logging, which no caller observes. *)

From Stdlib Require Import ZArith QArith String Ascii List Lia Bool.
From stdpp Require Import base list sorting strings gmap pretty.

Set Warnings "-register-all".

Open Scope Z_scope.
Open Scope string_scope.

(** ** JavaScript values used by the client code *)

Module Js.

(** A string is a sequence of code units; the embedding covers the code
    units 0..255 (one [ascii] each). *)

(** [WhiteSpace] and [LineTerminator] code units below 256: TAB, LF, VT,
    FF, CR, SPACE and NO-BREAK SPACE, the ones [String.prototype.trim]
    strips. *)
Definition isWhiteSpace (c : ascii) : bool :=
  let n := N_of_ascii c in
  ((9 <=? n) && (n <=? 13) || (n =? 32) || (n =? 160))%N.

(** Lower-casing of one code unit: A-Z, and the Latin-1 capitals
    U+00C0..U+00DE without the multiplication sign U+00D7. *)
Definition toLowerChar (c : ascii) : ascii :=
  let n := N_of_ascii c in
  if ((65 <=? n) && (n <=? 90)
      || (192 <=? n) && (n <=? 222) && negb (n =? 215))%N
  then ascii_of_N (n + 32) else c.

Fixpoint toLowerCase (s : string) : string :=
  match s with
  | EmptyString => EmptyString
  | String c s' => String (toLowerChar c) (toLowerCase s')
  end.

Fixpoint trimStart (l : list ascii) : list ascii :=
  match l with
  | c :: l' => if isWhiteSpace c then trimStart l' else l
  | [] => []
  end.

Definition trim (s : string) : string :=
  string_of_list_ascii
    (rev (trimStart (rev (trimStart (list_ascii_of_string s))))).

(** [s.includes(q)]: [q] occurs in [s] as a contiguous run. *)
Fixpoint includes (s q : string) : bool :=
  String.prefix q s ||
  match s with
  | EmptyString => false
  | String _ s' => includes s' q
  end.

(** Truthiness of a string and of an optional string ([undefined] and
    [null] are falsy, and so is the empty string). *)
Definition truthy (s : string) : bool := negb (String.eqb s "").

Definition truthy_opt (o : option string) : bool :=
  match o with
  | Some s => truthy s
  | None => false
  end.

(** A thrown value: an [Error] object with its message, or the error
    object of the database client with its code. *)
Inductive Thrown :=
| Error (message : string)
| PostgrestError (code : string) (message : string).

(** The outcome of awaiting a promise. *)
Inductive Result (A : Type) :=
| Ok (value : A)
| Throw (error : Thrown).
Arguments Ok {A} value.
Arguments Throw {A} error.

Definition bind {A B} (r : Result A) (k : A -> Result B) : Result B :=
  match r with
  | Ok a => k a
  | Throw e => Throw e
  end.

(** [try { body } catch (error) { handler }]. *)
Definition try_catch {A} (body : Result A) (handler : Thrown -> Result A)
  : Result A :=
  match body with
  | Ok a => Ok a
  | Throw e => handler e
  end.

(** What [fetch] resolves to: the status line and the result of
    [response.json()], which rejects on a body that is not JSON. *)
Record Response (B : Type) := {
  status : Z;
  statusText : string;
  json : Result B
}.
Arguments status {B} r.
Arguments statusText {B} r.
Arguments json {B} r.

Definition ok {B} (r : Response B) : bool :=
  ((200 <=? status r) && (status r <=? 299))%Z.

(** [await fetch(...)]: a response, or a rejection (network failure). *)
Definition Fetch (B : Type) := Result (Response B).

(** A parsed JSON document. An object is the list of its members, looked
    up by name. *)
Inductive Json :=
| JNull
| JBool (b : bool)
| JNumber (q : Q)
| JString (s : string)
| JArray (items : list Json)
| JObject (members : list (string * Json)).

Fixpoint member (name : string) (members : list (string * Json))
  : option Json :=
  match members with
  | [] => None
  | (k, v) :: rest => if String.eqb k name then Some v else member name rest
  end.

Definition isArray (v : Json) : bool :=
  match v with
  | JArray _ => true
  | _ => false
  end.

(** [ToBoolean] on a JSON value. *)
Definition truthy_json (v : Json) : bool :=
  match v with
  | JNull => false
  | JBool b => b
  | JNumber q => negb (Qeq_bool q 0)
  | JString s => truthy s
  | JArray _ | JObject _ => true
  end.

End Js.

Notation "'await' x := r 'in' k" := (Js.bind r (fun x => k))
  (at level 10, x name, r at level 100, k at level 200).

(** ** The [public.podcasts] table ([Backend/supabase-alter.sql]) *)

(** One entry of [metadata.sources]. *)
Record Source := {
  source_url : string;
  source_title : string;
  source_source : string
}.

(** The [metadata] document, as [PodcastRecord] types it. *)
Record Metadata := {
  metadata_topics : list string;
  article_count : Z;
  target_duration_seconds : Z;
  target_word_count : Z;
  sources : list Source;
  recording_date : string
}.

(** A row of [podcasts], which is also the [PodcastRecord] the client
    receives. A column without NOT NULL is an [option] ([None] is SQL NULL,
    delivered as [null]); [id] is the text of the UUID and [created_at] the
    instant in microseconds. *)
Record PodcastRecord := {
  id : string;
  created_at : option Z;
  user_id : string;
  status : option string;
  duration : Z;
  url : option string;
  topics : list string;
  host_voice : string;
  co_host_voice : string;
  language : string;
  metadata : option Metadata;
  transcript : option string;
  message : option string
}.

Abbreviation Table := (list PodcastRecord).

(** [PodcastRecord['status']]: the union of the three literals. *)
Inductive Status := processing | completed | failed.

Definition status_text (s : Status) : string :=
  match s with
  | processing => "processing"
  | completed => "completed"
  | failed => "failed"
  end.

Module Sql.

(** [x IN (v1, ..., vn)] over non-null literals: NULL when [x] is. *)
Definition in_list (x : option string) (vs : list string) : option bool :=
  match x with
  | None => None
  | Some s => Some (existsb (String.eqb s) vs)
  end.

(** A CHECK constraint rejects a row only when its expression is false;
    true and NULL both satisfy it. *)
Definition check_satisfied (e : option bool) : bool :=
  match e with
  | Some false => false
  | _ => true
  end.

(** [CHECK (status IN ('processing', 'completed', 'failed'))]. *)
Definition status_check (r : PodcastRecord) : bool :=
  check_satisfied
    (in_list (status r) ["processing"; "completed"; "failed"]).

(** The range of INTEGER. *)
Definition is_integer (n : Z) : bool :=
  ((-2147483648 <=? n) && (n <=? 2147483647))%Z.

Definition not_null_violation : Js.Thrown :=
  Js.PostgrestError "23502" "null value violates not-null constraint".
Definition check_violation : Js.Thrown :=
  Js.PostgrestError "23514" "new row violates check constraint".
Definition unique_violation : Js.Thrown :=
  Js.PostgrestError "23505" "duplicate key value violates unique constraint".
Definition out_of_range : Js.Thrown :=
  Js.PostgrestError "22003" "integer out of range".
Definition invalid_uuid : Js.Thrown :=
  Js.PostgrestError "22P02" "invalid input syntax for type uuid".

(** The texts the type UUID reads: sixteen pairs of hexadecimal digits,
    with a hyphen allowed after every second pair but the last, all of it
    in braces or not. *)
Definition isxdigit (c : ascii) : bool :=
  let n := N_of_ascii c in
  ((48 <=? n) && (n <=? 57) || (97 <=? n) && (n <=? 102)
   || (65 <=? n) && (n <=? 70))%N.

(** [n] pairs of digits, the first of them the pair number [i]; what
    follows them. *)
Fixpoint uuid_pairs (n i : nat) (s : list ascii) : option (list ascii) :=
  match n with
  | O => Some s
  | S n' =>
      match s with
      | a :: b :: s' =>
          if isxdigit a && isxdigit b
          then uuid_pairs n' (S i)
                 match s' with
                 | "-"%char :: rest =>
                     if Nat.odd i && (i <? 15)%nat then rest else s'
                 | _ => s'
                 end
          else None
      | _ => None
      end
  end.

Definition is_uuid (text : string) : bool :=
  match list_ascii_of_string text with
  | "{"%char :: s =>
      match uuid_pairs 16 0 s with
      | Some ["}"%char] => true
      | _ => false
      end
  | s =>
      match uuid_pairs 16 0 s with
      | Some [] => true
      | _ => false
      end
  end.

(** A column of an INSERT that has a DEFAULT: left out of the column
    list, or given a value, which may be NULL. *)
Inductive Column (A : Type) :=
| Omitted
| Given (v : option A).
Arguments Omitted {A}.
Arguments Given {A} v.

Definition or_default {A} (c : Column A) (d : A) : option A :=
  match c with
  | Omitted => Some d
  | Given v => v
  end.

(** The values of one INSERT. A column without DEFAULT that is left out
    is NULL. *)
Record InsertValues := {
  ins_id : Column string;
  ins_created_at : Column Z;
  ins_user_id : option string;
  ins_status : Column string;
  ins_duration : option Z;
  ins_url : option string;
  ins_topics : Column (list string);
  ins_host_voice : option string;
  ins_co_host_voice : option string;
  ins_language : option string;
  ins_metadata : option Metadata;
  ins_transcript : option string;
  ins_message : option string
}.

(** A value that its column type does not read: an [id] that is no UUID,
    a [duration] outside INTEGER. NULL is read by every type, and so is
    the [id] that [gen_random_uuid()] yields. *)
Definition malformed (v : InsertValues) (uuid : string) : option Js.Thrown :=
  if match or_default (ins_id v) uuid with
     | Some i => negb (is_uuid i)
     | None => false
     end
  then Some invalid_uuid
  else if match ins_duration v with
          | Some d => negb (is_integer d)
          | None => false
          end
  then Some out_of_range
  else None.

(** [INSERT INTO podcasts]. [uuid] is what [gen_random_uuid()] yields and
    [now] what [NOW()] yields for this statement. The values are read
    into the column types first, in the order of the columns; then the
    row is tested against NOT NULL, against the CHECK and against the
    primary key. *)
Definition insert (uuid : string) (now : Z) (v : InsertValues) (t : Table)
  : Js.Result Table :=
  match malformed v uuid with
  | Some e => Js.Throw e
  | None =>
      match or_default (ins_id v) uuid, ins_user_id v, ins_duration v,
            or_default (ins_topics v) [], ins_host_voice v,
            ins_co_host_voice v, ins_language v with
      | Some i, Some u, Some d, Some tp, Some h, Some c, Some l =>
          let r := {| id := i;
                      created_at := or_default (ins_created_at v) now;
                      user_id := u;
                      status := or_default (ins_status v) "processing";
                      duration := d;
                      url := ins_url v;
                      topics := tp;
                      host_voice := h;
                      co_host_voice := c;
                      language := l;
                      metadata := ins_metadata v;
                      transcript := ins_transcript v;
                      message := ins_message v |} in
          if negb (status_check r) then Js.Throw check_violation
          else if existsb (fun r' => String.eqb (id r') i) t
               then Js.Throw unique_violation
          else Js.Ok (t ++ [r])%list
      | _, _, _, _, _, _, _ => Js.Throw not_null_violation
      end
  end.

(** The row after [SET status = st, message = msg]; a [message] that is
    not in the SET list keeps its value. *)
Definition set_status (st : string) (msg : option string)
    (r : PodcastRecord) : PodcastRecord :=
  {| id := id r;
     created_at := created_at r;
     user_id := user_id r;
     status := Some st;
     duration := duration r;
     url := url r;
     topics := topics r;
     host_voice := host_voice r;
     co_host_voice := co_host_voice r;
     language := language r;
     metadata := metadata r;
     transcript := transcript r;
     message := match msg with
                | Some m => Some m
                | None => message r
                end |}.

(** [id = pid], for a [pid] that the type UUID reads ([is_uuid]; the
    requests below are refused before they get here when it does not). *)
Definition has_id (pid : string) (r : PodcastRecord) : bool :=
  String.eqb (id r) pid.

(** [UPDATE podcasts SET ... WHERE id = pid RETURNING *]: the new table
    and the rows written, or the constraint violation. *)
Definition update_status (pid st : string) (msg : option string)
    (t : Table) : Js.Result (Table * list PodcastRecord) :=
  let t' := map (fun r => if has_id pid r then set_status st msg r else r) t in
  let written := List.filter (has_id pid) t' in
  if forallb status_check written then Js.Ok (t', written)
  else Js.Throw check_violation.

(** [SELECT * FROM podcasts WHERE id = pid]. *)
Definition select_by_id (pid : string) (t : Table) : list PodcastRecord :=
  List.filter (has_id pid) t.

End Sql.

(** ** Row-level security ([Backend/supabase-alter.sql])

    [ALTER TABLE podcasts ENABLE ROW LEVEL SECURITY] and the policies. *)

Module Rls.

(** The session of a request: [auth.uid()::text], the text of the UUID
    of the user who is signed in to the database, which is NULL ([None])
    when none is, and [auth.role()]. *)
Record Session := {
  uid : option string;
  role : string
}.

(** [auth.uid()::text = user_id]; a comparison with NULL does not pass. *)
Definition own (s : Session) (r : PodcastRecord) : bool :=
  match uid s with
  | Some u => String.eqb u (user_id r)
  | None => false
  end.

(** [auth.role() = 'service_role'] *)
Definition service_role (s : Session) : bool :=
  String.eqb (role s) "service_role".

(** The rows a SELECT of the session sees: those that pass "Users can
    view their own podcasts" or "Service role access to all podcasts"
    (permissive policies are joined by OR). The others are left out of
    the result, and of its count, without an error. *)
Definition select_policy (s : Session) (r : PodcastRecord) : bool :=
  own s r || service_role s.

Definition visible (s : Session) (t : Table) : Table :=
  List.filter (select_policy s) t.

End Rls.

(** ** The database client ([supabase.from('podcasts')...])

    The client library and the database server are not part of the
    repository; these definitions give the calls the repository makes
    their documented meaning over the table. *)

Module Supabase.

(** What a query resolves to: [{ data, error, count }]. *)
Record QueryResponse (A : Type) := {
  q_data : option A;
  q_error : option Js.Thrown;
  q_count : option Z
}.
Arguments q_data {A} q.
Arguments q_error {A} q.
Arguments q_count {A} q.

Definition failedWith {A} (e : Js.Thrown) : QueryResponse A :=
  {| q_data := None; q_error := Some e; q_count := None |}.

(** ORDER BY created_at DESC: a later instant first, and NULL before
    every instant. *)
Definition instant_ge (a b : option Z) : bool :=
  match a, b with
  | None, _ => true
  | Some _, None => false
  | Some x, Some y => (y <=? x)%Z
  end.

Definition newest_first (a b : PodcastRecord) : Prop :=
  instant_ge (created_at a) (created_at b) = true.

#[global] Instance newest_first_dec a b : Decision (newest_first a b).
Proof. unfold newest_first. apply _. Defined.

Definition owned_by (userId : string) (r : PodcastRecord) : bool :=
  String.eqb (user_id r) userId.

(** What SQL fixes of the answer to
    [.select('*', { count: 'exact' }).eq('user_id', userId)
     .order('created_at', { ascending: false }).range(from, to)]
    when the service carries the query out over the rows [t] that the
    session may read: the rows [from..to], both inclusive, of the user's
    rows in an order that ORDER BY allows, and the number of the user's
    rows. Rows with the same [created_at], and rows without one, may
    come in any order, and in another order at the next query. *)
Definition range_answer (userId : string) (from to : Z) (t : Table)
    (q : QueryResponse (list PodcastRecord)) : Prop :=
  exists ordered,
    ordered ≡ₚ List.filter (owned_by userId) t
    /\ StronglySorted newest_first ordered
    /\ q = {| q_data := Some (take (Z.to_nat (to - from + 1))
                                (drop (Z.to_nat from) ordered));
              q_error := None;
              q_count := Some (Z.of_nat (length ordered)) |}.

Definition range_not_satisfiable : Js.Thrown :=
  Js.PostgrestError "PGRST103" "Requested range not satisfiable".

(** The answers of the service to that query: one that SQL allows; for
    a range that starts at the end of the user's rows or after it, the
    service may answer with the error PGRST103 instead. *)
Definition serves (userId : string) (from to : Z) (t : Table)
    (q : QueryResponse (list PodcastRecord)) : Prop :=
  range_answer userId from to t q
  \/ ((Z.of_nat (length (List.filter (owned_by userId) t)) <= from)%Z
      /\ q = failedWith range_not_satisfiable).

(** One such service, as a function of the rows [t] that the session
    may read: it breaks ties the way a merge sort of [t] does.  [fault]
    is the error the service answers this call with, when it does not
    carry it out (the network, a range it cannot satisfy); a range with
    [from < 0] or [to < from] is refused in any case. *)
Definition select_user_range (fault : option Js.Thrown) (userId : string)
    (from to : Z) (t : Table) : QueryResponse (list PodcastRecord) :=
  match fault with
  | Some e => failedWith e
  | None =>
      if ((from <? 0) || (to <? from))%Z
      then failedWith range_not_satisfiable
      else
        let mine := List.filter (owned_by userId) t in
        let ordered := merge_sort newest_first mine in
        {| q_data := Some (take (Z.to_nat (to - from + 1))
                            (drop (Z.to_nat from) ordered));
           q_error := None;
           q_count := Some (Z.of_nat (length mine)) |}
  end.

(** [.select('*').eq('id', podcastId).single()]. A [podcastId] that
    the type of [id] does not read is refused with 22P02 before a row is
    looked at. *)
Definition not_single : Js.Thrown :=
  Js.PostgrestError "PGRST116"
    "JSON object requested, multiple (or no) rows returned".

Definition single (rows : list PodcastRecord) : QueryResponse PodcastRecord :=
  match rows with
  | [r] => {| q_data := Some r; q_error := None; q_count := None |}
  | _ => failedWith not_single
  end.

Definition select_single (fault : option Js.Thrown) (podcastId : string)
    (t : Table) : QueryResponse PodcastRecord :=
  match fault with
  | Some e => failedWith e
  | None =>
      if negb (Sql.is_uuid podcastId) then failedWith Sql.invalid_uuid
      else single (Sql.select_by_id podcastId t)
  end.

(** [.update({ status, message }).eq('id', podcastId).select().single()]:
    the table after the request and the response. A [message] that is
    [undefined] is not part of the request body, so the column is not
    set. A request that does not return exactly one row leaves the table
    as it was. *)
Definition update_single (fault : option Js.Thrown) (podcastId : string)
    (st : string) (msg : option string) (t : Table)
  : Table * QueryResponse PodcastRecord :=
  match fault with
  | Some e => (t, failedWith e)
  | None =>
      if negb (Sql.is_uuid podcastId) then (t, failedWith Sql.invalid_uuid)
      else
      match Sql.update_status podcastId st msg t with
      | Js.Throw e => (t, failedWith e)
      | Js.Ok (t', [r]) =>
          (t', {| q_data := Some r; q_error := None; q_count := None |})
      | Js.Ok (_, _) => (t, failedWith not_single)
      end
  end.

End Supabase.

(** ** [podcastOperations] ([services/supabase.ts]) *)

Record Listing := {
  data : list PodcastRecord;
  count : Z
}.

Module podcastOperations.

Definition getById (fault : option Js.Thrown) (podcastId : string)
    (t : Table) : Js.Result (option PodcastRecord) :=
  if negb (Js.truthy podcastId)
  then Js.Throw (Js.Error "Podcast ID is required")
  else
    let q := Supabase.select_single fault podcastId t in
    match Supabase.q_error q with
    | Some e => Js.Throw e
    | None => Js.Ok (Supabase.q_data q)
    end.

(** [getByUser(userId, page = 1, limit = 10)], over a service that
    answers the query for [userId] and the range [from..to] with
    [query userId from to]. *)
Definition getByUser_with
    (query : string -> Z -> Z -> Supabase.QueryResponse (list PodcastRecord))
    (userId : string) (page limit : Z) : Js.Result Listing :=
  if negb (Js.truthy userId)
  then Js.Ok {| data := []; count := 0 |}
  else
    let from := ((page - 1) * limit)%Z in
    let to := (from + limit - 1)%Z in
    let q := query userId from to in
    match Supabase.q_error q with
    | Some e => Js.Throw e
    | None =>
        Js.Ok {| data := default [] (Supabase.q_data q);
                 count := default 0%Z (Supabase.q_count q) |}
    end.

(** [getByUser] over the service [Supabase.select_user_range] and the
    rows [t] that the session may read. *)
Definition getByUser (fault : option Js.Thrown) (userId : string)
    (page limit : Z) (t : Table) : Js.Result Listing :=
  getByUser_with
    (fun userId from to => Supabase.select_user_range fault userId from to t)
    userId page limit.

(** [updateStatus(podcastId, status, message?)]: the table after the
    call and what the call resolves to ([data], which is a row whenever
    there is no [error]). *)
Definition updateStatus (fault : option Js.Thrown) (podcastId : string)
    (st : Status) (msg : option string) (t : Table)
  : Table * Js.Result (option PodcastRecord) :=
  let '(t', q) :=
    Supabase.update_single fault podcastId (status_text st) msg t in
  match Supabase.q_error q with
  | Some e => (t', Js.Throw e)
  | None => (t', Js.Ok (Supabase.q_data q))
  end.

End podcastOperations.

(** ** [voiceApi] and [podcastApi] ([services/api.ts]) *)

(** Reading a property of a parsed JSON value: a [TypeError] on [null]
    (with the text the engine gives it), [undefined] ([None]) on a value
    without that member. *)
Definition get_prop (v : Js.Json) (name : string)
  : Js.Result (option Js.Json) :=
  match v with
  | Js.JNull =>
      Js.Throw (Js.Error ("Cannot read properties of null (reading '"
                          ++ name ++ "')"))
  | Js.JObject members => Js.Ok (Js.member name members)
  | _ => Js.Ok None
  end.

Module voiceApi.

(** [getAll()], given what [fetch('/api/voices')] resolves to. The
    result is the [data] of the object returned. *)
Definition getAll (fetched : Js.Fetch Js.Json) : Js.Result Js.Json :=
  Js.try_catch
    (await response := fetched in
     if negb (Js.ok response)
     then Js.Throw (Js.Error ("Failed to fetch voices: "
                              ++ Js.statusText response))
     else
       await data := Js.json response in
       if Js.isArray data then Js.Ok data
       else
         await voices := get_prop data "voices" in
         match voices with
         | Some v => if Js.truthy_json v then Js.Ok v
                     else Js.Ok (Js.JArray [])
         | None => Js.Ok (Js.JArray [])
         end)
    (fun _ => Js.Ok (Js.JArray [])).

End voiceApi.

(** The shape [/^[0-9a-f]{8}-[0-9a-f]{4}-[0-9a-f]{4}-[0-9a-f]{4}-[0-9a-f]{12}$/i]. *)
Module Uuid.

(** [[0-9a-f]] under the [i] flag. *)
Definition isHex (c : ascii) : bool :=
  let n := N_of_ascii c in
  ((48 <=? n) && (n <=? 57) || (97 <=? n) && (n <=? 102)
   || (65 <=? n) && (n <=? 70))%N.

(** [n] hexadecimal digits at the head of [s]; what follows them. *)
Fixpoint hexRun (n : nat) (s : list ascii) : option (list ascii) :=
  match n with
  | O => Some s
  | S n' =>
      match s with
      | c :: s' => if isHex c then hexRun n' s' else None
      | [] => None
      end
  end.

(** Groups of hexadecimal digits of the given lengths, separated by
    hyphens, and then the end of the input. *)
Fixpoint groups (lens : list nat) (s : list ascii) : bool :=
  match lens with
  | [] => false
  | [n] =>
      match hexRun n s with
      | Some [] => true
      | _ => false
      end
  | n :: lens' =>
      match hexRun n s with
      | Some ("-"%char :: s') => groups lens' s'
      | _ => false
      end
  end.

Definition test (s : string) : bool :=
  groups [8; 4; 4; 4; 12]%nat (list_ascii_of_string s).

End Uuid.

(** The object [getById] makes up for an id the backend does not know. *)
Record ProcessingStub := {
  stub_id : string;
  stub_status : Status;
  stub_topics : list string;
  stub_message : string;
  stub_created_at : Z;
  stub_user_id : string
}.

(** The [data] of [podcastApi.getById]: the body the backend sent, or the
    stub. *)
Inductive Retrieved (B : Type) :=
| FromBackend (body : B)
| Assumed (stub : ProcessingStub).
Arguments FromBackend {B} body.
Arguments Assumed {B} stub.

Record Page := {
  page_data : list PodcastRecord;
  total : Z
}.

(** The [data] argument of [podcastApi.create], and the JSON body it posts:
    [{ ...data, user_id: userId }]. *)
Record CreateData := {
  create_topics : list string;
  create_duration : Z;
  create_host_voice : string;
  create_co_host_voice : string;
  create_language : string
}.

Record CreateBody := {
  body_data : CreateData;
  body_user_id : string
}.

Module podcastApi.

Definition create_body (data : CreateData) (userId : string) : CreateBody :=
  {| body_data := data; body_user_id := userId |}.

(** [create(data, userId)], given what the POST of [create_body data
    userId] to [/api/podcasts] resolves to. [errorMessage] is the text
    built from the status line and the error body of a response that is
    not ok. The result is the [data] of the object returned. *)
Definition create (errorMessage : Js.Response Js.Json -> string)
    (data : CreateData) (userId : string) (fetched : Js.Fetch Js.Json)
  : Js.Result Js.Json :=
  Js.try_catch
    (await response := fetched in
     if negb (Js.ok response)
     then Js.Throw (Js.Error ("Failed to create podcast: "
                              ++ errorMessage response))
     else
       await responseData := Js.json response in
       Js.Ok responseData)
    (fun error => Js.Throw error).

(** [getById(podcastId)], given what [fetch(`/api/podcasts/${podcastId}`)]
    resolves to and the instant [new Date()] reads. *)
Definition getById {B} (now : Z) (podcastId : string)
    (fetched : Js.Fetch B) : Js.Result (Retrieved B) :=
  Js.try_catch
    (await response := fetched in
     if (Js.status response =? 404)%Z then
       let uuid := Js.trim (Js.toLowerCase podcastId) in
       if Uuid.test uuid then
         Js.Ok (Assumed
                  {| stub_id := podcastId;
                     stub_status := processing;
                     stub_topics := [];
                     stub_message :=
                       "Your podcast is being generated. Please wait...";
                     stub_created_at := now;
                     stub_user_id := "" |})
       else Js.Throw (Js.Error ("Podcast not found: " ++ podcastId))
     else if negb (Js.ok response) then
       Js.Throw (Js.Error ("Failed to fetch podcast: "
                           ++ Js.statusText response))
     else
       await data := Js.json response in
       Js.Ok (FromBackend data))
    (fun error => Js.Throw error).

(** [getByUser(userId, page = 1, limit = 10)]. *)
Definition getByUser (fault : option Js.Thrown) (userId : string)
    (page limit : Z) (t : Table) : Js.Result Page :=
  Js.try_catch
    (await r := podcastOperations.getByUser fault userId page limit t in
     Js.Ok {| page_data := data r; total := count r |})
    (fun error => Js.Throw error).

End podcastApi.

(** What the backend sends as a body: a job record, or an error detail. *)
Inductive ApiBody :=
| Podcast (r : PodcastRecord)
| Detail (text : string).

(** Modelled from the spec: the backend handler of
    [GET /api/podcasts/{id}] is not among the sources. "Job retrieval
    returns the current Job record including status": the stored record
    of that id with 200, and 404, the status [getById] tests for, when the
    table has none. *)
Definition backend_get (t : Table) (podcastId : string) : Js.Fetch ApiBody :=
  match Sql.select_by_id podcastId t with
  | r :: _ =>
      Js.Ok {| Js.status := 200; Js.statusText := "OK";
               Js.json := Js.Ok (Podcast r) |}
  | [] =>
      Js.Ok {| Js.status := 404; Js.statusText := "Not Found";
               Js.json := Js.Ok (Detail "Podcast not found") |}
  end.

(** ** The create page ([pages/CreatePodcastPage.tsx]) *)

Module CreatePodcastPage.

Record DurationOption := {
  value : Z;
  label : string
}.

(** Duration options (in seconds). *)
Definition DURATION_OPTIONS : list DurationOption :=
  [ {| value := 60; label := "1 minute" |};
    {| value := 300; label := "5 minutes" |};
    {| value := 600; label := "10 minutes" |};
    {| value := 900; label := "15 minutes" |};
    {| value := 1800; label := "30 minutes" |};
    {| value := 3600; label := "60 minutes" |} ].

(** The form state of the component, with the signed-in user's id. *)
Record Form := {
  user : option string;
  topics : list string;
  topicInput : string;
  duration : Z;
  hostVoice : string;
  coHostVoice : string;
  language : string
}.

(** The state when the component mounts. *)
Definition initial (u : option string) : Form :=
  {| user := u; topics := []; topicInput := ""; duration := 300;
     hostVoice := ""; coHostVoice := ""; language := "en-US" |}.

Definition setTopics (v : list string) (f : Form) : Form :=
  {| user := user f; topics := v; topicInput := topicInput f;
     duration := duration f; hostVoice := hostVoice f;
     coHostVoice := coHostVoice f; language := language f |}.

Definition setTopicInput (v : string) (f : Form) : Form :=
  {| user := user f; topics := topics f; topicInput := v;
     duration := duration f; hostVoice := hostVoice f;
     coHostVoice := coHostVoice f; language := language f |}.

Definition setDuration (v : Z) (f : Form) : Form :=
  {| user := user f; topics := topics f; topicInput := topicInput f;
     duration := v; hostVoice := hostVoice f;
     coHostVoice := coHostVoice f; language := language f |}.

Definition setHostVoice (v : string) (f : Form) : Form :=
  {| user := user f; topics := topics f; topicInput := topicInput f;
     duration := duration f; hostVoice := v;
     coHostVoice := coHostVoice f; language := language f |}.

Definition setCoHostVoice (v : string) (f : Form) : Form :=
  {| user := user f; topics := topics f; topicInput := topicInput f;
     duration := duration f; hostVoice := hostVoice f;
     coHostVoice := v; language := language f |}.

Definition setLanguage (v : string) (f : Form) : Form :=
  {| user := user f; topics := topics f; topicInput := topicInput f;
     duration := duration f; hostVoice := hostVoice f;
     coHostVoice := coHostVoice f; language := v |}.

Definition handleAddTopic (f : Form) : Form :=
  let t := Js.trim (topicInput f) in
  if Js.truthy t && negb (existsb (String.eqb t) (topics f))
  then setTopicInput "" (setTopics (topics f ++ [t])%list f)
  else f.

(** [topics.filter((_, i) => i !== index)]. *)
Definition handleRemoveTopic (index : nat) (f : Form) : Form :=
  setTopics (delete index (topics f)) f.

(** What the voices effect does with the ids of the fetched voices. *)
Definition voicesFetched (voice_ids : list string) (f : Form) : Form :=
  match voice_ids with
  | v0 :: v1 :: _ => setCoHostVoice v1 (setHostVoice v0 f)
  | _ => f
  end.

(** What the rendered page lets its user do to the form. The duration
    buttons are the entries of [DURATION_OPTIONS]. *)
Inductive Event :=
| TypeTopic (text : string)
| AddTopic
| RemoveTopic (index : nat)
| VoicesFetched (voice_ids : list string)
| SelectHostVoice (voice_id : string)
| SelectCoHostVoice (voice_id : string)
| ClickDuration (button : nat)
| ClickLanguage (code : string).

Definition handle (e : Event) (f : Form) : Form :=
  match e with
  | TypeTopic text => setTopicInput text f
  | AddTopic => handleAddTopic f
  | RemoveTopic index => handleRemoveTopic index f
  | VoicesFetched ids => voicesFetched ids f
  | SelectHostVoice v => setHostVoice v f
  | SelectCoHostVoice v => setCoHostVoice v f
  | ClickDuration button =>
      match DURATION_OPTIONS !! button with
      | Some option => setDuration (value option) f
      | None => f
      end
  | ClickLanguage code => setLanguage code f
  end.

Definition run (events : list Event) (f : Form) : Form :=
  fold_left (fun f e => handle e f) events f.

(** What [handleSubmit] does to the world, in order. [post_podcasts] is
    the request [podcastApi.create] sends. *)
Inductive Effect :=
| toast_error (text : string)
| toast_success (text : string)
| setIsSubmitting (b : bool)
| post_podcasts (body : CreateBody)
| localStorage_setItem (key item : string)
| navigate (to : string).

Section Submit.

(** The text of a value inside a template literal ([None] is
    [undefined]), the text of [Date.now()], and the message
    [podcastApi.create] builds from a response that is not ok. *)
Variable ToString : option Js.Json -> string.
Variable now_text : string.
Variable errorMessage : Js.Response Js.Json -> string.

(** [error instanceof Error ? error.message : 'Please try again.'] *)
Definition message_of (e : Js.Thrown) : string :=
  match e with
  | Js.Error m => m
  | Js.PostgrestError _ _ => "Please try again."
  end.

(** [response.data.podcast_id || response.data.id] *)
Definition created_id (responseData : Js.Json)
  : Js.Result (option Js.Json) :=
  await a := get_prop responseData "podcast_id" in
  match a with
  | Some v => if Js.truthy_json v then Js.Ok (Some v)
              else get_prop responseData "id"
  | None => get_prop responseData "id"
  end.

(** The statements after [toast.success] in the [try] block; both
    template literals read the same two properties. *)
Definition after_create (responseData : Js.Json)
  : list Effect * Js.Result unit :=
  match created_id responseData with
  | Js.Throw e => ([], Js.Throw e)
  | Js.Ok i =>
      ([localStorage_setItem ("podcast_created_" ++ ToString i) now_text;
        navigate ("/podcasts/" ++ ToString i ++ "?autoRefresh=true")],
       Js.Ok tt)
  end.

Definition failure_toast (e : Js.Thrown) : Effect :=
  toast_error ("Failed to create podcast: " ++ message_of e).

(** [handleSubmit()], given what the POST resolves to. *)
Definition handleSubmit (f : Form) (fetched : Js.Fetch Js.Json)
  : list Effect :=
  match user f with
  | None => [toast_error "You must be logged in to create a podcast."]
  | Some user_id =>
      if (length (topics f) =? 0)%nat
      then [toast_error "Please add at least one topic."]
      else if negb (Js.truthy (hostVoice f))
      then [toast_error "Please select a host voice."]
      else if negb (Js.truthy (coHostVoice f))
      then [toast_error "Please select a co-host voice."]
      else
        let podcastData :=
          {| create_topics := topics f;
             create_duration := duration f;
             create_host_voice := hostVoice f;
             create_co_host_voice := coHostVoice f;
             create_language := language f |} in
        ([setIsSubmitting true;
          post_podcasts (podcastApi.create_body podcastData user_id)]
         ++ match podcastApi.create errorMessage podcastData user_id
                    fetched with
            | Js.Throw e => [failure_toast e]
            | Js.Ok responseData =>
                toast_success
                  "Podcast creation started! You will be redirected to the waiting page."
                :: match after_create responseData with
                   | (done, Js.Ok _) => done
                   | (done, Js.Throw e) => done ++ [failure_toast e]
                   end
            end
         ++ [setIsSubmitting false])%list
  end.

End Submit.

End CreatePodcastPage.

(** ** The list page ([pages/PodcastListPage.tsx]) *)

Module PodcastListPage.

(** The value of the status filter: ['all'] or one of the statuses. *)
Inductive StatusType :=
| all
| only (s : Status).

(** [new Date(created_at).getTime()]: milliseconds; [new Date(null)] is
    the epoch. *)
Definition getTime (created_at : option Z) : Z :=
  match created_at with
  | Some instant => (instant / 1000)%Z
  | None => 0%Z
  end.

Definition matchesSearch (searchQuery : string) (podcast : PodcastRecord)
  : bool :=
  existsb
    (fun topic =>
       Js.includes (Js.toLowerCase topic) (Js.toLowerCase searchQuery))
    (topics podcast).

(** [statusFilter === 'all' || podcast.status === statusFilter] *)
Definition matchesStatus (statusFilter : StatusType)
    (podcast : PodcastRecord) : bool :=
  match statusFilter with
  | all => true
  | only s =>
      match status podcast with
      | Some text => String.eqb text (status_text s)
      | None => false
      end
  end.

(** The comparator handed to [sort], by the value of [sort]. *)
Definition compare (sort : string) (a b : PodcastRecord) : Z :=
  if String.eqb sort "created_asc"
  then getTime (created_at a) - getTime (created_at b)
  else if String.eqb sort "created_desc"
  then getTime (created_at b) - getTime (created_at a)
  else if String.eqb sort "duration_asc"
  then duration a - duration b
  else if String.eqb sort "duration_desc"
  then duration b - duration a
  else 0.

(** [Array.prototype.sort] with a comparator: a stable sort. An element
    goes before the first one it does not compare greater than. *)
Fixpoint place (cmp : PodcastRecord -> PodcastRecord -> Z)
    (x : PodcastRecord) (l : list PodcastRecord) : list PodcastRecord :=
  match l with
  | [] => [x]
  | y :: l' => if (cmp x y <=? 0)%Z then x :: l else y :: place cmp x l'
  end.

Definition sort_with (cmp : PodcastRecord -> PodcastRecord -> Z)
    (l : list PodcastRecord) : list PodcastRecord :=
  foldr (place cmp) [] l.

Definition filteredPodcasts (podcasts : list PodcastRecord)
    (searchQuery : string) (statusFilter : StatusType) (sort : string)
  : list PodcastRecord :=
  sort_with (compare sort)
    (List.filter
       (fun podcast =>
          matchesSearch searchQuery podcast
          && matchesStatus statusFilter podcast)
       podcasts).

End PodcastListPage.

(** ** The transcript panel of the details page
       ([pages/PodcastDetailsPage.tsx]) *)

Module PodcastDetailsPage.

Inductive TranscriptPanel :=
| Paragraphs (text : string)
| NoTranscriptAvailable
| AvailableOnceProcessed
| GenerationFailed.

Definition has_status (s : Status) (podcast : PodcastRecord) : bool :=
  match status podcast with
  | Some text => String.eqb text (status_text s)
  | None => false
  end.

(** The conditional that renders the transcript; [Paragraphs text] stands
    for the paragraphs of [text.split('\n')]. *)
Definition transcriptPanel (podcast : PodcastRecord) : TranscriptPanel :=
  if has_status completed podcast then
    match transcript podcast with
    | Some text => if Js.truthy text then Paragraphs text
                   else NoTranscriptAvailable
    | None => NoTranscriptAvailable
    end
  else if has_status processing podcast then AvailableOnceProcessed
  else GenerationFailed.

End PodcastDetailsPage.

(** ** The audio assembler *)

Module Assembler.

Inductive Speaker := host | co_host.

(** Modelled from the spec: the backend's segment type is not among the
    sources. "Audio Segment: {speaker, raw_audio_bytes, duration}", the
    duration in seconds, as an exact rational. *)
Record AudioSegment := {
  speaker : Speaker;
  raw_audio_bytes : list Byte.byte;
  duration : Q
}.

(** Modelled from the spec: the gap policy of the backend's assembler, "a
    fixed short silence gap between turns" and "optionally a longer gap at
    detected topic-transition boundaries": the seconds of silence put
    after the turn at a given position, when another turn follows. *)
Definition GapPolicy := nat -> Q.

Definition fixed_gap (seconds : Q) : GapPolicy := fun _ => seconds.

(** The longer gap at the positions where a new topic starts. *)
Definition topic_gap (seconds longer : Q) (boundaries : list nat)
  : GapPolicy :=
  fun i => if existsb (Nat.eqb i) boundaries then longer else seconds.

(** What the artifact is made of, in order. *)
Inductive Piece :=
| Speech (segment : AudioSegment)
| Silence (seconds : Q).

Definition piece_seconds (p : Piece) : Q :=
  match p with
  | Speech s => duration s
  | Silence d => d
  end.

Definition track_seconds (track : list Piece) : Q :=
  foldr (fun p acc => piece_seconds p + acc)%Q 0%Q track.

(** Modelled from the spec: the concatenation step of the backend's
    assembler. The segments in order from position [i], a gap between
    each two. *)
Fixpoint lay_out (gap : GapPolicy) (i : nat) (segments : list AudioSegment)
  : list Piece :=
  match segments with
  | [] => []
  | s :: rest =>
      match rest with
      | [] => [Speech s]
      | _ :: _ => Speech s :: Silence (gap i) :: lay_out gap (S i) rest
      end
  end.

Inductive AssemblyError := AssemblyFailed.

(** Modelled from the spec: the assembler is part of the backend, which
    is not among the sources. [assemble(segments) -> (artifact,
    actual_duration_seconds)]: "concatenate segments in order; insert a
    fixed short silence gap between turns"; the duration is "the true sum
    of segment durations plus inserted gaps"; an empty segment list is
    [AssemblyFailed]. *)
Definition assemble (gap : GapPolicy) (segments : list AudioSegment)
  : AssemblyError + (list Piece * Q) :=
  match segments with
  | [] => inl AssemblyFailed
  | _ :: _ =>
      let artifact := lay_out gap 0 segments in
      inr (artifact, track_seconds artifact)
  end.

(** The gaps a policy asks for between [n] segments from position [i]. *)
Fixpoint gaps_between (gap : GapPolicy) (i n : nat) : list Q :=
  match n with
  | O => []
  | S O => []
  | S n' => gap i :: gaps_between gap (S i) n'
  end.

Definition sum_seconds (l : list Q) : Q :=
  foldr Qplus 0%Q l.

(** The segments and the silences an artifact holds, in order. *)
Fixpoint speeches (track : list Piece) : list AudioSegment :=
  match track with
  | [] => []
  | Speech s :: track' => s :: speeches track'
  | Silence _ :: track' => speeches track'
  end.

Fixpoint silences (track : list Piece) : list Q :=
  match track with
  | [] => []
  | Speech _ :: track' => silences track'
  | Silence d :: track' => d :: silences track'
  end.

End Assembler.

(** * Properties *)

(** ** Sample rows and tables *)

Definition sample_id : string := "123e4567-e89b-12d3-a456-426614174000".

Definition sample_values (user : string) (seconds : Z) (st : Sql.Column string)
  : Sql.InsertValues :=
  {| Sql.ins_id := Sql.Omitted;
     Sql.ins_created_at := Sql.Omitted;
     Sql.ins_user_id := Some user;
     Sql.ins_status := st;
     Sql.ins_duration := Some seconds;
     Sql.ins_url := None;
     Sql.ins_topics := Sql.Given (Some ["technology"]);
     Sql.ins_host_voice := Some "voice-a";
     Sql.ins_co_host_voice := Some "voice-b";
     Sql.ins_language := Some "en-US";
     Sql.ins_metadata := None;
     Sql.ins_transcript := None;
     Sql.ins_message := None |}.

(** The row those values make with the defaults of the table. *)
Definition sample_row (user : string) (seconds : Z) (st : option string)
  : PodcastRecord :=
  {| id := sample_id;
     created_at := Some 1700000000000000;
     user_id := user;
     status := st;
     duration := seconds;
     url := None;
     topics := ["technology"];
     host_voice := "voice-a";
     co_host_voice := "voice-b";
     language := "en-US";
     metadata := None;
     transcript := None;
     message := None |}.

(** ** Strings *)

Example includes_empty_query : Js.includes "technology" "" = true.
Proof. reflexivity. Qed.

Example includes_inner_run : Js.includes "technology" "nolo" = true.
Proof. reflexivity. Qed.

Example includes_nothing_in_empty : Js.includes "" "a" = false.
Proof. reflexivity. Qed.

Example toLowerCase_trim_padded :
  Js.trim (Js.toLowerCase "  123E4567-E89B-12D3-A456-426614174000 ")
  = sample_id.
Proof. vm_compute. reflexivity. Qed.

Example uuid_shape : Uuid.test sample_id = true.
Proof. vm_compute. reflexivity. Qed.

Example uuid_shape_needs_hyphens :
  Uuid.test "123e4567e89b12d3a456426614174000" = false.
Proof. vm_compute. reflexivity. Qed.

Example uuid_shape_ends_there :
  Uuid.test "123e4567-e89b-12d3-a456-426614174000-" = false.
Proof. vm_compute. reflexivity. Qed.

(** ** The list page *)

Lemma place_elem_of cmp x l y :
  y ∈ PodcastListPage.place cmp x l <-> y = x \/ y ∈ l.
Proof.
  induction l as [|z l IH]; simpl.
  - apply elem_of_cons.
  - destruct (cmp x z <=? 0)%Z.
    + rewrite elem_of_cons. tauto.
    + rewrite !elem_of_cons, IH. tauto.
Qed.

Lemma sort_with_elem_of cmp l y :
  y ∈ PodcastListPage.sort_with cmp l <-> y ∈ l.
Proof.
  unfold PodcastListPage.sort_with.
  induction l as [|x l IH]; simpl; [reflexivity|].
  rewrite place_elem_of, IH, elem_of_cons. tauto.
Qed.

Lemma filteredPodcasts_elem_of podcasts q sf sort p :
  p ∈ PodcastListPage.filteredPodcasts podcasts q sf sort <->
  p ∈ podcasts
  /\ PodcastListPage.matchesSearch q p = true
  /\ PodcastListPage.matchesStatus sf p = true.
Proof.
  unfold PodcastListPage.filteredPodcasts.
  rewrite sort_with_elem_of, !list_elem_of_In, filter_In, andb_true_iff.
  tauto.
Qed.

(** C9: in the list page's filter a podcast whose topics array is empty is
    not displayed, whatever the search query (the empty one too), the
    status filter and the sort order are. *)
Theorem filteredPodcasts_drops_topicless podcasts q sf sort p :
  topics p = [] ->
  p ∉ PodcastListPage.filteredPodcasts podcasts q sf sort.
Proof.
  intros Hnone Hin. apply filteredPodcasts_elem_of in Hin as (_ & Hsearch & _).
  unfold PodcastListPage.matchesSearch in Hsearch.
  rewrite Hnone in Hsearch. discriminate.
Qed.

Definition topicless_row : PodcastRecord :=
  {| id := sample_id; created_at := None; user_id := "user_1";
     status := Some "completed"; duration := 300; url := None; topics := [];
     host_voice := "voice-a"; co_host_voice := "voice-b";
     language := "en-US"; metadata := None; transcript := None;
     message := None |}.

Lemma filteredPodcasts_drops_topicless_witness :
  topicless_row ∉
    PodcastListPage.filteredPodcasts
      [topicless_row; sample_row "user_1" 60 (Some "completed")]
      "" PodcastListPage.all "created_desc".
Proof.
  apply (filteredPodcasts_drops_topicless
           [topicless_row; sample_row "user_1" 60 (Some "completed")]
           "" PodcastListPage.all "created_desc" topicless_row).
  reflexivity.
Defined.

(** With the empty query, a podcast that has a topic is displayed. *)
Example filteredPodcasts_empty_query :
  PodcastListPage.filteredPodcasts
    [topicless_row; sample_row "user_1" 60 (Some "completed")]
    "" PodcastListPage.all "created_desc"
  = [sample_row "user_1" 60 (Some "completed")].
Proof. vm_compute. reflexivity. Qed.

(** ** The voice catalogue *)

(** The ways the request for the voices fails: the network, a status that
    is not ok, a body that is not JSON. *)
Definition voices_request_failed (fetched : Js.Fetch Js.Json) : bool :=
  match fetched with
  | Js.Throw _ => true
  | Js.Ok response =>
      negb (Js.ok response) ||
      match Js.json response with
      | Js.Throw _ => true
      | Js.Ok _ => false
      end
  end.

Lemma getAll_never_throws fetched :
  exists voices, voiceApi.getAll fetched = Js.Ok voices.
Proof.
  unfold voiceApi.getAll, Js.try_catch.
  destruct (Js.bind fetched _) as [v|e]; eauto.
Qed.

Lemma getAll_failed fetched :
  voices_request_failed fetched = true ->
  voiceApi.getAll fetched = Js.Ok (Js.JArray []).
Proof.
  unfold voices_request_failed, voiceApi.getAll.
  destruct fetched as [response|e]; simpl; [|reflexivity].
  destruct (Js.ok response); simpl; [|reflexivity].
  destruct (Js.json response); simpl; [discriminate|reflexivity].
Qed.

Lemma getAll_not_array fetched voices :
  voiceApi.getAll fetched = Js.Ok voices ->
  Js.isArray voices = false ->
  exists response members,
    fetched = Js.Ok response
    /\ Js.json response = Js.Ok (Js.JObject members)
    /\ Js.member "voices" members = Some voices
    /\ Js.truthy_json voices = true.
Proof.
  unfold voiceApi.getAll.
  destruct fetched as [response|e]; simpl;
    [|intros [= <-]; discriminate].
  destruct (Js.ok response); simpl; [|intros [= <-]; discriminate].
  destruct (Js.json response) as [body|e] eqn:Hbody; simpl;
    [|intros [= <-]; discriminate].
  destruct body as [| | | |items|members]; simpl;
    try (intros [= <-]; discriminate).
  destruct (Js.member "voices" members) as [v|] eqn:Hmember;
    [|intros [= <-]; discriminate].
  destruct (Js.truthy_json v) eqn:Htruthy; [|intros [= <-]; discriminate].
  intros [= <-] _. exists response, members. auto.
Qed.

(** What [getAll] makes of a body that was received and parsed. *)
Lemma getAll_body response body :
  Js.ok response = true ->
  Js.json response = Js.Ok body ->
  voiceApi.getAll (Js.Ok response)
  = Js.Ok match body with
          | Js.JArray items => Js.JArray items
          | Js.JObject members =>
              match Js.member "voices" members with
              | Some v => if Js.truthy_json v then v else Js.JArray []
              | None => Js.JArray []
              end
          | _ => Js.JArray []
          end.
Proof.
  intros Hok Hbody. unfold voiceApi.getAll; simpl. rewrite Hok, Hbody.
  destruct body as [| | | |items|members]; try reflexivity.
  simpl. destruct (Js.member "voices" members) as [v|]; [|reflexivity].
  destruct (Js.truthy_json v); reflexivity.
Qed.

(** C10, as the code has it: [voiceApi.getAll] never propagates an error.
    It yields the empty list whenever the request fails (network failure,
    non-OK status, a body that is not JSON); for a body that was received
    and parsed it yields the array itself when the body is an array, the
    [voices] member when the body is an object that has a truthy one, and
    the empty list in every other case (an object without [voices] or
    with a falsy one, [null], a boolean, a number, a string). What it
    yields is a list except in one case: an object body whose [voices]
    member is a truthy value that is not an array, which is handed on as
    it is. *)
Theorem getAll_total fetched :
  exists voices,
    voiceApi.getAll fetched = Js.Ok voices
    /\ (voices_request_failed fetched = true -> voices = Js.JArray [])
    /\ (forall response body,
          fetched = Js.Ok response ->
          Js.ok response = true ->
          Js.json response = Js.Ok body ->
          (forall items, body = Js.JArray items -> voices = Js.JArray items)
          /\ (forall members v,
                body = Js.JObject members ->
                Js.member "voices" members = Some v ->
                Js.truthy_json v = true ->
                voices = v)
          /\ (forall members,
                body = Js.JObject members ->
                Js.member "voices" members = None
                \/ (exists v, Js.member "voices" members = Some v
                              /\ Js.truthy_json v = false) ->
                voices = Js.JArray [])
          /\ (Js.isArray body = false ->
              (forall members, body <> Js.JObject members) ->
              voices = Js.JArray []))
    /\ (Js.isArray voices = false ->
        exists response members,
          fetched = Js.Ok response
          /\ Js.ok response = true
          /\ Js.json response = Js.Ok (Js.JObject members)
          /\ Js.member "voices" members = Some voices
          /\ Js.truthy_json voices = true).
Proof.
  destruct (getAll_never_throws fetched) as [voices Hvoices].
  exists voices. split; [assumption|]. split; [|split].
  - intros Hfailed. apply getAll_failed in Hfailed. congruence.
  - intros response body -> Hok Hbody.
    rewrite (getAll_body _ _ Hok Hbody) in Hvoices.
    injection Hvoices as <-.
    split; [|split; [|split]].
    + intros items ->. reflexivity.
    + intros members v -> Hmember Htruthy. rewrite Hmember, Htruthy.
      reflexivity.
    + intros members -> [Hmember|(v & Hmember & Hfalsy)]; rewrite Hmember;
        [|rewrite Hfalsy]; reflexivity.
    + intros Harray Hobject.
      destruct body as [| | | |items|members]; try reflexivity;
        [discriminate|].
      exfalso. apply (Hobject members). reflexivity.
  - intros Harray.
    destruct (getAll_not_array _ _ Hvoices Harray)
      as (response & members & -> & Hbody & Hmember & Htruthy).
    exists response, members. repeat split; try assumption.
    unfold voiceApi.getAll in Hvoices. simpl in Hvoices.
    destruct (Js.ok response); [reflexivity|].
    simpl in Hvoices. injection Hvoices as <-. discriminate.
Qed.

(** C10 as stated fails: the body [{"voices": "x"}] makes [getAll] yield
    the string, which is no list of voices. *)
Lemma getAll_yields_a_string :
  voiceApi.getAll
    (Js.Ok {| Js.status := 200; Js.statusText := "OK";
              Js.json := Js.Ok (Js.JObject [("voices", Js.JString "x")]) |})
  = Js.Ok (Js.JString "x")
  /\ Js.isArray (Js.JString "x") = false.
Proof. split; reflexivity. Qed.

(** A body that is [null], a number or an object without [voices] gives
    the empty list. *)
Example getAll_null_body :
  voiceApi.getAll
    (Js.Ok {| Js.status := 200; Js.statusText := "OK";
              Js.json := Js.Ok Js.JNull |})
  = Js.Ok (Js.JArray []).
Proof. reflexivity. Qed.

Example getAll_object_without_voices :
  voiceApi.getAll
    (Js.Ok {| Js.status := 200; Js.statusText := "OK";
              Js.json := Js.Ok (Js.JObject [("items", Js.JArray [])]) |})
  = Js.Ok (Js.JArray []).
Proof. reflexivity. Qed.

(** ** Retrieval of a job *)

Lemma select_by_id_cons pid t r rest :
  Sql.select_by_id pid t = r :: rest -> r ∈ t /\ id r = pid.
Proof.
  unfold Sql.select_by_id. intros Hsel.
  assert (Hin : In r (List.filter (Sql.has_id pid) t))
    by (rewrite Hsel; left; reflexivity).
  apply filter_In in Hin as [Hin Hid].
  split; [apply list_elem_of_In; assumption|].
  apply String.eqb_eq. exact Hid.
Qed.

Definition assumed_processing (now : Z) (podcastId : string)
  : ProcessingStub :=
  {| stub_id := podcastId;
     stub_status := processing;
     stub_topics := [];
     stub_message := "Your podcast is being generated. Please wait...";
     stub_created_at := now;
     stub_user_id := "" |}.

(** C3, as the code has it: over the backend's answer for a table,
    [podcastApi.getById] returns the record stored under the id when there
    is one; when there is none it reports not-found only for an id that,
    lower-cased and trimmed, does not have the shape of a UUID, and for an
    id of that shape it returns a made-up record with status processing,
    no topics and an empty user id. *)
Theorem getById_backend now podcastId t :
  match Sql.select_by_id podcastId t with
  | r :: _ =>
      podcastApi.getById now podcastId (backend_get t podcastId)
      = Js.Ok (FromBackend (Podcast r))
      /\ r ∈ t /\ id r = podcastId
  | [] =>
      podcastApi.getById now podcastId (backend_get t podcastId)
      = if Uuid.test (Js.trim (Js.toLowerCase podcastId))
        then Js.Ok (Assumed (assumed_processing now podcastId))
        else Js.Throw (Js.Error ("Podcast not found: " ++ podcastId))
  end.
Proof.
  unfold backend_get.
  destruct (Sql.select_by_id podcastId t) as [|r rest] eqn:Hsel.
  - unfold podcastApi.getById; simpl.
    destruct (Uuid.test _); reflexivity.
  - split; [reflexivity|]. eapply select_by_id_cons; eassumption.
Qed.

(** C3 as stated fails: for an id of the shape of a UUID that no record
    has, [getById] does not report not-found; it returns a record that
    was never stored. *)
Lemma getById_returns_unstored_record :
  Sql.select_by_id sample_id [] = []
  /\ podcastApi.getById 1700000000000 sample_id (backend_get [] sample_id)
     = Js.Ok (Assumed (assumed_processing 1700000000000 sample_id)).
Proof. split; vm_compute; reflexivity. Qed.

(** An id that is not of that shape is reported as not found, and any
    other status that is not ok as a failure. *)
Example getById_not_found :
  podcastApi.getById 0 "42" (backend_get [] "42")
  = Js.Throw (Js.Error "Podcast not found: 42").
Proof. vm_compute. reflexivity. Qed.

Lemma getById_server_error {B} now podcastId (response : Js.Response B) :
  Js.status response <> 404 ->
  Js.ok response = false ->
  podcastApi.getById now podcastId (Js.Ok response)
  = Js.Throw (Js.Error ("Failed to fetch podcast: "
                        ++ Js.statusText response)).
Proof.
  intros Hstatus Hok. unfold podcastApi.getById; simpl.
  destruct (Z.eqb_spec (Js.status response) 404); [contradiction|].
  rewrite Hok. reflexivity.
Qed.

(** ** The create page *)

Section SubmitProperties.

Variable ToString : option Js.Json -> string.
Variable now_text : string.
Variable errorMessage : Js.Response Js.Json -> string.

Local Abbreviation handleSubmit :=
  (CreatePodcastPage.handleSubmit ToString now_text errorMessage).

Definition submitted_data (f : CreatePodcastPage.Form) : CreateData :=
  {| create_topics := CreatePodcastPage.topics f;
     create_duration := CreatePodcastPage.duration f;
     create_host_voice := CreatePodcastPage.hostVoice f;
     create_co_host_voice := CreatePodcastPage.coHostVoice f;
     create_language := CreatePodcastPage.language f |}.

Lemma truthy_true s : Js.truthy s = true <-> s <> "".
Proof.
  unfold Js.truthy. rewrite negb_true_iff.
  destruct (String.eqb_spec s ""); split; congruence.
Qed.

Lemma after_create_posts_nothing responseData body :
  CreatePodcastPage.post_podcasts body
    ∉ (CreatePodcastPage.after_create ToString now_text responseData).1.
Proof.
  unfold CreatePodcastPage.after_create.
  destruct (CreatePodcastPage.created_id responseData); simpl.
  - rewrite !elem_of_cons, elem_of_nil. intros [H|[H|[]]]; discriminate.
  - apply not_elem_of_nil.
Qed.

(** The effects that follow the request hold no second request. *)
Lemma handleSubmit_tail_posts_nothing data user_id fetched body :
  CreatePodcastPage.post_podcasts body
    ∉ (match podcastApi.create errorMessage data user_id fetched with
        | Js.Throw e => [CreatePodcastPage.failure_toast e]
        | Js.Ok responseData =>
            CreatePodcastPage.toast_success
              "Podcast creation started! You will be redirected to the waiting page."
            :: match CreatePodcastPage.after_create ToString now_text
                       responseData with
               | (done, Js.Ok _) => done
               | (done, Js.Throw e) =>
                   done ++ [CreatePodcastPage.failure_toast e]
               end
        end ++ [CreatePodcastPage.setIsSubmitting false])%list.
Proof.
  rewrite elem_of_app, list_elem_of_singleton.
  intros [Hin|Hin]; [|discriminate].
  destruct (podcastApi.create _ _ _ _) as [responseData|e].
  - apply elem_of_cons in Hin as [Hin|Hin]; [discriminate|].
    pose proof (after_create_posts_nothing responseData body) as Hnot.
    destruct (CreatePodcastPage.after_create _ _ _) as [done [[]|e]];
      simpl in Hnot; [contradiction|].
    apply elem_of_app in Hin as [Hin|Hin]; [contradiction|].
    apply list_elem_of_singleton in Hin. discriminate.
  - apply list_elem_of_singleton in Hin. discriminate.
Qed.

(** [handleSubmit] either sends one request, second in its effects, with
    the values of the form, or shows one error and does nothing else. *)
Lemma handleSubmit_cases f fetched :
  (exists user_id rest,
     CreatePodcastPage.user f = Some user_id
     /\ CreatePodcastPage.topics f <> []
     /\ CreatePodcastPage.hostVoice f <> ""
     /\ CreatePodcastPage.coHostVoice f <> ""
     /\ handleSubmit f fetched
        = CreatePodcastPage.setIsSubmitting true
          :: CreatePodcastPage.post_podcasts
               (podcastApi.create_body (submitted_data f) user_id)
          :: rest
     /\ forall body, CreatePodcastPage.post_podcasts body ∉ rest)
  \/ (exists text,
        handleSubmit f fetched = [CreatePodcastPage.toast_error text]
        /\ (CreatePodcastPage.user f = None
            \/ CreatePodcastPage.topics f = []
            \/ CreatePodcastPage.hostVoice f = ""
            \/ CreatePodcastPage.coHostVoice f = "")).
Proof.
  unfold CreatePodcastPage.handleSubmit.
  destruct (CreatePodcastPage.user f) as [user_id|]; [|right; eauto].
  destruct (CreatePodcastPage.topics f) as [|topic rest] eqn:Htopics; simpl;
    [right; eauto|].
  destruct (Js.truthy (CreatePodcastPage.hostVoice f)) eqn:Hhost; simpl.
  2:{ right. eexists. split; [reflexivity|]. right; right; left.
      destruct (String.eqb_spec (CreatePodcastPage.hostVoice f) "") as [|Hne];
        [assumption|].
      apply truthy_true in Hne. congruence. }
  destruct (Js.truthy (CreatePodcastPage.coHostVoice f)) eqn:Hco; simpl.
  2:{ right. eexists. split; [reflexivity|]. right; right; right.
      destruct (String.eqb_spec (CreatePodcastPage.coHostVoice f) "")
        as [|Hne]; [assumption|].
      apply truthy_true in Hne. congruence. }
  apply truthy_true in Hhost, Hco.
  left. eexists user_id, _.
  split; [reflexivity|]. split; [discriminate|].
  split; [assumption|]. split; [assumption|].
  split.
  - unfold submitted_data. rewrite Htopics. reflexivity.
  - intros body. apply handleSubmit_tail_posts_nothing.
Qed.

(** C4, as the code has it: [handleSubmit] sends the creation request
    exactly when a user is signed in, there is a topic, and both voice
    identifiers are non-empty, and the request carries the form's values;
    whether the two voices differ is not looked at. *)
Theorem handleSubmit_posts_iff f fetched body :
  CreatePodcastPage.post_podcasts body ∈ handleSubmit f fetched
  <->
  exists user_id,
    CreatePodcastPage.user f = Some user_id
    /\ CreatePodcastPage.topics f <> []
    /\ CreatePodcastPage.hostVoice f <> ""
    /\ CreatePodcastPage.coHostVoice f <> ""
    /\ body = podcastApi.create_body (submitted_data f) user_id.
Proof.
  destruct (handleSubmit_cases f fetched)
    as [(uid & rest & Huser & Htopics & Hhost & Hco & -> & Hrest)
       |(text & -> & Hbad)].
  - rewrite !elem_of_cons. split.
    + intros [Hin|[Hin|Hin]]; [discriminate| |].
      * injection Hin as ->. exists uid. auto.
      * exfalso. exact (Hrest body Hin).
    + intros (uid' & Huser' & _ & _ & _ & ->). right; left. congruence.
  - rewrite list_elem_of_singleton. split; [discriminate|].
    intros (uid & Huser & Htopics & Hhost & Hco & _).
    destruct Hbad as [Hbad|[Hbad|[Hbad|Hbad]]]; congruence.
Qed.

Lemma handle_duration_offered e f :
  (exists option, option ∈ CreatePodcastPage.DURATION_OPTIONS
     /\ CreatePodcastPage.duration f = CreatePodcastPage.value option) ->
  exists option, option ∈ CreatePodcastPage.DURATION_OPTIONS
     /\ CreatePodcastPage.duration (CreatePodcastPage.handle e f)
        = CreatePodcastPage.value option.
Proof.
  intros Hf. destruct e; simpl; try exact Hf.
  - unfold CreatePodcastPage.handleAddTopic.
    destruct (_ && _); [simpl|]; exact Hf.
  - unfold CreatePodcastPage.voicesFetched.
    destruct voice_ids as [|v0 [|v1 rest]]; exact Hf.
  - destruct (CreatePodcastPage.DURATION_OPTIONS !! button) as [option|]
      eqn:Hbutton; [|exact Hf].
    exists option. split; [|reflexivity].
    eapply list_elem_of_lookup_2. exact Hbutton.
Qed.

(** Whatever is done to the form, its duration is one of the options. *)
Lemma run_duration_offered events f :
  (exists option, option ∈ CreatePodcastPage.DURATION_OPTIONS
     /\ CreatePodcastPage.duration f = CreatePodcastPage.value option) ->
  exists option, option ∈ CreatePodcastPage.DURATION_OPTIONS
     /\ CreatePodcastPage.duration (CreatePodcastPage.run events f)
        = CreatePodcastPage.value option.
Proof.
  unfold CreatePodcastPage.run. revert f.
  induction events as [|e events IH]; intros f Hf; simpl; [exact Hf|].
  apply IH, handle_duration_offered, Hf.
Qed.

Lemma DURATION_OPTIONS_bounds option :
  option ∈ CreatePodcastPage.DURATION_OPTIONS ->
  60 <= CreatePodcastPage.value option <= 3600.
Proof.
  unfold CreatePodcastPage.DURATION_OPTIONS.
  rewrite !elem_of_cons, elem_of_nil.
  intros [->|[->|[->|[->|[->|[->|[]]]]]]]; simpl; lia.
Qed.

(** C7, as the code has it: the create page only submits a duration that
    is one of [DURATION_OPTIONS], all of which lie in [60, 3600]: for
    every sequence of events on the form from its initial state, a
    creation request that [handleSubmit] sends carries such a duration. *)
Theorem handleSubmit_duration_bounds u events fetched body :
  CreatePodcastPage.post_podcasts body
    ∈ handleSubmit
        (CreatePodcastPage.run events (CreatePodcastPage.initial u)) fetched ->
  60 <= create_duration (body_data body) <= 3600.
Proof.
  intros Hin.
  destruct (handleSubmit_cases
              (CreatePodcastPage.run events (CreatePodcastPage.initial u))
              fetched)
    as [(uid & rest & _ & _ & _ & _ & Heffects & Hrest)|(text & Heffects & _)];
    rewrite Heffects in Hin.
  2:{ apply list_elem_of_singleton in Hin. discriminate. }
  apply elem_of_cons in Hin as [Hin|Hin]; [discriminate|].
  apply elem_of_cons in Hin as [Hin|Hin]; [|destruct (Hrest body Hin)].
  injection Hin as ->. simpl.
  destruct (run_duration_offered events (CreatePodcastPage.initial u))
    as (option & Hoffered & ->).
  - exists {| CreatePodcastPage.value := 300;
              CreatePodcastPage.label := "5 minutes" |}.
    split; [|reflexivity].
    unfold CreatePodcastPage.DURATION_OPTIONS. rewrite !elem_of_cons. auto.
  - apply DURATION_OPTIONS_bounds, Hoffered.
Qed.

End SubmitProperties.

(** A form filled in with the same voice for both roles, and the network
    down. *)
Definition same_voice_form : CreatePodcastPage.Form :=
  {| CreatePodcastPage.user := Some "user_1";
     CreatePodcastPage.topics := ["technology"];
     CreatePodcastPage.topicInput := "";
     CreatePodcastPage.duration := 300;
     CreatePodcastPage.hostVoice := "voice-a";
     CreatePodcastPage.coHostVoice := "voice-a";
     CreatePodcastPage.language := "en-US" |}.

Definition network_down : Js.Fetch Js.Json :=
  Js.Throw (Js.Error "Failed to fetch").

Definition plain_text (v : option Js.Json) : string :=
  match v with
  | Some (Js.JString s) => s
  | _ => "undefined"
  end.

(** C4 as stated fails: with one and the same non-empty voice for host
    and co-host, [handleSubmit] sends the creation request. *)
Lemma handleSubmit_posts_same_voice :
  CreatePodcastPage.hostVoice same_voice_form
  = CreatePodcastPage.coHostVoice same_voice_form
  /\ CreatePodcastPage.post_podcasts
       (podcastApi.create_body (submitted_data same_voice_form) "user_1")
     ∈ CreatePodcastPage.handleSubmit plain_text "1700000000000"
         (fun _ => "HTTP error") same_voice_form network_down.
Proof.
  split; [reflexivity|].
  apply list_elem_of_In. vm_compute. right; left; reflexivity.
Qed.

Definition sample_events : list CreatePodcastPage.Event :=
  [ CreatePodcastPage.TypeTopic " technology ";
    CreatePodcastPage.AddTopic;
    CreatePodcastPage.VoicesFetched ["voice-a"; "voice-b"; "voice-c"];
    CreatePodcastPage.ClickDuration 5;
    CreatePodcastPage.ClickDuration 9 ].

Definition sample_body : CreateBody :=
  {| body_data :=
       {| create_topics := ["technology"];
          create_duration := 3600;
          create_host_voice := "voice-a";
          create_co_host_voice := "voice-b";
          create_language := "en-US" |};
     body_user_id := "user_1" |}.

Lemma handleSubmit_duration_bounds_witness :
  60 <= create_duration (body_data sample_body) <= 3600.
Proof.
  apply (handleSubmit_duration_bounds plain_text "1700000000000"
           (fun _ => "HTTP error") (Some "user_1") sample_events
           network_down sample_body).
  apply list_elem_of_In. vm_compute. right; left; reflexivity.
Defined.

(** ** The ids the store reads *)

Example is_uuid_canonical : Sql.is_uuid sample_id = true.
Proof. reflexivity. Qed.

(** Capital letters, braces and a text without hyphens are read too. *)
Example is_uuid_spellings :
  Sql.is_uuid "{123E4567-E89B-12D3-A456-426614174000}" = true
  /\ Sql.is_uuid "123e4567e89b12d3a456426614174000" = true.
Proof. split; reflexivity. Qed.

(** A text of another shape is not, nor is a UUID with something after
    it. *)
Example is_uuid_other_texts :
  Sql.is_uuid "undefined" = false
  /\ Sql.is_uuid "42" = false
  /\ Sql.is_uuid "" = false
  /\ Sql.is_uuid "123e4567-e89b-12d3-a456-426614174000 " = false
  /\ Sql.is_uuid "123e4567-e89b-12d3-a456-42661417400" = false.
Proof. repeat split; reflexivity. Qed.

(** ** Writes to the job store *)

(** The three fields a finished job carries. *)
Definition outputs (r : PodcastRecord)
  : option Metadata * option string * option string :=
  (metadata r, transcript r, url r).

(** Every column but [status] and [message]. *)
Definition kept (r : PodcastRecord) :=
  (id r, created_at r, user_id r, duration r, url r, topics r,
   host_voice r, co_host_voice r, language r, metadata r, transcript r).

Definition rewrite_row (pid st : string) (msg : option string)
    (r : PodcastRecord) : PodcastRecord :=
  if Sql.has_id pid r then Sql.set_status st msg r else r.

(** The table after [updateStatus] is the table before, or the table with
    the rows of that id rewritten. *)
Lemma updateStatus_table fault pid st msg t :
  (podcastOperations.updateStatus fault pid st msg t).1 = t
  \/ (podcastOperations.updateStatus fault pid st msg t).1
     = map (rewrite_row pid (status_text st) msg) t.
Proof.
  unfold podcastOperations.updateStatus, Supabase.update_single.
  destruct fault as [e|]; [left; reflexivity|].
  destruct (Sql.is_uuid pid); cbn [negb]; [|left; reflexivity].
  unfold Sql.update_status. fold (rewrite_row pid (status_text st) msg).
  destruct (forallb _ _); [|left; reflexivity].
  destruct (List.filter _ _) as [|r [|r' rest]]; simpl; auto.
Qed.

Lemma updateStatus_result fault pid st msg t r :
  (podcastOperations.updateStatus fault pid st msg t).2 = Js.Ok (Some r) ->
  r ∈ (podcastOperations.updateStatus fault pid st msg t).1
  /\ id r = pid /\ status r = Some (status_text st).
Proof.
  unfold podcastOperations.updateStatus, Supabase.update_single.
  destruct fault as [e|]; [discriminate|].
  destruct (Sql.is_uuid pid); cbn [negb]; [|discriminate].
  unfold Sql.update_status. fold (rewrite_row pid (status_text st) msg).
  destruct (forallb _ _); [|discriminate].
  destruct (List.filter _ _) as [|r0 [|r1 rest]] eqn:Hwritten; simpl;
    try discriminate.
  intros [= ->].
  assert (Hin : In r (List.filter (Sql.has_id pid)
                        (map (rewrite_row pid (status_text st) msg) t)))
    by (rewrite Hwritten; left; reflexivity).
  apply filter_In in Hin as [Hin Hid].
  split; [apply list_elem_of_In; exact Hin|].
  split; [apply String.eqb_eq; exact Hid|].
  apply in_map_iff in Hin as (r0 & <- & _).
  unfold rewrite_row in *. destruct (Sql.has_id pid r0) eqn:Hr0.
  - reflexivity.
  - congruence.
Qed.

Lemma rewrite_row_kept pid st msg r :
  kept (rewrite_row pid st msg r) = kept r.
Proof. unfold rewrite_row. destruct (Sql.has_id pid r); reflexivity. Qed.

Lemma rewrite_row_status pid st msg r :
  status (rewrite_row pid st msg r) = status r
  \/ status (rewrite_row pid st msg r) = Some st.
Proof. unfold rewrite_row. destruct (Sql.has_id pid r); auto. Qed.

(** C1, as the code has it: the job store does not tie [metadata],
    [transcript] and [url] to [status]. [updateStatus] writes [status]
    and [message] only: whatever the new status, every record keeps its
    id and its [metadata], [transcript] and [url], and the record the
    call returns has the id and the status asked for. *)
Theorem updateStatus_keeps_outputs fault pid st msg t :
  map id (podcastOperations.updateStatus fault pid st msg t).1 = map id t
  /\ map outputs (podcastOperations.updateStatus fault pid st msg t).1
     = map outputs t
  /\ forall r,
       (podcastOperations.updateStatus fault pid st msg t).2
       = Js.Ok (Some r) ->
       r ∈ (podcastOperations.updateStatus fault pid st msg t).1
       /\ id r = pid /\ status r = Some (status_text st).
Proof.
  split; [|split].
  - destruct (updateStatus_table fault pid st msg t) as [->| ->];
      [reflexivity|].
    rewrite map_map. apply map_ext. intros r.
    pose proof (rewrite_row_kept pid (status_text st) msg r) as Hkept.
    unfold kept in Hkept. congruence.
  - destruct (updateStatus_table fault pid st msg t) as [->| ->];
      [reflexivity|].
    rewrite map_map. apply map_ext. intros r.
    pose proof (rewrite_row_kept pid (status_text st) msg r) as Hkept.
    unfold kept, outputs in *. congruence.
  - apply updateStatus_result.
Qed.

(** C1 as stated fails: [updateStatus] makes a job that is processing a
    completed one that has no metadata, no transcript and no url. *)
Lemma updateStatus_completes_without_outputs :
  Sql.insert sample_id 1700000000000000
    (sample_values "user_1" 300 Sql.Omitted) []
  = Js.Ok [sample_row "user_1" 300 (Some "processing")]
  /\ exists r,
       podcastOperations.updateStatus None sample_id completed None
         [sample_row "user_1" 300 (Some "processing")]
       = ([r], Js.Ok (Some r))
       /\ status r = Some "completed"
       /\ metadata r = None /\ transcript r = None /\ url r = None.
Proof.
  split; [reflexivity|].
  exists (sample_row "user_1" 300 (Some "completed")).
  repeat split; vm_compute; reflexivity.
Qed.

(** The details page has a branch for such a record. *)
Lemma transcriptPanel_completed_without_transcript r :
  PodcastDetailsPage.has_status completed r = true ->
  Js.truthy_opt (transcript r) = false ->
  PodcastDetailsPage.transcriptPanel r
  = PodcastDetailsPage.NoTranscriptAvailable.
Proof.
  unfold PodcastDetailsPage.transcriptPanel, Js.truthy_opt.
  intros -> Hfalsy. destruct (transcript r) as [text|]; [|reflexivity].
  rewrite Hfalsy. reflexivity.
Qed.

(** *** Sequences of status updates *)

Record UpdateCall := {
  call_fault : option Js.Thrown;
  call_id : string;
  call_status : Status;
  call_message : option string
}.

Definition apply_call (t : Table) (c : UpdateCall) : Table :=
  (podcastOperations.updateStatus (call_fault c) (call_id c)
     (call_status c) (call_message c) t).1.

Definition run_calls (calls : list UpdateCall) (t : Table) : Table :=
  fold_left apply_call calls t.

Lemma lookup_map {A B} (f : A -> B) (l : list A) (n : nat) :
  map f l !! n = f <$> l !! n.
Proof.
  revert n. induction l as [|x l IH]; intros [|n]; simpl; auto.
Qed.

Lemma apply_call_row t c n r :
  t !! n = Some r ->
  exists r',
    apply_call t c !! n = Some r'
    /\ kept r' = kept r
    /\ (status r' = status r
        \/ status r' = Some (status_text (call_status c))).
Proof.
  intros Hrow. unfold apply_call.
  destruct (updateStatus_table (call_fault c) (call_id c) (call_status c)
              (call_message c) t) as [->| ->].
  - exists r. auto.
  - exists (rewrite_row (call_id c) (status_text (call_status c))
              (call_message c) r).
    rewrite lookup_map, Hrow. simpl.
    split; [reflexivity|]. split.
    + apply rewrite_row_kept.
    + apply rewrite_row_status.
Qed.

Lemma status_text_processing st :
  status_text st = "processing" -> st = processing.
Proof. destruct st; simpl; intros H; congruence || discriminate. Qed.

(** C2, as the code has it: [updateStatus] sets the status it is given,
    whatever the status was, so the order of statuses is not enforced by
    the store. Across every sequence of [updateStatus] calls a job keeps
    every field other than [status] and [message]; and when none of the
    calls asks for processing, a job that is not processing is not
    processing afterwards either. *)
Theorem forward_updates_never_reopen calls t n r :
  t !! n = Some r ->
  exists r',
    run_calls calls t !! n = Some r'
    /\ kept r' = kept r
    /\ (Forall (fun c => call_status c <> processing) calls ->
        status r <> Some "processing" ->
        status r' <> Some "processing").
Proof.
  unfold run_calls. revert t r.
  induction calls as [|c calls IH]; intros t r Hrow; simpl.
  - exists r. auto.
  - destruct (apply_call_row t c n r Hrow) as (r1 & Hrow1 & Hkept1 & Hst1).
    destruct (IH (apply_call t c) r1 Hrow1) as (r' & Hrow' & Hkept' & Hst').
    exists r'. split; [exact Hrow'|]. split; [congruence|].
    intros Hcalls Hstatus. apply Forall_cons in Hcalls as [Hc Hcalls].
    apply Hst'; [exact Hcalls|].
    destruct Hst1 as [-> | ->]; [exact Hstatus|].
    intros [= Htext]. apply Hc, status_text_processing, Htext.
Qed.

Definition failed_table : Table := [sample_row "user_1" 300 (Some "failed")].

Definition completing_call : UpdateCall :=
  {| call_fault := None; call_id := sample_id;
     call_status := completed; call_message := Some "done" |}.

Lemma forward_updates_never_reopen_witness :
  exists r',
    run_calls [completing_call] failed_table !! 0%nat = Some r'
    /\ kept r' = kept (sample_row "user_1" 300 (Some "failed"))
    /\ (Forall (fun c => call_status c <> processing) [completing_call] ->
        status (sample_row "user_1" 300 (Some "failed"))
        <> Some "processing" ->
        status r' <> Some "processing").
Proof.
  apply (forward_updates_never_reopen [completing_call] failed_table 0%nat
           (sample_row "user_1" 300 (Some "failed"))).
  reflexivity.
Defined.

(** After that call the failed job reads completed, with the message of
    the call. *)
Example completing_call_on_failed_job :
  (status <$> run_calls [completing_call] failed_table,
   message <$> run_calls [completing_call] failed_table)
  = ([Some "completed"], [Some "done"]).
Proof. vm_compute. reflexivity. Qed.

(** C2 as stated fails: a job that has failed is put back to processing,
    with a new message, by one [updateStatus]. *)
Lemma updateStatus_reopens_failed_job :
  Sql.insert sample_id 1700000000000000
    (sample_values "user_1" 300 (Sql.Given (Some "failed"))) []
  = Js.Ok failed_table
  /\ exists r,
       (podcastOperations.updateStatus None sample_id processing
          (Some "retrying") failed_table).1 = [r]
       /\ status r = Some "processing"
       /\ message r = Some "retrying".
Proof.
  split; [reflexivity|].
  exists {| id := sample_id; created_at := Some 1700000000000000;
            user_id := "user_1"; status := Some "processing";
            duration := 300; url := None; topics := ["technology"];
            host_voice := "voice-a"; co_host_voice := "voice-b";
            language := "en-US"; metadata := None; transcript := None;
            message := Some "retrying" |}.
  repeat split; vm_compute; reflexivity.
Qed.

(** *** The status column *)

Definition known_status (r : PodcastRecord) : Prop :=
  exists s, status r = Some (status_text s).

(** The CHECK admits the three texts, and NULL. *)
Lemma status_check_spec r :
  Sql.status_check r = true <-> status r = None \/ known_status r.
Proof.
  unfold Sql.status_check, Sql.in_list, known_status.
  destruct (status r) as [text|]; cbn [existsb Sql.check_satisfied].
  - destruct (String.eqb_spec text "processing") as [->|Hp];
      [split; [right; exists processing|]; reflexivity|].
    destruct (String.eqb_spec text "completed") as [->|Hc];
      [split; [right; exists completed|]; reflexivity|].
    destruct (String.eqb_spec text "failed") as [->|Hf];
      [split; [right; exists failed|]; reflexivity|].
    split; [discriminate|].
    intros [[=]|[[] [= ->]]]; contradiction.
  - split; auto.
Qed.

(** A status written by [updateStatus] is one of the three. *)
Lemma updateStatus_known_status fault pid st msg t :
  Forall known_status t ->
  Forall known_status (podcastOperations.updateStatus fault pid st msg t).1.
Proof.
  intros Hknown.
  destruct (updateStatus_table fault pid st msg t) as [->| ->];
    [exact Hknown|].
  apply Forall_forall. intros r' Hin.
  apply list_elem_of_In, in_map_iff in Hin as (r & <- & Hin).
  unfold known_status.
  destruct (rewrite_row_status pid (status_text st) msg r) as [->| ->].
  - rewrite Forall_forall in Hknown. apply Hknown, list_elem_of_In, Hin.
  - exists st. reflexivity.
Qed.

(** An INSERT that leaves [status] out, or gives it a text, stores one of
    the three or is refused. *)
Lemma insert_known_status uuid now v t t' :
  Sql.ins_status v <> Sql.Given None ->
  Forall known_status t ->
  Sql.insert uuid now v t = Js.Ok t' ->
  Forall known_status t'.
Proof.
  intros Hgiven Hknown. unfold Sql.insert.
  destruct (Sql.malformed v uuid); [discriminate|].
  destruct (Sql.or_default (Sql.ins_id v) uuid) as [i|]; [|discriminate].
  destruct (Sql.ins_user_id v) as [u|]; [|discriminate].
  destruct (Sql.ins_duration v) as [d|]; [|discriminate].
  destruct (Sql.or_default (Sql.ins_topics v) []) as [tp|]; [|discriminate].
  destruct (Sql.ins_host_voice v) as [h|]; [|discriminate].
  destruct (Sql.ins_co_host_voice v) as [c|]; [|discriminate].
  destruct (Sql.ins_language v) as [l|]; [|discriminate].
  match goal with
  | |- context [Sql.status_check ?row] =>
      destruct (Sql.status_check row) eqn:Hcheck; simpl; [|discriminate]
  end.
  destruct (existsb _ t); [discriminate|]. intros [= <-].
  apply Forall_app. split; [exact Hknown|].
  apply Forall_cons. split; [|constructor].
  apply status_check_spec in Hcheck as [Hnull|Hok]; [|exact Hok].
  simpl in Hnull. destruct (Sql.ins_status v) as [|[text|]]; simpl in Hnull;
    congruence.
Qed.

(** C5 fails on the schema: the [status] column has no NOT NULL, and the
    CHECK is satisfied by NULL, so an INSERT that gives [status] as NULL
    is accepted and stores a record whose status is none of the three. *)
Theorem insert_accepts_null_status :
  Sql.insert sample_id 1700000000000000
    (sample_values "user_1" 300 (Sql.Given None)) []
  = Js.Ok [sample_row "user_1" 300 None]
  /\ ~ known_status (sample_row "user_1" 300 None).
Proof.
  split; [reflexivity|]. intros [s Hs]. discriminate.
Qed.

(** *** The duration column *)

(** C7 as stated fails: the table takes any INTEGER as a duration, and
    the request body carries whatever duration it is given; a job of five
    seconds is stored. *)
Lemma insert_accepts_short_duration :
  Sql.insert sample_id 1700000000000000
    (sample_values "user_1" 5 Sql.Omitted) []
  = Js.Ok [sample_row "user_1" 5 (Some "processing")]
  /\ duration (sample_row "user_1" 5 (Some "processing")) = 5
  /\ ~ (60 <= duration (sample_row "user_1" 5 (Some "processing")) <= 3600).
Proof.
  split; [reflexivity|]. split; [reflexivity|]. simpl. lia.
Qed.

(** The request body carries the duration it is given. *)
Example create_body_short_duration :
  create_duration
    (body_data
       (podcastApi.create_body
          {| create_topics := ["technology"]; create_duration := 5;
             create_host_voice := "voice-a"; create_co_host_voice := "voice-b";
             create_language := "en-US" |} "user_1")) = 5.
Proof. reflexivity. Qed.

(** ** Listing the jobs of a user *)

#[local] Instance newest_first_transitive : Transitive Supabase.newest_first.
Proof.
  unfold Supabase.newest_first, Supabase.instant_ge. intros a b c.
  destruct (created_at a) as [x|], (created_at b) as [y|],
    (created_at c) as [z|]; try reflexivity; try discriminate.
  rewrite !Z.leb_le. lia.
Qed.

#[local] Instance newest_first_total : Total Supabase.newest_first.
Proof.
  unfold Supabase.newest_first, Supabase.instant_ge. intros a b.
  destruct (created_at a) as [x|], (created_at b) as [y|]; auto.
  rewrite !Z.leb_le. lia.
Qed.

Lemma StronglySorted_take_drop {A} (R : relation A) (l : list A) (m n : nat) :
  StronglySorted R l -> StronglySorted R (take m (drop n l)).
Proof.
  intros Hsorted.
  rewrite <- (take_drop n l) in Hsorted.
  apply StronglySorted_app_1_r in Hsorted.
  rewrite <- (take_drop m (drop n l)) in Hsorted.
  apply StronglySorted_app_1_l in Hsorted. exact Hsorted.
Qed.

Lemma elem_of_take_drop {A} (l : list A) (m n : nat) (x : A) :
  x ∈ take m (drop n l) -> x ∈ l.
Proof.
  intros Hin. rewrite <- (take_drop n l). apply elem_of_app. right.
  rewrite <- (take_drop m (drop n l)). apply elem_of_app. left. exact Hin.
Qed.

(** The service [Supabase.select_user_range], when it carries a query
    out, gives one of the answers SQL allows. *)
Lemma select_user_range_answer userId from to t :
  0 <= from ->
  from <= to ->
  Supabase.range_answer userId from to t
    (Supabase.select_user_range None userId from to t).
Proof.
  intros Hfrom Hto. unfold Supabase.select_user_range.
  replace ((from <? 0) || (to <? from))%Z with false
    by (symmetry; apply orb_false_iff; split; apply Z.ltb_ge; lia).
  exists (merge_sort Supabase.newest_first
            (List.filter (Supabase.owned_by userId) t)).
  split; [apply merge_sort_Permutation|].
  split; [apply StronglySorted_merge_sort; apply _|].
  rewrite (Permutation_length (merge_sort_Permutation _ _)). reflexivity.
Qed.

(** What [getByUser] makes of an answer without an error. *)
Lemma getByUser_with_rows query userId page limit rows total :
  userId <> "" ->
  query userId ((page - 1) * limit) ((page - 1) * limit + limit - 1)
  = {| Supabase.q_data := Some rows; Supabase.q_error := None;
       Supabase.q_count := Some total |} ->
  podcastOperations.getByUser_with query userId page limit
  = Js.Ok {| data := rows; count := total |}.
Proof.
  intros HuserId Hanswer. unfold podcastOperations.getByUser_with.
  apply truthy_true in HuserId. rewrite HuserId. cbn [negb].
  cbv zeta. rewrite Hanswer. reflexivity.
Qed.

(** A failure of the query is thrown on. *)
Lemma getByUser_with_error query userId page limit e :
  userId <> "" ->
  Supabase.q_error
    (query userId ((page - 1) * limit) ((page - 1) * limit + limit - 1))
  = Some e ->
  podcastOperations.getByUser_with query userId page limit = Js.Throw e.
Proof.
  intros HuserId Herror. unfold podcastOperations.getByUser_with.
  apply truthy_true in HuserId. rewrite HuserId. cbn [negb].
  cbv zeta. rewrite Herror. reflexivity.
Qed.

Lemma filter_filter_implied {A} (f g : A -> bool) (l : list A) :
  (forall x, f x = true -> g x = true) ->
  List.filter f (List.filter g l) = List.filter f l.
Proof.
  intros Himplied. induction l as [|x l IH]; [reflexivity|]. simpl.
  destruct (g x) eqn:Hg; simpl.
  - rewrite IH. reflexivity.
  - destruct (f x) eqn:Hf; [|exact IH].
    apply Himplied in Hf. congruence.
Qed.

Lemma filter_filter_length_le {A} (f g : A -> bool) (l : list A) :
  (length (List.filter f (List.filter g l)) <= length (List.filter f l))%nat.
Proof.
  induction l as [|x l IH]; simpl; [lia|].
  destruct (g x); simpl; destruct (f x); simpl; lia.
Qed.

(** The session that reads every record of [userId]: its own, or the
    service role. *)
Definition reads_all_of (session : Rls.Session) (userId : string) : Prop :=
  Rls.uid session = Some userId \/ Rls.role session = "service_role".

Lemma visible_owned session userId t :
  reads_all_of session userId ->
  List.filter (Supabase.owned_by userId) (Rls.visible session t)
  = List.filter (Supabase.owned_by userId) t.
Proof.
  intros Hreads. unfold Rls.visible. apply filter_filter_implied.
  intros r Howned. unfold Rls.select_policy, Rls.own, Rls.service_role.
  apply String.eqb_eq in Howned.
  destruct Hreads as [-> | ->].
  - rewrite Howned, String.eqb_refl. reflexivity.
  - rewrite String.eqb_refl. apply orb_true_r.
Qed.

(** C6, as the code has it: for every non-empty user id, page >= 1 and
    limit >= 1, when the service carries the query out for a session,
    with whatever order of ties, [getByUser] returns the records
    [(page-1)*limit ..] of the records of that user which the session may
    read, in the order newest first, at most [limit] of them, and the
    count of those records; that count is the exact number of the user's
    records when the session is the user's own or the service role's,
    and never more than it. An error of the query is thrown on, and for
    the empty user id no query is made: no record and the count 0. *)
Theorem getByUser_page query session t userId page limit :
  userId <> "" ->
  1 <= page ->
  1 <= limit ->
  Supabase.range_answer userId
    ((page - 1) * limit) ((page - 1) * limit + limit - 1)
    (Rls.visible session t)
    (query userId ((page - 1) * limit) ((page - 1) * limit + limit - 1)) ->
  (exists ordered,
     ordered ≡ₚ List.filter (Supabase.owned_by userId) (Rls.visible session t)
     /\ StronglySorted Supabase.newest_first ordered
     /\ podcastOperations.getByUser_with query userId page limit
        = Js.Ok
            {| data := take (Z.to_nat limit)
                         (drop (Z.to_nat ((page - 1) * limit)) ordered);
               count := Z.of_nat (length ordered) |}
     /\ Forall (fun r => user_id r = userId /\ r ∈ t
                         /\ Rls.select_policy session r = true)
          (take (Z.to_nat limit)
             (drop (Z.to_nat ((page - 1) * limit)) ordered))
     /\ StronglySorted Supabase.newest_first
          (take (Z.to_nat limit)
             (drop (Z.to_nat ((page - 1) * limit)) ordered))
     /\ (Z.of_nat
           (length (take (Z.to_nat limit)
                      (drop (Z.to_nat ((page - 1) * limit)) ordered)))
         <= limit)
     /\ (length ordered
         <= length (List.filter (Supabase.owned_by userId) t))%nat
     /\ (reads_all_of session userId ->
         length ordered
         = length (List.filter (Supabase.owned_by userId) t)))
  /\ (forall failing e,
        Supabase.q_error
          (failing userId ((page - 1) * limit)
             ((page - 1) * limit + limit - 1)) = Some e ->
        podcastOperations.getByUser_with failing userId page limit
        = Js.Throw e)
  /\ (forall any,
        podcastOperations.getByUser_with any "" page limit
        = Js.Ok {| data := []; count := 0 |}).
Proof.
  intros HuserId Hpage Hlimit (ordered & Hperm & Hsorted & Hanswer).
  split; [|split].
  - exists ordered. split; [exact Hperm|]. split; [exact Hsorted|].
    split; [|split; [|split; [|split; [|split]]]].
    + rewrite (getByUser_with_rows _ _ _ _ _ _ HuserId Hanswer).
      do 3 f_equal. lia.
    + apply Forall_forall. intros r Hin.
      apply elem_of_take_drop in Hin. rewrite Hperm in Hin.
      apply list_elem_of_In, filter_In in Hin as [Hin Howned].
      apply filter_In in Hin as [Hin Hpolicy].
      split; [apply String.eqb_eq; exact Howned|].
      split; [apply list_elem_of_In; exact Hin|exact Hpolicy].
    + apply StronglySorted_take_drop, Hsorted.
    + rewrite length_take. lia.
    + rewrite (Permutation_length Hperm). unfold Rls.visible.
      apply filter_filter_length_le.
    + intros Hreads. rewrite (Permutation_length Hperm).
      rewrite (visible_owned _ _ _ Hreads). reflexivity.
  - intros failing e Herror.
    apply getByUser_with_error; assumption.
  - intros any. reflexivity.
Qed.

Definition listing_table : Table :=
  [ {| id := "00000000-0000-4000-8000-000000000001";
       created_at := Some 1700000000000000; user_id := "user_1";
       status := Some "completed"; duration := 60; url := None;
       topics := ["technology"]; host_voice := "voice-a";
       co_host_voice := "voice-b"; language := "en-US"; metadata := None;
       transcript := None; message := None |};
    {| id := "00000000-0000-4000-8000-000000000002";
       created_at := Some 1700000300000000; user_id := "user_2";
       status := Some "processing"; duration := 300; url := None;
       topics := ["science"]; host_voice := "voice-a";
       co_host_voice := "voice-b"; language := "en-US"; metadata := None;
       transcript := None; message := None |};
    {| id := "00000000-0000-4000-8000-000000000003";
       created_at := Some 1700000600000000; user_id := "user_1";
       status := Some "failed"; duration := 600; url := None;
       topics := ["history"]; host_voice := "voice-a";
       co_host_voice := "voice-b"; language := "en-US"; metadata := None;
       transcript := None; message := None |};
    {| id := "00000000-0000-4000-8000-000000000004";
       created_at := Some 1700000900000000; user_id := "user_1";
       status := Some "processing"; duration := 900; url := None;
       topics := ["music"]; host_voice := "voice-a";
       co_host_voice := "voice-b"; language := "en-US"; metadata := None;
       transcript := None; message := None |} ].

(** The session of the service role, the one of a signed-in user and
    the one of the public key alone. *)
Definition service_session : Rls.Session :=
  {| Rls.uid := None; Rls.role := "service_role" |}.

Definition user_session : Rls.Session :=
  {| Rls.uid := Some sample_id; Rls.role := "authenticated" |}.

Definition anon_session : Rls.Session :=
  {| Rls.uid := None; Rls.role := "anon" |}.

Lemma getByUser_page_witness :
  (exists ordered,
     ordered ≡ₚ List.filter (Supabase.owned_by "user_1")
                  (Rls.visible service_session listing_table)
     /\ StronglySorted Supabase.newest_first ordered
     /\ podcastOperations.getByUser_with
          (fun userId from to =>
             Supabase.select_user_range None userId from to
               (Rls.visible service_session listing_table))
          "user_1" 2 2
        = Js.Ok
            {| data := take (Z.to_nat 2)
                         (drop (Z.to_nat ((2 - 1) * 2)) ordered);
               count := Z.of_nat (length ordered) |}
     /\ Forall (fun r => user_id r = "user_1" /\ r ∈ listing_table
                         /\ Rls.select_policy service_session r = true)
          (take (Z.to_nat 2) (drop (Z.to_nat ((2 - 1) * 2)) ordered))
     /\ StronglySorted Supabase.newest_first
          (take (Z.to_nat 2) (drop (Z.to_nat ((2 - 1) * 2)) ordered))
     /\ (Z.of_nat
           (length (take (Z.to_nat 2)
                      (drop (Z.to_nat ((2 - 1) * 2)) ordered)))
         <= 2)
     /\ (length ordered
         <= length (List.filter (Supabase.owned_by "user_1")
                      listing_table))%nat
     /\ (reads_all_of service_session "user_1" ->
         length ordered
         = length (List.filter (Supabase.owned_by "user_1") listing_table)))
  /\ (forall failing e,
        Supabase.q_error
          (failing "user_1" ((2 - 1) * 2) ((2 - 1) * 2 + 2 - 1)) = Some e ->
        podcastOperations.getByUser_with failing "user_1" 2 2
        = Js.Throw e)
  /\ (forall any,
        podcastOperations.getByUser_with any "" 2 2
        = Js.Ok {| data := []; count := 0 |}).
Proof.
  apply (getByUser_page
           (fun userId from to =>
              Supabase.select_user_range None userId from to
                (Rls.visible service_session listing_table))
           service_session listing_table "user_1" 2 2).
  - discriminate.
  - lia.
  - lia.
  - exists (rev (List.filter (Supabase.owned_by "user_1")
                   (Rls.visible service_session listing_table))).
    split; [symmetry; apply Permutation_rev|].
    split; [apply (bool_decide_unpack _); vm_compute; reflexivity|].
    vm_compute. reflexivity.
Defined.

(** The second page of two holds the oldest of the three jobs of the
    user, and the count is three. *)
Example getByUser_second_page :
  podcastOperations.getByUser None "user_1" 2 2
    (Rls.visible service_session listing_table)
  = Js.Ok {| data := take 1 listing_table; count := 3 |}.
Proof. vm_compute. reflexivity. Qed.

(** A failure of the query is thrown on. *)
Lemma getByUser_fault e userId page limit t :
  userId <> "" ->
  podcastOperations.getByUser (Some e) userId page limit t = Js.Throw e.
Proof.
  intros HuserId. unfold podcastOperations.getByUser.
  apply getByUser_with_error; [exact HuserId|reflexivity].
Qed.

(** C6 as stated fails for a session that is not the user's: the SELECT
    policy hides the records of [user_1] from a session without a
    signed-in user, and from the session of another user, and
    [getByUser] answers with no record and the count 0, though [user_1]
    has three records. *)
Lemma getByUser_of_another_user :
  podcastOperations.getByUser None "user_1" 1 10
    (Rls.visible anon_session listing_table)
  = Js.Ok {| data := []; count := 0 |}
  /\ podcastOperations.getByUser None "user_1" 1 10
       (Rls.visible user_session listing_table)
     = Js.Ok {| data := []; count := 0 |}
  /\ length (List.filter (Supabase.owned_by "user_1") listing_table) = 3%nat.
Proof. repeat split; vm_compute; reflexivity. Qed.

Lemma visible_owned_none session userId t :
  Rls.uid session <> Some userId ->
  Rls.role session <> "service_role" ->
  List.filter (Supabase.owned_by userId) (Rls.visible session t) = [].
Proof.
  intros Huid Hrole.
  unfold Rls.visible. induction t as [|r t IH]; [reflexivity|]. simpl.
  destruct (Rls.select_policy session r) eqn:Hpolicy; [|exact IH].
  simpl. rewrite IH.
  destruct (Supabase.owned_by userId r) eqn:Howned; [|reflexivity].
  exfalso. apply String.eqb_eq in Howned.
  unfold Rls.select_policy, Rls.own, Rls.service_role in Hpolicy.
  apply orb_true_iff in Hpolicy as [Hown|Hservice].
  - destruct (Rls.uid session) as [u|]; [|discriminate].
    apply String.eqb_eq in Hown. congruence.
  - apply String.eqb_eq in Hservice. contradiction.
Qed.

(** Whatever order the service picks, that session is answered so. *)
Lemma getByUser_hidden query session t userId page limit :
  userId <> "" ->
  Rls.uid session <> Some userId ->
  Rls.role session <> "service_role" ->
  Supabase.range_answer userId
    ((page - 1) * limit) ((page - 1) * limit + limit - 1)
    (Rls.visible session t)
    (query userId ((page - 1) * limit) ((page - 1) * limit + limit - 1)) ->
  podcastOperations.getByUser_with query userId page limit
  = Js.Ok {| data := []; count := 0 |}.
Proof.
  intros HuserId Huid Hrole (ordered & Hperm & _ & Hanswer).
  pose proof (visible_owned_none session userId t Huid Hrole) as Hnone.
  rewrite Hnone in Hperm. apply Permutation_nil_r in Hperm. subst ordered.
  rewrite (getByUser_with_rows _ _ _ _ _ _ HuserId Hanswer).
  rewrite drop_nil, take_nil. reflexivity.
Qed.

(** For the empty user id no query is made, whatever the table holds. *)
Example getByUser_empty_user_id :
  podcastOperations.getByUser None "" 1 10
    [sample_row "" 300 (Some "processing")]
  = Js.Ok {| data := []; count := 0 |}.
Proof. reflexivity. Qed.

(** ** The assembler *)

Lemma track_seconds_lay_out gap i segments :
  (Assembler.track_seconds (Assembler.lay_out gap i segments)
   == Assembler.sum_seconds (map Assembler.duration segments)
      + Assembler.sum_seconds
          (Assembler.gaps_between gap i (length segments)))%Q.
Proof.
  revert i. induction segments as [|s rest IH]; intros i.
  - reflexivity.
  - destruct rest as [|s' rest].
    + simpl. ring.
    + specialize (IH (S i)).
      change (Assembler.lay_out gap i (s :: s' :: rest))
        with (Assembler.Speech s :: Assembler.Silence (gap i)
              :: Assembler.lay_out gap (S i) (s' :: rest)).
      change (Assembler.gaps_between gap i (length (s :: s' :: rest)))
        with (gap i :: Assembler.gaps_between gap (S i)
                          (length (s' :: rest))).
      unfold Assembler.track_seconds, Assembler.sum_seconds in *.
      cbn [foldr map Assembler.piece_seconds] in *.
      rewrite IH. ring.
Qed.

Lemma fixed_gaps_sum g i n :
  (Assembler.sum_seconds
     (Assembler.gaps_between (Assembler.fixed_gap g) i (S n))
   == inject_Z (Z.of_nat n) * g)%Q.
Proof.
  revert i. induction n as [|n IH]; intros i.
  - simpl. ring.
  - change (Assembler.gaps_between (Assembler.fixed_gap g) i (S (S n)))
      with (g :: Assembler.gaps_between (Assembler.fixed_gap g) (S i) (S n)).
    unfold Assembler.sum_seconds in *. cbn [foldr].
    rewrite IH, Nat2Z.inj_succ. unfold Z.succ. rewrite inject_Z_plus. ring.
Qed.

Lemma speeches_lay_out gap i segments :
  Assembler.speeches (Assembler.lay_out gap i segments) = segments.
Proof.
  revert i. induction segments as [|s rest IH]; intros i; [reflexivity|].
  destruct rest as [|s' rest]; [reflexivity|].
  specialize (IH (S i)).
  change (Assembler.lay_out gap i (s :: s' :: rest))
    with (Assembler.Speech s :: Assembler.Silence (gap i)
          :: Assembler.lay_out gap (S i) (s' :: rest)).
  cbn [Assembler.speeches]. rewrite IH. reflexivity.
Qed.

Lemma silences_lay_out gap i segments :
  Assembler.silences (Assembler.lay_out gap i segments)
  = Assembler.gaps_between gap i (length segments).
Proof.
  revert i. induction segments as [|s rest IH]; intros i; [reflexivity|].
  destruct rest as [|s' rest]; [reflexivity|].
  specialize (IH (S i)).
  change (Assembler.lay_out gap i (s :: s' :: rest))
    with (Assembler.Speech s :: Assembler.Silence (gap i)
          :: Assembler.lay_out gap (S i) (s' :: rest)).
  change (Assembler.gaps_between gap i (length (s :: s' :: rest)))
    with (gap i :: Assembler.gaps_between gap (S i) (length (s' :: rest))).
  cbn [Assembler.silences]. rewrite IH. reflexivity.
Qed.

Definition silent_segment (who : Assembler.Speaker) (seconds : Q)
  : Assembler.AudioSegment :=
  {| Assembler.speaker := who;
     Assembler.raw_audio_bytes := [];
     Assembler.duration := seconds |}.

(** Scenario E: five segments of 2, 3, 1, 4 and 2 seconds. *)
Definition scenario_E : list Assembler.AudioSegment :=
  [ silent_segment Assembler.host 2;
    silent_segment Assembler.co_host 3;
    silent_segment Assembler.host 1;
    silent_segment Assembler.co_host 4;
    silent_segment Assembler.host 2 ].

(** C8: for every list of segments and every gap policy, the artifact
    holds the segments in their order with the gaps of the policy between
    them, and the duration the assembler reports is the sum of the segment
    durations plus the sum of those gaps (an empty list is the only input
    it refuses); with a fixed gap that is the sum of the durations
    plus one gap for each segment after the first; and the five segments
    of Scenario E with gaps of half a second give 14 seconds. The
    assembler is a function of the segments and the policy, so the same
    inputs give the same duration. *)
Theorem assemble_duration :
  (forall gap segments,
     match Assembler.assemble gap segments with
     | inr (artifact, seconds) =>
         Assembler.speeches artifact = segments
         /\ Assembler.silences artifact
            = Assembler.gaps_between gap 0 (length segments)
         /\ (seconds
             == Assembler.sum_seconds (map Assembler.duration segments)
                + Assembler.sum_seconds (Assembler.silences artifact))%Q
     | inl _ => segments = []
     end)
  /\ (forall g s segments,
        exists artifact seconds,
          Assembler.assemble (Assembler.fixed_gap g) (s :: segments)
          = inr (artifact, seconds)
          /\ (seconds
              == Assembler.sum_seconds
                   (map Assembler.duration (s :: segments))
                 + inject_Z (Z.of_nat (length segments)) * g)%Q)
  /\ (exists artifact seconds,
        Assembler.assemble (Assembler.fixed_gap (1 # 2)) scenario_E
        = inr (artifact, seconds)
        /\ (seconds == 14)%Q).
Proof.
  split; [|split].
  - intros gap [|s rest]; [reflexivity|].
    unfold Assembler.assemble.
    split; [apply speeches_lay_out|]. split; [apply silences_lay_out|].
    rewrite silences_lay_out. apply track_seconds_lay_out.
  - intros g s segments. eexists _, _. split; [reflexivity|].
    rewrite track_seconds_lay_out.
    change (length (s :: segments)) with (S (length segments)).
    rewrite fixed_gaps_sum. reflexivity.
  - eexists _, _. split; [reflexivity|]. vm_compute. reflexivity.
Qed.

(** * The rest of the store and of the client *)

(** ** INSERT *)

Definition insert_row (uuid : string) (now : Z) (v : Sql.InsertValues)
    (r : PodcastRecord) : Prop :=
  Sql.or_default (Sql.ins_id v) uuid = Some (id r)
  /\ created_at r = Sql.or_default (Sql.ins_created_at v) now
  /\ Sql.ins_user_id v = Some (user_id r)
  /\ status r = Sql.or_default (Sql.ins_status v) "processing"
  /\ Sql.ins_duration v = Some (duration r)
  /\ url r = Sql.ins_url v
  /\ Sql.or_default (Sql.ins_topics v) [] = Some (topics r)
  /\ Sql.ins_host_voice v = Some (host_voice r)
  /\ Sql.ins_co_host_voice v = Some (co_host_voice r)
  /\ Sql.ins_language v = Some (language r)
  /\ metadata r = Sql.ins_metadata v
  /\ transcript r = Sql.ins_transcript v
  /\ message r = Sql.ins_message v.

Lemma existsb_has_id_false i (t : Table) :
  existsb (fun r' => String.eqb (id r') i) t = false <-> i ∉ map id t.
Proof.
  rewrite list_elem_of_In, in_map_iff. split.
  - intros Hnone (r & <- & Hin).
    assert (Hex : existsb (fun r' => String.eqb (id r') (id r)) t = true)
      by (apply existsb_exists; exists r; split;
          [exact Hin|apply String.eqb_refl]).
    congruence.
  - intros Hfresh.
    destruct (existsb _ t) eqn:Hex; [|reflexivity].
    apply existsb_exists in Hex as (r & Hin & Heq).
    apply String.eqb_eq in Heq. exfalso. apply Hfresh. eauto.
Qed.

(** The values of an INSERT that their column types read. *)
Definition well_formed (v : Sql.InsertValues) (uuid : string) : Prop :=
  (forall i, Sql.or_default (Sql.ins_id v) uuid = Some i ->
             Sql.is_uuid i = true)
  /\ (forall d, Sql.ins_duration v = Some d -> Sql.is_integer d = true).

Lemma malformed_cases v uuid :
  match Sql.malformed v uuid with
  | None => well_formed v uuid
  | Some e => (e = Sql.invalid_uuid \/ e = Sql.out_of_range)
              /\ ~ well_formed v uuid
  end.
Proof.
  unfold Sql.malformed, well_formed.
  destruct (Sql.or_default (Sql.ins_id v) uuid) as [i|];
    [destruct (Sql.is_uuid i) eqn:Huuid; cbn [negb]|];
    (destruct (Sql.ins_duration v) as [d|];
       [destruct (Sql.is_integer d) eqn:Hint; cbn [negb]|]);
    try (split; [auto|]; intros [Hi Hd]);
    try (split; intros x [= <-]; assumption);
    try (split; intros x [=]; assumption);
    try (specialize (Hi i eq_refl); congruence);
    try (specialize (Hd d eq_refl); congruence).
Qed.

(** What a successful INSERT has done. *)
Lemma insert_ok uuid now v t t' :
  Sql.insert uuid now v t = Js.Ok t' ->
  exists r,
    t' = (t ++ [r])%list
    /\ insert_row uuid now v r
    /\ (id r ∉ map id t)
    /\ Sql.is_integer (duration r) = true
    /\ Sql.status_check r = true.
Proof.
  unfold Sql.insert.
  pose proof (malformed_cases v uuid) as Hwell.
  destruct (Sql.malformed v uuid) as [e|]; [discriminate|].
  destruct Hwell as [_ Hint].
  destruct (Sql.or_default (Sql.ins_id v) uuid) as [i|] eqn:Hid;
    [|discriminate].
  destruct (Sql.ins_user_id v) as [u|] eqn:Huser; [|discriminate].
  destruct (Sql.ins_duration v) as [d|] eqn:Hduration; [|discriminate].
  destruct (Sql.or_default (Sql.ins_topics v) []) as [tp|] eqn:Htopics;
    [|discriminate].
  destruct (Sql.ins_host_voice v) as [h|] eqn:Hhost; [|discriminate].
  destruct (Sql.ins_co_host_voice v) as [c|] eqn:Hco; [|discriminate].
  destruct (Sql.ins_language v) as [l|] eqn:Hlang; [|discriminate].
  specialize (Hint d eq_refl).
  match goal with
  | |- context [Sql.status_check ?row] =>
      destruct (Sql.status_check row) eqn:Hcheck; [|discriminate];
      cbn [negb];
      destruct (existsb _ t) eqn:Hfresh; [discriminate|];
      intros [= <-]; exists row
  end.
  split; [reflexivity|]. split.
  - unfold insert_row; simpl. repeat split; (reflexivity || assumption).
  - split; [apply existsb_has_id_false; exact Hfresh|]. split; assumption.
Qed.


(** X1: an INSERT that is accepted appends one row and changes no other;
    the row has the values given, with [gen_random_uuid()], [NOW()],
    ['processing'] and ['{}'] for an [id], [created_at], [status] and
    [topics] that are left out; and the ids of the table stay pairwise
    different. *)
Theorem insert_appends_fresh_row uuid now v t t' :
  NoDup (map id t) ->
  Sql.insert uuid now v t = Js.Ok t' ->
  exists r,
    t' = (t ++ [r])%list
    /\ insert_row uuid now v r
    /\ NoDup (map id t').
Proof.
  intros Hunique Hinsert.
  destruct (insert_ok _ _ _ _ _ Hinsert) as (r & -> & Hrow & Hfresh & _).
  exists r. split; [reflexivity|]. split; [exact Hrow|].
  rewrite map_app. simpl. apply NoDup_app. split; [exact Hunique|].
  split.
  - intros i Hin Hin'. apply list_elem_of_singleton in Hin'. subst i.
    contradiction.
  - apply NoDup_singleton.
Qed.

Lemma insert_appends_fresh_row_witness :
  exists r,
    [sample_row "user_1" 300 (Some "processing")]
    = ([] ++ [r])%list
    /\ insert_row sample_id 1700000000000000
         (sample_values "user_1" 300 Sql.Omitted) r
    /\ NoDup (map id [sample_row "user_1" 300 (Some "processing")]).
Proof.
  apply (insert_appends_fresh_row sample_id 1700000000000000
           (sample_values "user_1" 300 Sql.Omitted) []
           [sample_row "user_1" 300 (Some "processing")]).
  - constructor.
  - reflexivity.
Defined.


(** A NULL [user_id] together with a [duration] outside INTEGER is
    answered for the duration. *)
Example insert_null_user_long_duration :
  Sql.insert sample_id 1700000000000000
    {| Sql.ins_id := Sql.Omitted; Sql.ins_created_at := Sql.Omitted;
       Sql.ins_user_id := None; Sql.ins_status := Sql.Omitted;
       Sql.ins_duration := Some 2147483648; Sql.ins_url := None;
       Sql.ins_topics := Sql.Omitted; Sql.ins_host_voice := Some "voice-a";
       Sql.ins_co_host_voice := Some "voice-b";
       Sql.ins_language := Some "en-US"; Sql.ins_metadata := None;
       Sql.ins_transcript := None; Sql.ins_message := None |} []
  = Js.Throw Sql.out_of_range.
Proof. reflexivity. Qed.

(** ** The CHECK on [status] across writes *)

Definition null_or_known_status (r : PodcastRecord) : Prop :=
  status r = None \/ known_status r.

(** X3: the CHECK keeps every stored status NULL or one of the three
    texts: if it is so in a table, it is so after every INSERT and after
    every UPDATE of [status] that are accepted, whatever text they give. *)
Theorem status_check_kept t :
  Forall null_or_known_status t ->
  (forall uuid now v t',
     Sql.insert uuid now v t = Js.Ok t' -> Forall null_or_known_status t')
  /\ (forall pid st msg t' written,
        Sql.update_status pid st msg t = Js.Ok (t', written) ->
        Forall null_or_known_status t').
Proof.
  intros Hkept. split.
  - intros uuid now v t' Hinsert.
    destruct (insert_ok _ _ _ _ _ Hinsert) as (r & -> & _ & _ & _ & Hcheck).
    apply Forall_app. split; [exact Hkept|].
    apply Forall_cons. split; [|constructor].
    apply status_check_spec. exact Hcheck.
  - intros pid st msg t' written. unfold Sql.update_status.
    destruct (forallb _ _) eqn:Hcheck; [|discriminate]. intros [= <- _].
    apply Forall_forall. intros r' Hin.
    apply list_elem_of_In, in_map_iff in Hin as (r & <- & Hin).
    destruct (Sql.has_id pid r) eqn:Hid.
    + apply status_check_spec.
      rewrite forallb_forall in Hcheck. apply Hcheck.
      apply filter_In. split.
      * apply in_map_iff. exists r. rewrite Hid. auto.
      * exact Hid.
    + rewrite Forall_forall in Hkept. apply Hkept, list_elem_of_In, Hin.
Qed.

Lemma status_check_kept_witness :
  (forall uuid now v t',
     Sql.insert uuid now v failed_table = Js.Ok t' ->
     Forall null_or_known_status t')
  /\ (forall pid st msg t' written,
        Sql.update_status pid st msg failed_table = Js.Ok (t', written) ->
        Forall null_or_known_status t').
Proof.
  apply (status_check_kept failed_table).
  apply Forall_cons. split; [|constructor].
  right. exists failed. reflexivity.
Defined.

(** A text that is none of the three is refused, and nothing is written. *)
Example update_status_unknown_text :
  Sql.update_status sample_id "done" None failed_table
  = Js.Throw Sql.check_violation.
Proof. reflexivity. Qed.

(** ** Reading back what was written *)

Lemma select_by_id_fresh pid (t : Table) :
  pid ∉ map id t -> Sql.select_by_id pid t = [].
Proof.
  intros Hfresh. unfold Sql.select_by_id.
  induction t as [|r t IH]; [reflexivity|]. simpl.
  rewrite map_cons, not_elem_of_cons in Hfresh. destruct Hfresh as [Hne Hfresh].
  unfold Sql.has_id at 1.
  destruct (String.eqb_spec (id r) pid) as [Heq|_]; [congruence|].
  apply IH, Hfresh.
Qed.



(** [getById] asks for exactly one row: no id, an id no row has (and an
    id two rows have) are errors. *)
Lemma getById_empty_id fault t :
  podcastOperations.getById fault "" t
  = Js.Throw (Js.Error "Podcast ID is required").
Proof. reflexivity. Qed.

(** What [updateStatus] resolves to, and the table it leaves, when its
    request is carried out. *)
Lemma updateStatus_cases pid st msg t :
  Sql.is_uuid pid = true ->
  let t' := map (rewrite_row pid (status_text st) msg) t in
  match List.filter (Sql.has_id pid) t' with
  | [r] => podcastOperations.updateStatus None pid st msg t
           = (t', Js.Ok (Some r))
  | _ => podcastOperations.updateStatus None pid st msg t
         = (t, Js.Throw Supabase.not_single)
  end.
Proof.
  intros Huuid t'.
  unfold podcastOperations.updateStatus, Supabase.update_single.
  rewrite Huuid. cbn [negb].
  unfold Sql.update_status. fold (rewrite_row pid (status_text st) msg).
  fold t'.
  assert (Hcheck : forallb Sql.status_check (List.filter (Sql.has_id pid) t')
                   = true).
  { apply forallb_forall. intros r Hin.
    apply filter_In in Hin as [Hin Hid]. subst t'.
    apply in_map_iff in Hin as (r0 & <- & _).
    unfold rewrite_row in *. destruct (Sql.has_id pid r0) eqn:Hr0.
    - apply status_check_spec. right. exists st. reflexivity.
    - congruence. }
  rewrite Hcheck.
  destruct (List.filter (Sql.has_id pid) t') as [|r [|r' rest]]; reflexivity.
Qed.

(** A [podcastId] that is not the text of a UUID is refused, and nothing
    is written. *)
Lemma updateStatus_invalid_uuid pid st msg t :
  Sql.is_uuid pid = false ->
  podcastOperations.updateStatus None pid st msg t
  = (t, Js.Throw Sql.invalid_uuid).
Proof.
  intros Huuid.
  unfold podcastOperations.updateStatus, Supabase.update_single.
  rewrite Huuid. reflexivity.
Qed.

Lemma has_id_rewrite_row pid st msg r :
  Sql.has_id pid (rewrite_row pid st msg r) = Sql.has_id pid r.
Proof.
  unfold rewrite_row. destruct (Sql.has_id pid r) eqn:Hid; [|exact Hid].
  exact Hid.
Qed.

Lemma filter_has_id_rewrite pid st msg (t : Table) :
  List.filter (Sql.has_id pid) (map (rewrite_row pid st msg) t)
  = map (Sql.set_status st msg) (List.filter (Sql.has_id pid) t).
Proof.
  induction t as [|r t IH]; [reflexivity|]. simpl.
  rewrite has_id_rewrite_row.
  destruct (Sql.has_id pid r) eqn:Hid; [|exact IH].
  simpl. rewrite IH. unfold rewrite_row. rewrite Hid. reflexivity.
Qed.

(** X5: the record [updateStatus] returns is a stored record of that id
    with the status replaced, and with the message replaced only when a
    message was given; it is the record [getById] returns afterwards. *)
Theorem updateStatus_then_getById fault pid st msg t t' r :
  podcastOperations.updateStatus fault pid st msg t = (t', Js.Ok (Some r)) ->
  pid <> "" ->
  (exists r0,
     r0 ∈ t /\ id r0 = pid
     /\ r = Sql.set_status (status_text st) msg r0
     /\ message r = match msg with
                    | Some m => Some m
                    | None => message r0
                    end)
  /\ podcastOperations.getById None pid t' = Js.Ok (Some r).
Proof.
  intros Hupdate Hpid.
  destruct fault as [e|]; [discriminate|].
  destruct (Sql.is_uuid pid) eqn:Huuid;
    [|rewrite (updateStatus_invalid_uuid _ _ _ _ Huuid) in Hupdate;
      discriminate].
  pose proof (updateStatus_cases pid st msg t Huuid) as Hcases.
  simpl in Hcases.
  destruct (List.filter (Sql.has_id pid)
              (map (rewrite_row pid (status_text st) msg) t))
    as [|r1 [|r2 rest]] eqn:Hwritten;
    rewrite Hcases in Hupdate; try discriminate.
  injection Hupdate as <- <-. split.
  - rewrite filter_has_id_rewrite in Hwritten.
    destruct (List.filter (Sql.has_id pid) t) as [|r0 [|r0' rest0]] eqn:Hold;
      try discriminate.
    injection Hwritten as <-. exists r0.
    assert (Hin : In r0 (List.filter (Sql.has_id pid) t))
      by (rewrite Hold; left; reflexivity).
    apply filter_In in Hin as [Hin Hid].
    split; [apply list_elem_of_In; exact Hin|].
    split; [apply String.eqb_eq; exact Hid|].
    split; reflexivity.
  - unfold podcastOperations.getById, Supabase.select_single.
    apply truthy_true in Hpid. rewrite Hpid, Huuid. simpl.
    unfold Sql.select_by_id. rewrite Hwritten. reflexivity.
Qed.

Lemma updateStatus_then_getById_witness :
  (exists r0,
     r0 ∈ failed_table /\ id r0 = sample_id
     /\ sample_row "user_1" 300 (Some "completed")
        = Sql.set_status (status_text completed) None r0
     /\ message (sample_row "user_1" 300 (Some "completed"))
        = message r0)
  /\ podcastOperations.getById None sample_id
       [sample_row "user_1" 300 (Some "completed")]
     = Js.Ok (Some (sample_row "user_1" 300 (Some "completed"))).
Proof.
  apply (updateStatus_then_getById None sample_id completed None failed_table
           [sample_row "user_1" 300 (Some "completed")]
           (sample_row "user_1" 300 (Some "completed"))).
  - reflexivity.
  - discriminate.
Defined.

(** The digits of the text of a UUID, in lower case: two texts that the
    type UUID reads are the same UUID exactly when they have the same
    digits. *)
Definition uuid_digits (text : string) : list ascii :=
  map Js.toLowerChar (List.filter Sql.isxdigit (list_ascii_of_string text)).

(** X6: for an id that no record has, in whatever spelling,
    [updateStatus] throws the not-a-single-row error PGRST116; for a text
    that is no UUID it throws 22P02; in both cases the table is left as it
    was. *)
Theorem updateStatus_unknown_id pid st msg t :
  uuid_digits pid ∉ map (fun r => uuid_digits (id r)) t ->
  podcastOperations.updateStatus None pid st msg t
  = (t, Js.Throw (if Sql.is_uuid pid then Supabase.not_single
                  else Sql.invalid_uuid)).
Proof.
  intros Hfresh.
  destruct (Sql.is_uuid pid) eqn:Huuid;
    [|apply updateStatus_invalid_uuid, Huuid].
  assert (Hfresh' : pid ∉ map id t).
  { intros Hin. apply Hfresh.
    apply list_elem_of_In, in_map_iff in Hin as (r & <- & Hin).
    apply list_elem_of_In, in_map_iff. exists r. auto. }
  pose proof (updateStatus_cases pid st msg t Huuid) as Hcases.
  simpl in Hcases.
  rewrite filter_has_id_rewrite in Hcases.
  fold (Sql.select_by_id pid t) in Hcases.
  rewrite (select_by_id_fresh _ _ Hfresh') in Hcases. exact Hcases.
Qed.

Lemma updateStatus_unknown_id_witness :
  podcastOperations.updateStatus None "00000000-0000-4000-8000-000000000009"
    failed (Some "gone") failed_table
  = (failed_table,
     Js.Throw (if Sql.is_uuid "00000000-0000-4000-8000-000000000009"
               then Supabase.not_single else Sql.invalid_uuid)).
Proof.
  apply (updateStatus_unknown_id "00000000-0000-4000-8000-000000000009"
           failed (Some "gone") failed_table).
  intros Hin. apply list_elem_of_singleton in Hin. vm_compute in Hin.
  discriminate.
Defined.

(** The id of a route without its parameter. *)
Example updateStatus_undefined :
  podcastOperations.updateStatus None "undefined" failed None failed_table
  = (failed_table, Js.Throw Sql.invalid_uuid).
Proof. reflexivity. Qed.



Lemma rewrite_row_twice pid st msg r :
  rewrite_row pid st msg (rewrite_row pid st msg r) = rewrite_row pid st msg r.
Proof.
  unfold rewrite_row at 1. rewrite has_id_rewrite_row.
  unfold rewrite_row. destruct (Sql.has_id pid r); [|reflexivity].
  unfold Sql.set_status; simpl. destruct msg; reflexivity.
Qed.

(** X8: [updateStatus] is idempotent: a second call with the same
    arguments leaves the table of the first and resolves to the same. *)
Theorem updateStatus_twice fault pid st msg t :
  podcastOperations.updateStatus fault pid st msg
    (podcastOperations.updateStatus fault pid st msg t).1
  = podcastOperations.updateStatus fault pid st msg t.
Proof.
  destruct fault as [e|]; [reflexivity|].
  destruct (Sql.is_uuid pid) eqn:Huuid;
    [|rewrite !(updateStatus_invalid_uuid _ _ _ _ Huuid); reflexivity].
  pose proof (updateStatus_cases pid st msg t Huuid) as Hfirst.
  simpl in Hfirst.
  destruct (List.filter (Sql.has_id pid)
              (map (rewrite_row pid (status_text st) msg) t))
    as [|r [|r' rest]] eqn:Hwritten; rewrite Hfirst; simpl;
    try exact Hfirst.
  pose proof (updateStatus_cases pid st msg
                (map (rewrite_row pid (status_text st) msg) t) Huuid)
    as Hsecond.
  simpl in Hsecond.
  rewrite map_map in Hsecond.
  rewrite (map_ext _ _ (rewrite_row_twice pid (status_text st) msg))
    in Hsecond.
  rewrite Hwritten in Hsecond. exact Hsecond.
Qed.

(** ** Pages of a user's records *)

(** The user's records in the order of the query. *)
Definition ordered_of (userId : string) (t : Table) : list PodcastRecord :=
  merge_sort Supabase.newest_first (List.filter (Supabase.owned_by userId) t).

(** The records of one page; none when the call throws. *)
Definition page_rows (t : Table) (userId : string) (limit page : Z)
  : list PodcastRecord :=
  match podcastOperations.getByUser None userId page limit t with
  | Js.Ok listing => data listing
  | Js.Throw _ => []
  end.

(** The condition of the list page for offering more records:
    [currentPage * podcastsPerPage < totalPodcasts]. *)
Definition hasMore (currentPage podcastsPerPage totalPodcasts : Z) : bool :=
  (currentPage * podcastsPerPage <? totalPodcasts)%Z.

Lemma getByUser_ok t userId page limit :
  userId <> "" ->
  1 <= page ->
  1 <= limit ->
  podcastOperations.getByUser None userId page limit t
  = Js.Ok {| data := take (Z.to_nat limit)
                       (drop (Z.to_nat ((page - 1) * limit))
                          (ordered_of userId t));
             count := Z.of_nat (length (ordered_of userId t)) |}.
Proof.
  intros HuserId Hpage Hlimit.
  unfold podcastOperations.getByUser, podcastOperations.getByUser_with.
  apply truthy_true in HuserId. rewrite HuserId; simpl.
  unfold Supabase.select_user_range.
  assert (Hfrom : ((page - 1) * limit <? 0)%Z = false)
    by (apply Z.ltb_ge; nia).
  assert (Hto : ((page - 1) * limit + limit - 1 <? (page - 1) * limit)%Z
                = false) by (apply Z.ltb_ge; lia).
  rewrite Hfrom, Hto; simpl.
  replace ((page - 1) * limit + limit - 1 - (page - 1) * limit + 1)
    with limit by lia.
  unfold ordered_of.
  rewrite (Permutation_length
             (merge_sort_Permutation Supabase.newest_first
                (List.filter (Supabase.owned_by userId) t))).
  reflexivity.
Qed.

Lemma page_rows_eq t userId limit page :
  userId <> "" ->
  1 <= page ->
  1 <= limit ->
  page_rows t userId limit page
  = take (Z.to_nat limit)
      (drop (Z.to_nat ((page - 1) * limit)) (ordered_of userId t)).
Proof.
  intros HuserId Hpage Hlimit. unfold page_rows.
  rewrite getByUser_ok by assumption. reflexivity.
Qed.

Lemma pages_tile {A} (l : nat) (o : list A) (n : nat) :
  flat_map (fun i => take l (drop (i * l) o)) (seq 0 n) = take (n * l) o.
Proof.
  induction n as [|n IH]; [reflexivity|].
  rewrite seq_S, flat_map_app, IH. simpl. rewrite app_nil_r.
  rewrite take_take_drop. f_equal. lia.
Qed.

(** *** Pages over any service

    The order of the user's records is fixed by [created_at] when no two
    of them have the same one, and at most one has none. *)

Definition distinct_instants (userId : string) (t : Table) : Prop :=
  NoDup (map created_at (List.filter (Supabase.owned_by userId) t)).

(** The records a call resolves to; none when it throws. *)
Definition rows_of (r : Js.Result Listing) : list PodcastRecord :=
  match r with
  | Js.Ok listing => data listing
  | Js.Throw _ => []
  end.

Lemma instant_ge_antisym a b :
  Supabase.instant_ge a b = true -> Supabase.instant_ge b a = true -> a = b.
Proof.
  destruct a as [x|], b as [y|]; simpl; try discriminate; try reflexivity.
  rewrite !Z.leb_le. intros Hyx Hxy. f_equal. lia.
Qed.

Lemma NoDup_map_inj {A B} (f : A -> B) (l : list A) x y :
  NoDup (map f l) -> x ∈ l -> y ∈ l -> f x = f y -> x = y.
Proof.
  induction l as [|z l IH]; simpl; intros Hnodup Hx Hy Heq.
  - apply elem_of_nil in Hx. contradiction.
  - apply NoDup_cons in Hnodup as [Hfresh Hnodup].
    apply elem_of_cons in Hx as [->|Hx], Hy as [->|Hy]; auto.
    + exfalso. apply Hfresh. rewrite Heq.
      apply list_elem_of_In, in_map, list_elem_of_In, Hy.
    + exfalso. apply Hfresh. rewrite <- Heq.
      apply list_elem_of_In, in_map, list_elem_of_In, Hx.
Qed.

(** With distinct instants there is one order that ORDER BY allows. *)
Lemma ordered_unique userId t ordered :
  distinct_instants userId t ->
  ordered ≡ₚ List.filter (Supabase.owned_by userId) t ->
  StronglySorted Supabase.newest_first ordered ->
  ordered = ordered_of userId t.
Proof.
  intros Hdistinct Hperm Hsorted. unfold ordered_of.
  apply (StronglySorted_unique_strong Supabase.newest_first).
  - intros x1 x2 Hx1 Hx2 Hge Hle.
    rewrite Hperm in Hx1. rewrite merge_sort_Permutation in Hx2.
    apply (NoDup_map_inj created_at _ _ _ Hdistinct Hx1 Hx2).
    apply instant_ge_antisym; assumption.
  - exact Hsorted.
  - apply StronglySorted_merge_sort; apply _.
  - rewrite merge_sort_Permutation. exact Hperm.
Qed.

(** With distinct instants every service gives the same records for a
    page, whether it answers a range beyond the last record with no
    record or with PGRST103. *)
Lemma serves_rows query userId t page limit :
  userId <> "" ->
  1 <= page ->
  1 <= limit ->
  distinct_instants userId t ->
  Supabase.serves userId
    ((page - 1) * limit) ((page - 1) * limit + limit - 1) t
    (query userId ((page - 1) * limit) ((page - 1) * limit + limit - 1)) ->
  rows_of (podcastOperations.getByUser_with query userId page limit)
  = take (Z.to_nat limit)
      (drop (Z.to_nat ((page - 1) * limit)) (ordered_of userId t)).
Proof.
  intros HuserId Hpage Hlimit Hdistinct
    [(ordered & Hperm & Hsorted & Hanswer)|[Hbeyond Hanswer]].
  - rewrite (getByUser_with_rows _ _ _ _ _ _ HuserId Hanswer). simpl.
    rewrite (ordered_unique _ _ _ Hdistinct Hperm Hsorted).
    do 2 f_equal. lia.
  - rewrite (getByUser_with_error _ _ _ _ Supabase.range_not_satisfiable
               HuserId) by (rewrite Hanswer; reflexivity).
    simpl. rewrite drop_ge; [rewrite take_nil; reflexivity|].
    unfold ordered_of.
    rewrite (Permutation_length (merge_sort_Permutation _ _)). lia.
Qed.

(** X9: when no two records of the user have the same [created_at],
    reading the pages 1 to n of some size gives the same records, in the
    same order, as reading one first page n times as large; this holds
    for every service, whatever it does about ties and about a range
    beyond the last record, and for the records the session may read. *)
Theorem getByUser_pages_tile query session t userId limit n :
  userId <> "" ->
  1 <= limit ->
  (1 <= n)%nat ->
  distinct_instants userId (Rls.visible session t) ->
  (forall from to,
     0 <= from <= to ->
     Supabase.serves userId from to (Rls.visible session t)
       (query userId from to)) ->
  flat_map
    (fun page =>
       rows_of (podcastOperations.getByUser_with query userId
                  (Z.of_nat page) limit))
    (seq 1 n)
  = rows_of (podcastOperations.getByUser_with query userId 1
               (Z.of_nat n * limit)).
Proof.
  intros HuserId Hlimit Hn Hdistinct Hserves.
  rewrite (serves_rows query userId (Rls.visible session t) 1
             (Z.of_nat n * limit))
    by (try assumption; try nia; apply Hserves; nia).
  replace (Z.to_nat ((1 - 1) * (Z.of_nat n * limit))) with 0%nat by lia.
  rewrite drop_0.
  replace (Z.to_nat (Z.of_nat n * limit)) with (n * Z.to_nat limit)%nat by nia.
  rewrite <- pages_tile.
  rewrite <- seq_shift, flat_map_concat_map, map_map, <- flat_map_concat_map.
  apply flat_map_ext. intros i.
  rewrite (serves_rows query userId (Rls.visible session t))
    by (try assumption; try lia; apply Hserves; nia).
  do 2 f_equal. nia.
Qed.

Lemma getByUser_pages_tile_witness :
  flat_map
    (fun page =>
       rows_of (podcastOperations.getByUser_with
                  (fun userId from to =>
                     Supabase.select_user_range None userId from to
                       (Rls.visible service_session listing_table))
                  "user_1" (Z.of_nat page) 2))
    (seq 1 2)
  = rows_of (podcastOperations.getByUser_with
               (fun userId from to =>
                  Supabase.select_user_range None userId from to
                    (Rls.visible service_session listing_table))
               "user_1" 1 (Z.of_nat 2 * 2)).
Proof.
  apply (getByUser_pages_tile
           (fun userId from to =>
              Supabase.select_user_range None userId from to
                (Rls.visible service_session listing_table))
           service_session listing_table "user_1" 2 2).
  - discriminate.
  - lia.
  - lia.
  - apply (bool_decide_unpack _). vm_compute. reflexivity.
  - intros from to Hrange. left. apply select_user_range_answer; lia.
Defined.

(** X10: the list page offers more records exactly when the next page has
    one: with the count [getByUser] reports, [currentPage *
    podcastsPerPage < totalPodcasts] holds if and only if the page after
    the current one is not empty. *)
Theorem hasMore_iff_next_page t userId limit page listing :
  userId <> "" ->
  1 <= page ->
  1 <= limit ->
  podcastOperations.getByUser None userId page limit t = Js.Ok listing ->
  hasMore page limit (count listing) = true
  <-> page_rows t userId limit (page + 1) <> [].
Proof.
  intros HuserId Hpage Hlimit Hlisting.
  rewrite getByUser_ok in Hlisting by assumption. injection Hlisting as <-.
  simpl. rewrite page_rows_eq by (assumption || lia).
  replace (page + 1 - 1) with page by lia.
  unfold hasMore. rewrite Z.ltb_lt. split.
  - intros Hless Hnil. apply take_nil_inv in Hnil as [Hzero|Hnil]; [lia|].
    apply drop_nil_inv in Hnil. nia.
  - intros Hrows.
    destruct (Z.lt_ge_cases (page * limit)
                (Z.of_nat (length (ordered_of userId t)))) as [Hlt|Hge];
      [exact Hlt|].
    exfalso. apply Hrows. rewrite drop_ge by nia. apply take_nil.
Qed.

Lemma hasMore_iff_next_page_witness :
  hasMore 1 2 (count {| data := take 2 (ordered_of "user_1" listing_table); count := 3 |})
  = true
  <-> page_rows listing_table "user_1" 2 (1 + 1) <> [].
Proof.
  apply (hasMore_iff_next_page listing_table "user_1" 2 1
           {| data := take 2 (ordered_of "user_1" listing_table); count := 3 |}).
  - discriminate.
  - lia.
  - lia.
  - vm_compute. reflexivity.
Defined.

(** Without that condition the pages need not fit together: two records
    of the same instant may come in one order for the first page and in
    the other for the second, and then both pages hold the same record
    and no page holds the other. *)
Definition tied_table : Table :=
  [ {| id := "00000000-0000-4000-8000-00000000000a";
       created_at := Some 1700000000000000; user_id := "user_1";
       status := Some "completed"; duration := 60; url := None;
       topics := ["technology"]; host_voice := "voice-a";
       co_host_voice := "voice-b"; language := "en-US"; metadata := None;
       transcript := None; message := None |};
    {| id := "00000000-0000-4000-8000-00000000000b";
       created_at := Some 1700000000000000; user_id := "user_1";
       status := Some "completed"; duration := 300; url := None;
       topics := ["science"]; host_voice := "voice-a";
       co_host_voice := "voice-b"; language := "en-US"; metadata := None;
       transcript := None; message := None |} ].

Definition fickle (userId : string) (from to : Z)
  : Supabase.QueryResponse (list PodcastRecord) :=
  {| Supabase.q_data :=
       Some (take (Z.to_nat (to - from + 1))
               (drop (Z.to_nat from)
                  (if (from =? 0)%Z then tied_table else rev tied_table)));
     Supabase.q_error := None;
     Supabase.q_count := Some 2 |}.

Example getByUser_tied_pages :
  (forall from to,
     Supabase.range_answer "user_1" from to tied_table
       (fickle "user_1" from to))
  /\ rows_of (podcastOperations.getByUser_with fickle "user_1" 1 1)
     = take 1 tied_table
  /\ rows_of (podcastOperations.getByUser_with fickle "user_1" 2 1)
     = take 1 tied_table.
Proof.
  split; [|split; vm_compute; reflexivity].
  intros from to. unfold fickle.
  exists (if (from =? 0)%Z then tied_table else rev tied_table).
  split; [|split; [|destruct (from =? 0)%Z; reflexivity]].
  - destruct (from =? 0)%Z; [reflexivity|].
    symmetry. apply (Permutation_rev tied_table).
  - destruct (from =? 0)%Z; apply (bool_decide_unpack _); vm_compute;
      reflexivity.
Qed.

(** X11: when no two records of the user have the same [created_at],
    every record of the user that the session may read is on one of the
    pages, whatever the page size and whatever the service does about
    ties and about a range beyond the last record. *)
Theorem getByUser_reaches_every_record query session t userId limit r :
  userId <> "" ->
  1 <= limit ->
  distinct_instants userId (Rls.visible session t) ->
  (forall from to,
     0 <= from <= to ->
     Supabase.serves userId from to (Rls.visible session t)
       (query userId from to)) ->
  r ∈ t ->
  user_id r = userId ->
  Rls.select_policy session r = true ->
  exists page,
    1 <= page
    /\ r ∈ rows_of (podcastOperations.getByUser_with query userId page limit).
Proof.
  intros HuserId Hlimit Hdistinct Hserves Hin Howner Hpolicy.
  assert (Hordered : r ∈ ordered_of userId (Rls.visible session t)).
  { unfold ordered_of. rewrite merge_sort_Permutation.
    apply list_elem_of_In, filter_In. split.
    - apply filter_In. split; [apply list_elem_of_In; exact Hin|exact Hpolicy].
    - apply String.eqb_eq. exact Howner. }
  apply list_elem_of_lookup_1 in Hordered as [i Hi].
  set (l := Z.to_nat limit).
  exists (Z.of_nat (i / l) + 1). split; [lia|].
  rewrite (serves_rows query userId (Rls.visible session t))
    by (try assumption; try lia; apply Hserves; nia).
  apply elem_of_take. exists (i mod l)%nat. split.
  - rewrite lookup_drop.
    replace (Z.to_nat ((Z.of_nat (i / l) + 1 - 1) * limit) + i mod l)%nat
      with i; [exact Hi|].
    replace (Z.to_nat ((Z.of_nat (i / l) + 1 - 1) * limit))
      with (l * (i / l))%nat by (subst l; nia).
    apply Nat.div_mod_eq.
  - apply Nat.mod_upper_bound. subst l. lia.
Qed.

(** The oldest job of [user_1]. *)
Definition oldest_job : PodcastRecord :=
  default (sample_row "user_1" 300 None) (head listing_table).

Lemma getByUser_reaches_every_record_witness :
  exists page,
    1 <= page
    /\ oldest_job
       ∈ rows_of (podcastOperations.getByUser_with
                    (fun userId from to =>
                       Supabase.select_user_range None userId from to
                         (Rls.visible service_session listing_table))
                    "user_1" page 2).
Proof.
  apply (getByUser_reaches_every_record
           (fun userId from to =>
              Supabase.select_user_range None userId from to
                (Rls.visible service_session listing_table))
           service_session listing_table "user_1" 2 oldest_job).
  - discriminate.
  - lia.
  - apply (bool_decide_unpack _). vm_compute. reflexivity.
  - intros from to Hrange. left. apply select_user_range_answer; lia.
  - apply list_elem_of_here.
  - reflexivity.
  - reflexivity.
Defined.



(** ** What the API calls resolve to *)

(** [podcastApi.create] resolves to a body exactly when the response
    is ok and its body is JSON; a response that is not ok is thrown as an
    [Error] whose message starts with "Failed to create podcast: ", and a
    failure of the network or of the parsing is thrown on as it is. *)
Theorem create_resolves errorMessage data userId fetched :
  (forall responseData,
     podcastApi.create errorMessage data userId fetched = Js.Ok responseData
     <-> exists response,
           fetched = Js.Ok response
           /\ Js.ok response = true
           /\ Js.json response = Js.Ok responseData)
  /\ (forall error,
        podcastApi.create errorMessage data userId fetched = Js.Throw error
        <-> fetched = Js.Throw error
            \/ exists response,
                 fetched = Js.Ok response
                 /\ if Js.ok response
                    then Js.json response = Js.Throw error
                    else error
                         = Js.Error ("Failed to create podcast: "
                                     ++ errorMessage response)).
Proof.
  unfold podcastApi.create.
  destruct fetched as [response|e]; simpl.
  - destruct (Js.ok response) eqn:Hok; simpl.
    + destruct (Js.json response) as [body|e] eqn:Hbody; simpl; split.
      * intros responseData. split.
        -- intros [= <-]. exists response. auto.
        -- intros (response' & [= <-] & _ & Hjson). congruence.
      * intros error. split; [discriminate|].
        intros [[=]|(response' & [= <-] & Hjson)].
        rewrite Hok in Hjson. congruence.
      * intros responseData. split; [discriminate|].
        intros (response' & [= <-] & _ & Hjson). congruence.
      * intros error. split.
        -- intros [= <-]. right. exists response. rewrite Hok. auto.
        -- intros [[=]|(response' & [= <-] & Hjson)].
           rewrite Hok in Hjson. congruence.
    + split.
      * intros responseData. split; [discriminate|].
        intros (response' & [= <-] & Hok' & _). congruence.
      * intros error. split.
        -- intros [= <-]. right. exists response. rewrite Hok. auto.
        -- intros [[=]|(response' & [= <-] & Herror)].
           rewrite Hok in Herror. congruence.
  - split.
    + intros responseData. split; [discriminate|].
      intros (response & [=] & _).
    + intros error. split.
      * intros [= <-]. left. reflexivity.
      * intros [[= <-]|(response & [=] & _)]. reflexivity.
Qed.

(** [podcastApi.getById] hands on a body only from a response that
    is ok, and makes up the processing record only for a 404 and an id
    that, lower-cased and trimmed, has the shape of a UUID. *)
Theorem getById_resolves {B} now podcastId (fetched : Js.Fetch B) :
  (forall body,
     podcastApi.getById now podcastId fetched = Js.Ok (FromBackend body)
     <-> exists response,
           fetched = Js.Ok response
           /\ Js.ok response = true
           /\ Js.json response = Js.Ok body)
  /\ (forall stub,
        podcastApi.getById now podcastId fetched = Js.Ok (Assumed stub)
        <-> exists response,
              fetched = Js.Ok response
              /\ Js.status response = 404
              /\ Uuid.test (Js.trim (Js.toLowerCase podcastId)) = true
              /\ stub = assumed_processing now podcastId).
Proof.
  unfold podcastApi.getById.
  destruct fetched as [response|e]; simpl.
  2:{ split; intros x; (split; [discriminate|]).
      - intros (response & [=] & _).
      - intros (response & [=] & _). }
  destruct (Z.eqb_spec (Js.status response) 404) as [Hnot_found|Hother].
  - assert (Hok : Js.ok response = false).
    { unfold Js.ok. rewrite Hnot_found. reflexivity. }
    destruct (Uuid.test _) eqn:Hshape; simpl; split.
    + intros body. split; [discriminate|].
      intros (response' & [= <-] & Hok' & _). congruence.
    + intros stub. split.
      * intros [= <-]. exists response. auto.
      * intros (response' & [= <-] & _ & _ & ->). reflexivity.
    + intros body. split; [discriminate|].
      intros (response' & [= <-] & Hok' & _). congruence.
    + intros stub. split; [discriminate|].
      intros (response' & [= <-] & _ & Hshape' & _). congruence.
  - destruct (Js.ok response) eqn:Hok; simpl.
    + destruct (Js.json response) as [data|e] eqn:Hbody; simpl; split.
      * intros body. split.
        -- intros [= <-]. exists response. auto.
        -- intros (response' & [= <-] & _ & Hjson). congruence.
      * intros stub. split; [discriminate|].
        intros (response' & [= <-] & Hstatus & _). contradiction.
      * intros body. split; [discriminate|].
        intros (response' & [= <-] & _ & Hjson). congruence.
      * intros stub. split; [discriminate|].
        intros (response' & [= <-] & Hstatus & _). contradiction.
    + split.
      * intros body. split; [discriminate|].
        intros (response' & [= <-] & Hok' & _). congruence.
      * intros stub. split; [discriminate|].
        intros (response' & [= <-] & Hstatus & _). contradiction.
Qed.

(** ** The health indicator ([healthApi], [HealthIndicator.tsx]) *)

Module healthApi.

(** [check()], given what [fetch('/api/health')] resolves to. *)
Definition check (fetched : Js.Fetch Js.Json) : Js.Result Js.Json :=
  await response := fetched in
  if negb (Js.ok response)
  then Js.Throw (Js.Error "Health check failed")
  else Js.json response.

End healthApi.

Module HealthIndicator.

Definition reported (state version : string) : Js.Json :=
  Js.JObject [("status", Js.JString state); ("version", Js.JString version)].

(** The [health] state after [checkHealth()]: [response.data] when the
    check resolves ([None] is [undefined]), and in the [catch] branch a
    healthy record in a development build ([import.meta.env.DEV]), an
    unhealthy one otherwise. *)
Definition checkHealth (DEV : bool) (fetched : Js.Fetch Js.Json)
  : option Js.Json :=
  match (await response := healthApi.check fetched in
         get_prop response "data") with
  | Js.Ok data => data
  | Js.Throw _ =>
      if DEV then Some (reported "healthy" "dev")
      else Some (reported "unhealthy" "unknown")
  end.

(** [health?.status === 'healthy'] *)
Definition isHealthy (health : option Js.Json) : bool :=
  match health with
  | Some (Js.JObject members) =>
      match Js.member "status" members with
      | Some (Js.JString state) => String.eqb state "healthy"
      | _ => false
      end
  | _ => false
  end.

End HealthIndicator.

(** The health body of the API documentation. *)
Definition documented_health : Js.Fetch Js.Json :=
  Js.Ok {| Js.status := 200; Js.statusText := "OK";
           Js.json := Js.Ok (HealthIndicator.reported "healthy" "1.0.0") |}.

(** X13: the indicator shows healthy in two cases only: the check threw
    in a development build, or the body of the check has a [data] member
    that is an object whose [status] is 'healthy'. A body with [status] at
    its top level, as documented, is shown as not healthy. *)
Theorem isHealthy_iff DEV fetched :
  (HealthIndicator.isHealthy (HealthIndicator.checkHealth DEV fetched) = true
   <->
   (DEV = true
    /\ exists error,
         (await response := healthApi.check fetched in
          get_prop response "data") = Js.Throw error)
   \/ exists members inner,
        healthApi.check fetched = Js.Ok (Js.JObject members)
        /\ Js.member "data" members = Some (Js.JObject inner)
        /\ Js.member "status" inner = Some (Js.JString "healthy"))
  /\ HealthIndicator.isHealthy
       (HealthIndicator.checkHealth DEV documented_health) = false.
Proof.
  split; [|reflexivity].
  unfold HealthIndicator.checkHealth.
  destruct (healthApi.check fetched) as [body|e] eqn:Hcheck; simpl.
  - destruct (get_prop body "data") as [data|e] eqn:Hdata.
    + split.
      * intros Hhealthy. right.
        destruct data as [[| | | | |inner]|]; try discriminate.
        simpl in Hhealthy.
        destruct (Js.member "status" inner) as [[| | |state| |]|] eqn:Hstate;
          try discriminate.
        apply String.eqb_eq in Hhealthy. subst state.
        destruct body as [| | | | |members]; try discriminate.
        injection Hdata as Hdata. eauto.
      * intros [(_ & error & [=])|(members & inner & [= ->] & Hmember & Hs)].
        simpl in Hdata. rewrite Hmember in Hdata. injection Hdata as <-.
        simpl. rewrite Hs. reflexivity.
    + destruct DEV; split; try discriminate.
      * intros _. left. eauto.
      * reflexivity.
      * intros [([=] & _)|(members & inner & [= ->] & _)]. discriminate.
  - destruct DEV; split; try discriminate.
    + intros _. left. eauto.
    + reflexivity.
    + intros [([=] & _)|(members & inner & [=] & _)].
Qed.

(** ** Trimming *)

Lemma trimStart_head l :
  Js.trimStart l = []
  \/ exists c rest, Js.trimStart l = c :: rest /\ Js.isWhiteSpace c = false.
Proof.
  induction l as [|c l IH]; [left; reflexivity|]. simpl.
  destruct (Js.isWhiteSpace c) eqn:Hc; [exact IH|]. right. eauto.
Qed.

Lemma trimStart_fixed c rest :
  Js.isWhiteSpace c = false -> Js.trimStart (c :: rest) = c :: rest.
Proof. intros Hc. simpl. rewrite Hc. reflexivity. Qed.

Lemma trimStart_twice l : Js.trimStart (Js.trimStart l) = Js.trimStart l.
Proof.
  destruct (trimStart_head l) as [->|(c & rest & -> & Hc)]; [reflexivity|].
  apply trimStart_fixed, Hc.
Qed.

Lemma trimStart_snoc l c :
  Js.isWhiteSpace c = false ->
  exists kept, Js.trimStart (l ++ [c]) = (kept ++ [c])%list.
Proof.
  intros Hc. induction l as [|x l IH]; simpl.
  - rewrite Hc. exists []. reflexivity.
  - destruct (Js.isWhiteSpace x); [exact IH|].
    exists (x :: l). reflexivity.
Qed.

(** The characters [trim] keeps. *)
Definition trimmed (l : list ascii) : list ascii :=
  rev (Js.trimStart (rev (Js.trimStart l))).

Lemma trimmed_fixed l : Js.trimStart (trimmed l) = trimmed l.
Proof.
  unfold trimmed.
  destruct (trimStart_head l) as [->|(c & rest & -> & Hc)]; [reflexivity|].
  change (rev (c :: rest)) with (rev rest ++ [c])%list.
  destruct (trimStart_snoc (rev rest) c Hc) as [kept Hkept]. rewrite Hkept.
  rewrite rev_app_distr. apply trimStart_fixed, Hc.
Qed.

Lemma trim_twice s : Js.trim (Js.trim s) = Js.trim s.
Proof.
  unfold Js.trim. fold (trimmed (list_ascii_of_string s)).
  rewrite list_ascii_of_string_of_list_ascii.
  fold (trimmed (trimmed (list_ascii_of_string s))). f_equal.
  unfold trimmed at 1. rewrite trimmed_fixed.
  unfold trimmed. rewrite rev_involutive, trimStart_twice. reflexivity.
Qed.

(** ** The topics of the form *)

Definition topic_ok (topic : string) : Prop :=
  topic <> "" /\ Js.trim topic = topic.

Lemma existsb_eqb_false (x : string) l :
  existsb (String.eqb x) l = false -> x ∉ l.
Proof.
  intros Hnone Hin.
  assert (Hex : existsb (String.eqb x) l = true).
  { apply existsb_exists. exists x. split.
    - apply list_elem_of_In. exact Hin.
    - apply String.eqb_refl. }
  congruence.
Qed.

Lemma handle_topics_ok e f :
  NoDup (CreatePodcastPage.topics f)
  /\ Forall topic_ok (CreatePodcastPage.topics f) ->
  NoDup (CreatePodcastPage.topics (CreatePodcastPage.handle e f))
  /\ Forall topic_ok (CreatePodcastPage.topics (CreatePodcastPage.handle e f)).
Proof.
  intros [Hnodup Hok]. destruct e; simpl; auto.
  - unfold CreatePodcastPage.handleAddTopic.
    destruct (Js.truthy _) eqn:Htruthy; simpl; [|auto].
    destruct (existsb _ _) eqn:Hdup; simpl; [auto|].
    apply truthy_true in Htruthy. apply existsb_eqb_false in Hdup. split.
    + apply NoDup_app. split; [exact Hnodup|]. split.
      * intros x Hx Hx'. apply list_elem_of_singleton in Hx'. subst x.
        contradiction.
      * apply NoDup_singleton.
    + apply Forall_app. split; [exact Hok|].
      apply Forall_cons. split; [|constructor].
      split; [exact Htruthy|apply trim_twice].
  - pose proof (sublist_delete (CreatePodcastPage.topics f) index) as Hsub.
    split.
    + eapply sublist_NoDup; eassumption.
    + rewrite Forall_forall in *. intros x Hx. apply Hok.
      eapply elem_of_sublist; eassumption.
  - unfold CreatePodcastPage.voicesFetched.
    destruct voice_ids as [|v0 [|v1 rest]]; auto.
  - destruct (CreatePodcastPage.DURATION_OPTIONS !! button); auto.
Qed.

(** X14: whatever is done to the form, its topics are pairwise different,
    none is empty and none has white space at its ends: a topic is added
    trimmed, only when it is not empty and not yet there, and removing by
    position removes at most one. *)
Theorem topics_distinct_trimmed u events :
  NoDup (CreatePodcastPage.topics
           (CreatePodcastPage.run events (CreatePodcastPage.initial u)))
  /\ Forall topic_ok
       (CreatePodcastPage.topics
          (CreatePodcastPage.run events (CreatePodcastPage.initial u))).
Proof.
  unfold CreatePodcastPage.run.
  assert (Hstart : NoDup (CreatePodcastPage.topics (CreatePodcastPage.initial u))
                   /\ Forall topic_ok
                        (CreatePodcastPage.topics
                           (CreatePodcastPage.initial u)))
    by (split; constructor).
  revert Hstart. generalize (CreatePodcastPage.initial u).
  induction events as [|e events IH]; intros f Hf; simpl; [exact Hf|].
  apply IH, handle_topics_ok, Hf.
Qed.

(** A topic that is there already, in other white space, is not added
    again, and the input is kept. *)
Example handleAddTopic_duplicate :
  CreatePodcastPage.run
    [ CreatePodcastPage.TypeTopic "technology"; CreatePodcastPage.AddTopic;
      CreatePodcastPage.TypeTopic " technology  "; CreatePodcastPage.AddTopic ]
    (CreatePodcastPage.initial None)
  = CreatePodcastPage.setTopicInput " technology  "
      (CreatePodcastPage.setTopics ["technology"]
         (CreatePodcastPage.initial None)).
Proof. vm_compute. reflexivity. Qed.

(** ** The submit button *)

(** [disabled={isSubmitting || topics.length === 0 || !hostVoice ||
    !coHostVoice}] *)
Definition submitDisabled (isSubmitting : bool) (f : CreatePodcastPage.Form)
  : bool :=
  isSubmitting
  || (length (CreatePodcastPage.topics f) =? 0)%nat
  || negb (Js.truthy (CreatePodcastPage.hostVoice f))
  || negb (Js.truthy (CreatePodcastPage.coHostVoice f)).

(** X15: for a signed-in user and no submission under way, the button
    that calls [handleSubmit] is enabled exactly when [handleSubmit] would
    send the creation request: what the button lets through is what the
    handler accepts. *)
Theorem submit_enabled_iff_posts ToString now_text errorMessage f fetched
    user_id :
  CreatePodcastPage.user f = Some user_id ->
  submitDisabled false f = false
  <-> exists body,
        CreatePodcastPage.post_podcasts body
          ∈ CreatePodcastPage.handleSubmit ToString now_text errorMessage
              f fetched.
Proof.
  intros Huser. unfold submitDisabled. simpl.
  rewrite !orb_false_iff, !negb_false_iff, !truthy_true, Nat.eqb_neq.
  destruct (handleSubmit_cases ToString now_text errorMessage f fetched)
    as [(uid & rest & _ & Htopics & Hhost & Hco & -> & _)
       |(text & -> & Hbad)].
  - split.
    + intros _. eexists. apply elem_of_cons. right. apply elem_of_cons.
      left. reflexivity.
    + intros _. split; [split|]; try assumption.
      destruct (CreatePodcastPage.topics f); [contradiction|]. discriminate.
  - split.
    + intros [[Htopics Hhost] Hco].
      destruct Hbad as [Hbad|[Hbad|[Hbad|Hbad]]]; try congruence.
      rewrite Hbad in Htopics. contradiction.
    + intros [body Hin]. apply list_elem_of_singleton in Hin. discriminate.
Qed.

Lemma submit_enabled_iff_posts_witness :
  submitDisabled false same_voice_form = false
  <-> exists body,
        CreatePodcastPage.post_podcasts body
          ∈ CreatePodcastPage.handleSubmit plain_text "1700000000000"
              (fun _ => "HTTP error") same_voice_form network_down.
Proof.
  apply (submit_enabled_iff_posts plain_text "1700000000000"
           (fun _ => "HTTP error") same_voice_form network_down "user_1").
  reflexivity.
Defined.

(** ** The voice selector ([components/podcast/VoiceSelector.tsx]) *)


Module VoiceSelector.

(** A voice as the selector reads it. [labels] is an object from label
    names to texts; [None] is a voice that has no [labels], which the
    selector tests for. *)
Record Voice := {
  voice_id : string;
  name : string;
  category : string;
  labels : option (gmap string string)
}.

(** The [filters] state: for each category that was ever clicked, the
    value selected, or [undefined] ([None]). *)
Abbreviation Filters := (gmap string (option string)).

(** The members that the accumulator [{}] inherits from
    [Object.prototype]: for such a key [acc[key]] is the inherited
    member, which is truthy and has no [add]. *)
Definition inherited (key : string) : bool :=
  existsb (String.eqb key)
    ["constructor"; "hasOwnProperty"; "isPrototypeOf";
     "propertyIsEnumerable"; "toLocaleString"; "toString"; "valueOf";
     "__proto__"; "__defineGetter__"; "__defineSetter__";
     "__lookupGetter__"; "__lookupSetter__"].

(** One step of the [forEach] over [Object.entries(voice.labels)]:
    [if (!acc[key]) acc[key] = new Set(); if (value) acc[key].add(value)]. *)
Definition add_label (acc : gmap string (gset string))
    (entry : string * string) : Js.Result (gmap string (gset string)) :=
  if inherited entry.1
  then if Js.truthy entry.2
       then Js.Throw (Js.Error "acc[key].add is not a function")
       else Js.Ok acc
  else
    let acc' := match acc !! entry.1 with
                | Some _ => acc
                | None => <[entry.1 := ∅]> acc
                end in
    Js.Ok (if Js.truthy entry.2
           then <[entry.1 := {[entry.2]} ∪ default ∅ (acc' !! entry.1)]> acc'
           else acc').

(** [reduce] and [forEach] with a callback that may throw. *)
Fixpoint reduce {A B} (f : A -> B -> Js.Result A) (l : list B) (acc : A)
  : Js.Result A :=
  match l with
  | [] => Js.Ok acc
  | x :: l' => await acc' := f acc x in reduce f l' acc'
  end.

(** The values on offer for each category. *)
Definition filterOptions (voices : list Voice)
  : Js.Result (gmap string (gset string)) :=
  reduce
    (fun acc voice =>
       match labels voice with
       | Some ls => reduce add_label (map_to_list ls) acc
       | None => Js.Ok acc
       end)
    voices ∅.

(** [!value || voice.labels[key] === value] for one entry of [filters]. *)
Definition entry_matches (voice : Voice) (entry : string * option string)
  : Js.Result bool :=
  match entry.2 with
  | Some value =>
      if Js.truthy value then
        match labels voice with
        | Some ls => Js.Ok (bool_decide (ls !! entry.1 = Some value))
        | None =>
            Js.Throw
              (Js.Error ("Cannot read properties of undefined (reading '"
                         ++ entry.1 ++ "')"))
        end
      else Js.Ok true
  | None => Js.Ok true
  end.

(** [Array.prototype.every] and [filter] with a callback that may
    throw. *)
Fixpoint every {A} (p : A -> Js.Result bool) (l : list A) : Js.Result bool :=
  match l with
  | [] => Js.Ok true
  | x :: l' => await b := p x in if b then every p l' else Js.Ok false
  end.

Fixpoint filter_with {A} (p : A -> Js.Result bool) (l : list A)
  : Js.Result (list A) :=
  match l with
  | [] => Js.Ok []
  | x :: l' =>
      await b := p x in
      await rest := filter_with p l' in
      Js.Ok (if b then x :: rest else rest)
  end.

Definition filteredVoices (filters : Filters) (voices : list Voice)
  : Js.Result (list Voice) :=
  filter_with (fun voice => every (entry_matches voice) (map_to_list filters))
    voices.

(** [{ ...prev, [category]: prev[category] === value ? undefined : value }] *)
Definition handleFilterChange (category value : string) (prev : Filters)
  : Filters :=
  <[category := if bool_decide (prev !! category = Some (Some value))
                then None else Some value]> prev.

(** The card of a listed voice reads [Object.entries(voice.labels)]
    ([getVoiceCharacteristics]) and [voice.labels.use_case]: a TypeError
    for a voice without [labels]. *)
Definition card (voice : Voice) : Js.Result Voice :=
  match labels voice with
  | Some _ => Js.Ok voice
  | None => Js.Throw (Js.Error "Cannot convert undefined or null to object")
  end.

Fixpoint map_with {A B} (f : A -> Js.Result B) (l : list A)
  : Js.Result (list B) :=
  match l with
  | [] => Js.Ok []
  | x :: l' =>
      await y := f x in
      await rest := map_with f l' in
      Js.Ok (y :: rest)
  end.

(** One rendering of the component: [filterOptions], [filteredVoices]
    and then a card for each voice of [filteredVoices], in this order.
    The result is the voices that have a card. *)
Definition render (filters : Filters) (voices : list Voice)
  : Js.Result (list Voice) :=
  await _ := filterOptions voices in
  await listed := filteredVoices filters voices in
  map_with card listed.

End VoiceSelector.

Lemma filter_with_all {A} (p : A -> Js.Result bool) (l : list A) :
  (forall x, x ∈ l -> p x = Js.Ok true) -> VoiceSelector.filter_with p l = Js.Ok l.
Proof.
  induction l as [|x l IH]; intros Hall; [reflexivity|]. simpl.
  rewrite (Hall x) by apply list_elem_of_here. simpl.
  rewrite IH; [reflexivity|].
  intros y Hy. apply Hall. apply list_elem_of_further, Hy.
Qed.

(** The value a call resolves to, if it does. *)
Definition resolved {A} (r : Js.Result A) : option A :=
  match r with
  | Js.Ok a => Some a
  | Js.Throw _ => None
  end.

Definition selects (entry : string * option string) : bool :=
  Js.truthy_opt entry.2.

Definition entry_holds (ls : gmap string string)
    (entry : string * option string) : bool :=
  match entry.2 with
  | Some value => negb (Js.truthy value) || bool_decide (ls !! entry.1 = Some value)
  | None => true
  end.

(** What [every] gives for a voice: with labels, whether every entry
    holds; without, an error as soon as an entry selects a value. *)
Lemma every_resolved voice l :
  resolved (VoiceSelector.every (VoiceSelector.entry_matches voice) l)
  = match VoiceSelector.labels voice with
    | Some ls => Some (forallb (entry_holds ls) l)
    | None => if existsb selects l then None else Some true
    end.
Proof.
  induction l as [|[key value] l IH].
  - simpl. destruct (VoiceSelector.labels voice); reflexivity.
  - simpl. unfold VoiceSelector.entry_matches at 1, entry_holds at 1,
      selects at 1, Js.truthy_opt. simpl.
    destruct value as [value|]; [|exact IH].
    destruct (Js.truthy value); [|exact IH]. simpl.
    destruct (VoiceSelector.labels voice) as [ls|]; [|reflexivity].
    simpl. destruct (bool_decide _); [exact IH|reflexivity].
Qed.

Lemma forallb_Permutation {A} (p : A -> bool) (l1 l2 : list A) :
  l1 ≡ₚ l2 -> forallb p l1 = forallb p l2.
Proof.
  induction 1 as [|x l1 l2 _ IH|x y l|l1 l2 l3 _ IH1 _ IH2]; simpl.
  - reflexivity.
  - rewrite IH. reflexivity.
  - destruct (p x), (p y); reflexivity.
  - congruence.
Qed.

Lemma existsb_Permutation {A} (p : A -> bool) (l1 l2 : list A) :
  l1 ≡ₚ l2 -> existsb p l1 = existsb p l2.
Proof.
  induction 1 as [|x l1 l2 _ IH|x y l|l1 l2 l3 _ IH1 _ IH2]; simpl.
  - reflexivity.
  - rewrite IH. reflexivity.
  - destruct (p x), (p y); reflexivity.
  - congruence.
Qed.

Lemma filter_with_resolved {A} (p q : A -> Js.Result bool) (l : list A) :
  (forall x, resolved (p x) = resolved (q x)) ->
  resolved (VoiceSelector.filter_with p l)
  = resolved (VoiceSelector.filter_with q l).
Proof.
  intros Hsame. induction l as [|x l IH]; [reflexivity|]. simpl.
  specialize (Hsame x).
  destruct (p x) as [b|e], (q x) as [b'|e']; simpl in Hsame;
    try discriminate; [|reflexivity].
  injection Hsame as <-. simpl.
  destruct (VoiceSelector.filter_with p l) as [kept|e],
    (VoiceSelector.filter_with q l) as [kept'|e']; simpl in IH;
    try discriminate; [|reflexivity].
  injection IH as <-. reflexivity.
Qed.

Lemma map_with_card l :
  Forall (fun voice => VoiceSelector.labels voice <> None) l ->
  VoiceSelector.map_with VoiceSelector.card l = Js.Ok l.
Proof.
  induction 1 as [|voice l Hvoice _ IH]; [reflexivity|]. simpl.
  unfold VoiceSelector.card at 1.
  destruct (VoiceSelector.labels voice); [|contradiction].
  simpl. rewrite IH. reflexivity.
Qed.

Lemma map_with_card_ok l cards :
  VoiceSelector.map_with VoiceSelector.card l = Js.Ok cards ->
  cards = l /\ Forall (fun voice => VoiceSelector.labels voice <> None) l.
Proof.
  revert cards. induction l as [|voice l IH]; intros cards; simpl.
  - intros [= <-]. split; [reflexivity|constructor].
  - unfold VoiceSelector.card at 1.
    destruct (VoiceSelector.labels voice) as [ls|] eqn:Hls; [|discriminate].
    simpl.
    destruct (VoiceSelector.map_with VoiceSelector.card l) as [rest|e];
      [|discriminate].
    simpl. intros [= <-]. destruct (IH rest eq_refl) as [-> Hall].
    split; [reflexivity|]. constructor; [congruence|exact Hall].
Qed.

(** X16: while no category has a value selected (at the start, and after
    every value was clicked off again), the filter keeps every voice,
    those without labels too; the component then renders a card for
    every voice exactly when every voice has labels and no label is named
    like a member of [Object.prototype] with a value; otherwise the
    rendering throws. *)
Theorem filteredVoices_no_selection (filters : VoiceSelector.Filters) voices :
  map_Forall (fun _ value => Js.truthy_opt value = false) filters ->
  VoiceSelector.filteredVoices filters voices = Js.Ok voices
  /\ (VoiceSelector.render filters voices = Js.Ok voices
      <-> Forall (fun voice => VoiceSelector.labels voice <> None) voices
          /\ exists options, VoiceSelector.filterOptions voices = Js.Ok options)
  /\ (forall cards,
        VoiceSelector.render filters voices = Js.Ok cards -> cards = voices).
Proof.
  intros Hnone.
  assert (Hkept : VoiceSelector.filteredVoices filters voices = Js.Ok voices).
  { unfold VoiceSelector.filteredVoices.
    apply filter_with_all. intros voice _.
    apply map_Forall_to_list in Hnone.
    induction Hnone as [|[key value] l Hentry _ IH]; [reflexivity|].
    simpl in Hentry. simpl. unfold VoiceSelector.entry_matches at 1. simpl.
    destruct value as [value|]; [|exact IH].
    simpl in Hentry. rewrite Hentry. exact IH. }
  split; [exact Hkept|].
  unfold VoiceSelector.render. rewrite Hkept.
  destruct (VoiceSelector.filterOptions voices) as [options|e]; simpl.
  - split.
    + split.
      * intros Hcards. apply map_with_card_ok in Hcards as [_ Hall].
        split; [exact Hall|eauto].
      * intros [Hall _]. apply map_with_card, Hall.
    + intros cards Hcards. apply map_with_card_ok in Hcards as [-> _].
      reflexivity.
  - split.
    + split; [discriminate|]. intros [_ [options [=]]].
    + discriminate.
Qed.

Definition sample_voices : list VoiceSelector.Voice :=
  [ {| VoiceSelector.voice_id := "voice-a"; VoiceSelector.name := "Ada";
       VoiceSelector.category := "premade";
       VoiceSelector.labels :=
         Some (<["accent" := "british"]> (<["gender" := "female"]> ∅)) |};
    {| VoiceSelector.voice_id := "voice-b"; VoiceSelector.name := "Ben";
       VoiceSelector.category := "premade";
       VoiceSelector.labels :=
         Some (<["accent" := "american"]> (<["gender" := "male"]> ∅)) |};
    {| VoiceSelector.voice_id := "voice-c"; VoiceSelector.name := "Cy";
       VoiceSelector.category := "cloned";
       VoiceSelector.labels := None |} ].

Lemma filteredVoices_no_selection_witness :
  VoiceSelector.filteredVoices (<["accent" := None]> ∅) (take 2 sample_voices)
  = Js.Ok (take 2 sample_voices)
  /\ (VoiceSelector.render (<["accent" := None]> ∅) (take 2 sample_voices)
      = Js.Ok (take 2 sample_voices)
      <-> Forall (fun voice => VoiceSelector.labels voice <> None)
            (take 2 sample_voices)
          /\ exists options,
               VoiceSelector.filterOptions (take 2 sample_voices)
               = Js.Ok options)
  /\ (forall cards,
        VoiceSelector.render (<["accent" := None]> ∅) (take 2 sample_voices)
        = Js.Ok cards ->
        cards = take 2 sample_voices).
Proof.
  apply (filteredVoices_no_selection (<["accent" := None]> ∅)
           (take 2 sample_voices)).
  apply map_Forall_insert; [reflexivity|].
  split; [reflexivity|apply map_Forall_empty].
Defined.

(** A voice without labels is kept by the filter, and the rendering
    throws when it comes to its card. *)
Example render_unlabelled_voice :
  VoiceSelector.filteredVoices ∅ sample_voices = Js.Ok sample_voices
  /\ VoiceSelector.render ∅ sample_voices
     = Js.Throw (Js.Error "Cannot convert undefined or null to object").
Proof. split; vm_compute; reflexivity. Qed.

(** With a value selected, a voice without labels makes the list fail. *)
Example filteredVoices_unlabelled_voice :
  resolved (VoiceSelector.filteredVoices (<["accent" := Some "british"]> ∅)
              sample_voices) = None
  /\ VoiceSelector.filteredVoices (<["accent" := Some "british"]> ∅)
       (take 2 sample_voices)
     = Js.Ok (take 1 sample_voices).
Proof. split; vm_compute; reflexivity. Qed.

(** X17: clicking the selected value of a category again takes that
    category out of the selection: the voices listed (or the failure to
    list them) are those of the filters without it. *)
Theorem handleFilterChange_deselects category value
    (filters : VoiceSelector.Filters) voices :
  filters !! category = Some (Some value) ->
  resolved (VoiceSelector.filteredVoices
              (VoiceSelector.handleFilterChange category value filters)
              voices)
  = resolved (VoiceSelector.filteredVoices (delete category filters) voices).
Proof.
  intros Hselected. unfold VoiceSelector.handleFilterChange.
  rewrite bool_decide_true by exact Hselected.
  unfold VoiceSelector.filteredVoices.
  apply filter_with_resolved. intros voice. rewrite !every_resolved.
  rewrite <- (insert_delete_eq filters).
  pose proof (map_to_list_insert (delete category filters) category None
                (lookup_delete_eq filters category)) as Hperm.
  destruct (VoiceSelector.labels voice) as [ls|].
  - rewrite (forallb_Permutation _ _ _ Hperm). reflexivity.
  - rewrite (existsb_Permutation _ _ _ Hperm). reflexivity.
Qed.

Lemma handleFilterChange_deselects_witness :
  resolved (VoiceSelector.filteredVoices
              (VoiceSelector.handleFilterChange "accent" "british"
                 (<["accent" := Some "british"]> ∅))
              sample_voices)
  = resolved (VoiceSelector.filteredVoices
                (delete "accent" (<["accent" := Some "british"]> ∅))
                sample_voices).
Proof.
  apply (handleFilterChange_deselects "accent" "british"
           (<["accent" := Some "british"]> ∅) sample_voices).
  apply lookup_insert_eq.
Defined.

(** *** The values on offer *)

Lemma reduce_invariant {A B} (P : A -> Prop) (Q : B -> Prop)
    (f : A -> B -> Js.Result A) (l : list B) (a a' : A) :
  P a -> Forall Q l ->
  (forall a b a', P a -> Q b -> f a b = Js.Ok a' -> P a') ->
  VoiceSelector.reduce f l a = Js.Ok a' -> P a'.
Proof.
  intros Ha Hl Hstep. revert a Ha.
  induction Hl as [|b l Hb _ IH]; intros a Ha; simpl.
  - intros [= <-]. exact Ha.
  - destruct (f a b) as [a1|e] eqn:Hf; [|discriminate]. simpl.
    apply IH. eapply Hstep; eassumption.
Qed.

(** Every value on offer is a non-empty label of one of the voices. *)
Definition from_voices (voices : list VoiceSelector.Voice)
    (acc : gmap string (gset string)) : Prop :=
  forall key values value,
    acc !! key = Some values -> value ∈ values ->
    value <> ""
    /\ exists voice ls,
         voice ∈ voices
         /\ VoiceSelector.labels voice = Some ls
         /\ ls !! key = Some value.

Lemma add_label_from_voices voices acc acc1 voice ls entry :
  voice ∈ voices ->
  VoiceSelector.labels voice = Some ls ->
  ls !! entry.1 = Some entry.2 ->
  from_voices voices acc ->
  VoiceSelector.add_label acc entry = Js.Ok acc1 ->
  from_voices voices acc1.
Proof.
  intros Hvoice Hls Hentry Hacc. unfold VoiceSelector.add_label.
  destruct (VoiceSelector.inherited entry.1).
  { destruct (Js.truthy entry.2); [discriminate|].
    intros [= <-]. exact Hacc. }
  set (acc' := match acc !! entry.1 with
               | Some _ => acc
               | None => <[entry.1 := ∅]> acc
               end).
  assert (Hacc' : from_voices voices acc').
  { subst acc'. destruct (acc !! entry.1) eqn:Hold; [exact Hacc|].
    intros key values value Hkey Hvalue.
    destruct (decide (entry.1 = key)) as [<-|Hne].
    - rewrite lookup_insert_eq in Hkey. injection Hkey as <-.
      apply not_elem_of_empty in Hvalue. contradiction.
    - rewrite lookup_insert_ne in Hkey by exact Hne. eauto. }
  destruct (Js.truthy entry.2) eqn:Htruthy; intros [= <-]; [|exact Hacc'].
  apply truthy_true in Htruthy.
  intros key values value Hkey Hvalue.
  destruct (decide (entry.1 = key)) as [<-|Hne].
  - rewrite lookup_insert_eq in Hkey. injection Hkey as <-.
    apply elem_of_union in Hvalue as [Hvalue|Hvalue].
    + apply elem_of_singleton in Hvalue. subst value.
      split; [exact Htruthy|]. eauto.
    + destruct (acc' !! entry.1) as [old|] eqn:Hold; simpl in Hvalue.
      * eapply Hacc'; eassumption.
      * apply not_elem_of_empty in Hvalue. contradiction.
  - rewrite lookup_insert_ne in Hkey by exact Hne. eauto.
Qed.

Lemma filterOptions_from_voices voices options :
  VoiceSelector.filterOptions voices = Js.Ok options ->
  from_voices voices options.
Proof.
  unfold VoiceSelector.filterOptions.
  apply (reduce_invariant (from_voices voices) (fun voice => voice ∈ voices)).
  - intros key values value Hkey. rewrite lookup_empty in Hkey. discriminate.
  - apply Forall_forall. auto.
  - intros acc voice acc1 Hacc Hvoice.
    destruct (VoiceSelector.labels voice) as [ls|] eqn:Hls;
      [|intros [= <-]; exact Hacc].
    apply (reduce_invariant (from_voices voices)
             (fun entry => ls !! entry.1 = Some entry.2)).
    + exact Hacc.
    + apply Forall_forall. intros [key value] Hin.
      apply elem_of_map_to_list in Hin. exact Hin.
    + intros acc' entry acc'' Hacc' Hentry.
      eapply add_label_from_voices; eassumption.
Qed.

(** Whether a voice has the value under the category. *)
Definition has_label (category value : string) (voice : VoiceSelector.Voice)
  : bool :=
  match VoiceSelector.labels voice with
  | Some ls => bool_decide (ls !! category = Some value)
  | None => false
  end.

Lemma filter_with_ok {A} (p : A -> Js.Result bool) (q : A -> bool)
    (l : list A) :
  (forall x, x ∈ l -> p x = Js.Ok (q x)) ->
  VoiceSelector.filter_with p l = Js.Ok (List.filter q l).
Proof.
  induction l as [|x l IH]; intros Hall; [reflexivity|]. simpl.
  rewrite (Hall x) by apply list_elem_of_here. simpl.
  rewrite IH by (intros y Hy; apply Hall, list_elem_of_further, Hy).
  simpl. destruct (q x); reflexivity.
Qed.

(** X18: a value the selector offers for a category is a non-empty label
    of some voice under that category; and when every voice has labels,
    clicking that value with nothing else selected lists exactly the
    voices that have it, which are one at least. *)
Theorem offered_value_matches voices options category values value :
  VoiceSelector.filterOptions voices = Js.Ok options ->
  options !! category = Some values ->
  value ∈ values ->
  value <> ""
  /\ (exists voice ls,
        voice ∈ voices
        /\ VoiceSelector.labels voice = Some ls
        /\ ls !! category = Some value)
  /\ (Forall (fun voice => VoiceSelector.labels voice <> None) voices ->
      VoiceSelector.filteredVoices
        (VoiceSelector.handleFilterChange category value ∅) voices
      = Js.Ok (List.filter (has_label category value) voices)
      /\ List.filter (has_label category value) voices <> []).
Proof.
  intros Hoptions Hoffered Hvalue.
  destruct (filterOptions_from_voices voices options Hoptions _ _ _
              Hoffered Hvalue)
    as (Htruthy & voice & ls & Hvoice & Hls & Hlabel).
  split; [exact Htruthy|]. split; [eauto|].
  intros Hlabelled. split.
  - unfold VoiceSelector.filteredVoices, VoiceSelector.handleFilterChange.
    rewrite bool_decide_false by (rewrite lookup_empty; discriminate).
    rewrite insert_empty, map_to_list_singleton.
    apply filter_with_ok. intros voice' Hvoice'.
    rewrite Forall_forall in Hlabelled. specialize (Hlabelled _ Hvoice').
    simpl. unfold VoiceSelector.entry_matches, has_label. simpl.
    apply truthy_true in Htruthy. rewrite Htruthy.
    destruct (VoiceSelector.labels voice') as [ls'|]; [|contradiction].
    simpl. destruct (bool_decide _); reflexivity.
  - intros Hempty.
    assert (Hin : In voice (List.filter (has_label category value) voices)).
    { apply filter_In. split; [apply list_elem_of_In; exact Hvoice|].
      unfold has_label. rewrite Hls. apply bool_decide_eq_true. exact Hlabel. }
    rewrite Hempty in Hin. contradiction.
Qed.

Lemma offered_value_matches_witness :
  "british" <> ""
  /\ (exists voice ls,
        voice ∈ take 2 sample_voices
        /\ VoiceSelector.labels voice = Some ls
        /\ ls !! "accent" = Some "british")
  /\ (Forall (fun voice => VoiceSelector.labels voice <> None)
        (take 2 sample_voices) ->
      VoiceSelector.filteredVoices
        (VoiceSelector.handleFilterChange "accent" "british" ∅)
        (take 2 sample_voices)
      = Js.Ok (List.filter (has_label "accent" "british")
                 (take 2 sample_voices))
      /\ List.filter (has_label "accent" "british") (take 2 sample_voices)
         <> []).
Proof.
  apply (offered_value_matches (take 2 sample_voices)
           (<["accent" := {["american"; "british"]}]>
              (<["gender" := {["male"; "female"]}]> ∅))
           "accent" {["american"; "british"]} "british").
  - vm_compute. reflexivity.
  - reflexivity.
  - apply elem_of_union. right. apply elem_of_singleton. reflexivity.
Defined.

(** A label named like a member of [Object.prototype] makes the
    computation of the values on offer throw, and with it the
    rendering. *)
Example filterOptions_inherited_key :
  VoiceSelector.filterOptions
    [ {| VoiceSelector.voice_id := "voice-d"; VoiceSelector.name := "Di";
         VoiceSelector.category := "premade";
         VoiceSelector.labels := Some {["constructor" := "x"]} |} ]
  = Js.Throw (Js.Error "acc[key].add is not a function").
Proof. vm_compute. reflexivity. Qed.

(** ** Filtering and sorting on the list page *)

Lemma place_Permutation cmp x l :
  PodcastListPage.place cmp x l ≡ₚ x :: l.
Proof.
  induction l as [|y l IH]; simpl; [reflexivity|].
  destruct (cmp x y <=? 0)%Z; [reflexivity|].
  rewrite IH. apply Permutation_swap.
Qed.

Lemma sort_with_Permutation cmp l : PodcastListPage.sort_with cmp l ≡ₚ l.
Proof.
  unfold PodcastListPage.sort_with.
  induction l as [|x l IH]; simpl; [reflexivity|].
  rewrite place_Permutation, IH. reflexivity.
Qed.

(** The order a comparator that compares a number per record puts the
    records in. *)
Lemma place_sorted (key : PodcastRecord -> Z) cmp x l :
  (forall a b, (cmp a b <= 0)%Z <-> (key a <= key b)%Z) ->
  StronglySorted (fun a b => (key a <= key b)%Z) l ->
  StronglySorted (fun a b => (key a <= key b)%Z)
    (PodcastListPage.place cmp x l).
Proof.
  intros Hcmp Hsorted. induction Hsorted as [|y l Hsorted IH Hy]; simpl.
  - repeat constructor.
  - destruct (Z.leb_spec (cmp x y) 0) as [Hle|Hgt].
    + apply Hcmp in Hle. constructor.
      * constructor; assumption.
      * constructor; [exact Hle|].
        eapply Forall_impl; [exact Hy|]. intros z Hz. simpl in Hz. lia.
    + assert (Hyx : (key y <= key x)%Z).
      { destruct (Z.le_gt_cases (key x) (key y)) as [Hle|Hlt]; [|lia].
        apply Hcmp in Hle. lia. }
      constructor; [exact IH|].
      rewrite place_Permutation. constructor; assumption.
Qed.

Lemma sort_with_sorted (key : PodcastRecord -> Z) cmp l :
  (forall a b, (cmp a b <= 0)%Z <-> (key a <= key b)%Z) ->
  StronglySorted (fun a b => (key a <= key b)%Z)
    (PodcastListPage.sort_with cmp l).
Proof.
  intros Hcmp. unfold PodcastListPage.sort_with.
  induction l as [|x l IH]; simpl; [constructor|].
  apply place_sorted; assumption.
Qed.

(** The number each value of [sort] orders by, smallest first. *)
Definition sort_key (sort : string) (p : PodcastRecord) : Z :=
  if String.eqb sort "created_asc"
  then PodcastListPage.getTime (created_at p)
  else if String.eqb sort "created_desc"
  then - PodcastListPage.getTime (created_at p)
  else if String.eqb sort "duration_asc" then duration p
  else if String.eqb sort "duration_desc" then - duration p
  else 0.

Lemma compare_sort_key sort a b :
  (PodcastListPage.compare sort a b <= 0)%Z
  <-> (sort_key sort a <= sort_key sort b)%Z.
Proof.
  unfold PodcastListPage.compare, sort_key.
  repeat (destruct (String.eqb sort _); [lia|]). lia.
Qed.

(** X19: what the list page displays is the fetched podcasts that match
    the search and the status filter, each as often as fetched, ordered
    by the chosen key: oldest or newest first by creation time, shortest
    or longest first by duration. *)
Theorem filteredPodcasts_sorted podcasts searchQuery statusFilter sort :
  PodcastListPage.filteredPodcasts podcasts searchQuery statusFilter sort
  ≡ₚ List.filter
       (fun podcast =>
          PodcastListPage.matchesSearch searchQuery podcast
          && PodcastListPage.matchesStatus statusFilter podcast)
       podcasts
  /\ StronglySorted
       (fun a b => (sort_key sort a <= sort_key sort b)%Z)
       (PodcastListPage.filteredPodcasts podcasts searchQuery statusFilter
          sort).
Proof.
  unfold PodcastListPage.filteredPodcasts. split.
  - apply sort_with_Permutation.
  - apply sort_with_sorted. intros a b. apply compare_sort_key.
Qed.

Example filteredPodcasts_longest_first :
  map duration
    (PodcastListPage.filteredPodcasts listing_table "" PodcastListPage.all
       "duration_desc")
  = [900; 600; 300; 60].
Proof. vm_compute. reflexivity. Qed.

(** X20: with a status selected, every podcast displayed has that status,
    and a fetched podcast of that status is displayed exactly when one of
    its topics contains the search text, letter case aside. *)
Theorem filteredPodcasts_status podcasts searchQuery st sort :
  Forall (fun podcast => status podcast = Some (status_text st))
    (PodcastListPage.filteredPodcasts podcasts searchQuery
       (PodcastListPage.only st) sort)
  /\ (forall podcast,
        podcast ∈ podcasts ->
        status podcast = Some (status_text st) ->
        podcast ∈ PodcastListPage.filteredPodcasts podcasts searchQuery
                    (PodcastListPage.only st) sort
        <-> exists topic,
              topic ∈ topics podcast
              /\ Js.includes (Js.toLowerCase topic)
                   (Js.toLowerCase searchQuery) = true).
Proof.
  split.
  - apply Forall_forall. intros podcast Hin.
    apply filteredPodcasts_elem_of in Hin as (_ & _ & Hstatus).
    simpl in Hstatus.
    destruct (status podcast) as [text|]; [|discriminate].
    apply String.eqb_eq in Hstatus. congruence.
  - intros podcast Hin Hstatus. rewrite filteredPodcasts_elem_of.
    unfold PodcastListPage.matchesSearch. rewrite existsb_exists.
    simpl. rewrite Hstatus, String.eqb_refl. split.
    + intros (_ & (topic & Htopic & Hincludes) & _).
      exists topic. split; [apply list_elem_of_In; exact Htopic|exact Hincludes].
    + intros (topic & Htopic & Hincludes).
      split; [exact Hin|]. split; [|reflexivity].
      exists topic. split; [apply list_elem_of_In; exact Htopic|exact Hincludes].
Qed.

Lemma place_unordered x l :
  PodcastListPage.place (fun _ _ => 0%Z) x l = x :: l.
Proof. destruct l; reflexivity. Qed.

(** X21: a value of [sort] that is none of the four keeps the podcasts in
    the order they were fetched in. *)
Theorem filteredPodcasts_unknown_sort podcasts searchQuery statusFilter sort :
  sort <> "created_asc" ->
  sort <> "created_desc" ->
  sort <> "duration_asc" ->
  sort <> "duration_desc" ->
  PodcastListPage.filteredPodcasts podcasts searchQuery statusFilter sort
  = List.filter
      (fun podcast =>
         PodcastListPage.matchesSearch searchQuery podcast
         && PodcastListPage.matchesStatus statusFilter podcast)
      podcasts.
Proof.
  intros H1 H2 H3 H4. unfold PodcastListPage.filteredPodcasts.
  generalize (List.filter
                (fun podcast =>
                   PodcastListPage.matchesSearch searchQuery podcast
                   && PodcastListPage.matchesStatus statusFilter podcast)
                podcasts).
  intros l. unfold PodcastListPage.sort_with.
  induction l as [|x l IH]; [reflexivity|]. simpl. rewrite IH.
  destruct l as [|y l]; [reflexivity|]. simpl.
  unfold PodcastListPage.compare.
  apply String.eqb_neq in H1, H2, H3, H4. rewrite H1, H2, H3, H4.
  reflexivity.
Qed.

Lemma filteredPodcasts_unknown_sort_witness :
  PodcastListPage.filteredPodcasts listing_table "" PodcastListPage.all
    "title"
  = List.filter
      (fun podcast =>
         PodcastListPage.matchesSearch "" podcast
         && PodcastListPage.matchesStatus PodcastListPage.all podcast)
      listing_table.
Proof.
  apply (filteredPodcasts_unknown_sort listing_table "" PodcastListPage.all
           "title"); discriminate.
Defined.

(** ** The details page: fetching and what is rendered
       ([pages/PodcastDetailsPage.tsx], [components/common/AudioPlayer.tsx]) *)

Module DetailsPage.

(** Base URL for static files. *)
Definition STATIC_BASE_URL : string := "http://localhost:8000".

(** [podcast.url.startsWith('http') ? podcast.url :
    `${STATIC_BASE_URL}${podcast.url}`], the [src] the page hands to the
    player and the [href] of [handleDownload]. *)
Definition fullUrl (url : string) : string :=
  if String.prefix "http" url then url else STATIC_BASE_URL ++ url.

(** [formatDuration(seconds)] for a whole number of seconds. *)
Definition formatDuration (seconds : Z) : string :=
  let minutes := (seconds / 60)%Z in
  pretty minutes ++ " minute" ++ (if (minutes =? 1)%Z then "" else "s").

(** The state of the page that [fetchPodcastDetails] writes. The progress
    estimate, which [updateProgressEstimation] computes in floating point
    from the clock, is left out. *)
Record State := {
  podcast : option (Retrieved Js.Json);
  loading : bool;
  pollingActive : bool;
  waitingForGeneration : bool;
  notFound : bool;
  errorMsg : option string
}.

Definition setPodcast v s :=
  {| podcast := v; loading := loading s; pollingActive := pollingActive s;
     waitingForGeneration := waitingForGeneration s; notFound := notFound s;
     errorMsg := errorMsg s |}.
Definition setLoading v s :=
  {| podcast := podcast s; loading := v; pollingActive := pollingActive s;
     waitingForGeneration := waitingForGeneration s; notFound := notFound s;
     errorMsg := errorMsg s |}.
Definition setPollingActive v s :=
  {| podcast := podcast s; loading := loading s; pollingActive := v;
     waitingForGeneration := waitingForGeneration s; notFound := notFound s;
     errorMsg := errorMsg s |}.
Definition setWaitingForGeneration v s :=
  {| podcast := podcast s; loading := loading s;
     pollingActive := pollingActive s; waitingForGeneration := v;
     notFound := notFound s; errorMsg := errorMsg s |}.
Definition setNotFound v s :=
  {| podcast := podcast s; loading := loading s;
     pollingActive := pollingActive s;
     waitingForGeneration := waitingForGeneration s; notFound := v;
     errorMsg := errorMsg s |}.
Definition setErrorMsg v s :=
  {| podcast := podcast s; loading := loading s;
     pollingActive := pollingActive s;
     waitingForGeneration := waitingForGeneration s; notFound := notFound s;
     errorMsg := v |}.

(** What the fetch does besides writing the state. *)
Inductive Effect :=
| toast_error (text : string)
| toast_success (text : string)
| delete_autoRefresh.

(** [data.status] of what [getById] resolved to. *)
Definition data_status (data : Retrieved Js.Json)
  : Js.Result (option Js.Json) :=
  match data with
  | FromBackend body => get_prop body "status"
  | Assumed stub => Js.Ok (Some (Js.JString (status_text (stub_status stub))))
  end.

Definition is_text (text : string) (v : option Js.Json) : bool :=
  match v with
  | Some (Js.JString s) => String.eqb s text
  | _ => false
  end.

(** [error.message] *)
Definition message (e : Js.Thrown) : string :=
  match e with
  | Js.Error m => m
  | Js.PostgrestError _ m => m
  end.

(** The [try] block after the [await]. *)
Definition fetched_ok (autoRefresh : bool) (data : Retrieved Js.Json)
    (s : State) : State * list Effect * Js.Result unit :=
  let s1 := setErrorMsg None (setPodcast (Some data) (setNotFound false s)) in
  match data_status data with
  | Js.Throw e => (s1, [], Js.Throw e)
  | Js.Ok st =>
      if is_text "processing" st
      then (setWaitingForGeneration true (setPollingActive true s1), [],
            Js.Ok tt)
      else
        let s2 := setWaitingForGeneration false (setPollingActive false s1) in
        if is_text "completed" st && autoRefresh
        then (s2, [delete_autoRefresh; toast_success "Your podcast is ready!"],
              Js.Ok tt)
        else (s2, [], Js.Ok tt)
  end.

(** The [catch] block. *)
Definition fetch_failed (podcastId : string) (error : Js.Thrown) (s : State)
  : State :=
  let errorMessage := Js.toLowerCase (message error) in
  if Js.includes errorMessage "not found" || Js.includes errorMessage "404"
  then setWaitingForGeneration false (setNotFound true s)
  else if Js.truthy podcastId && Uuid.test podcastId
  then setErrorMsg
         (Some "We're setting up your podcast. This may take a moment.")
         (setPollingActive true (setWaitingForGeneration true s))
  else setErrorMsg
         (Some "The podcast ID is invalid or the podcast has been removed.")
         (setNotFound true (setWaitingForGeneration false s)).

(** [fetchPodcastDetails()], given what [podcastApi.getById(podcastId)]
    resolves to. [None] is a route without the parameter. *)
Definition fetchPodcastDetails (podcastId : option string)
    (autoRefresh : bool) (got : Js.Result (Retrieved Js.Json)) (s : State)
  : State * list Effect :=
  match podcastId with
  | None => (setLoading false s, [toast_error "No podcast ID provided"])
  | Some pid =>
      if negb (Js.truthy pid)
      then (setLoading false s, [toast_error "No podcast ID provided"])
      else
        match got with
        | Js.Throw error => (setLoading false (fetch_failed pid error s), [])
        | Js.Ok data =>
            match fetched_ok autoRefresh data s with
            | (s', effects, Js.Ok _) => (setLoading false s', effects)
            | (s', effects, Js.Throw error) =>
                (setLoading false (fetch_failed pid error s'), effects)
            end
        end
  end.

(** Which of its views the page renders. *)
Inductive View :=
| LoadingView
| BeingCreatedView
| ProcessingView
| NotFoundView
| DetailsView.

(** [!podcast] and [podcast?.status === 'processing'] on the state. *)
Definition has_podcast (s : State) : bool :=
  match podcast s with
  | Some (FromBackend body) => Js.truthy_json body
  | Some (Assumed _) => true
  | None => false
  end.

Definition is_processing (s : State) : bool :=
  match podcast s with
  | Some (FromBackend Js.JNull) => false
  | Some data =>
      match data_status data with
      | Js.Ok st => is_text "processing" st
      | Js.Throw _ => false
      end
  | None => false
  end.

Definition view (s : State) : View :=
  if loading s then LoadingView
  else if waitingForGeneration s && negb (has_podcast s) then BeingCreatedView
  else if is_processing s then ProcessingView
  else if notFound s || negb (has_podcast s) then NotFoundView
  else DetailsView.

End DetailsPage.

Module AudioPlayer.

Definition STATIC_BASE_URL : string := "http://localhost:8000".

(** Construct full URL. *)
Definition fullUrl (src : string) : string :=
  if String.prefix "http" src then src else STATIC_BASE_URL ++ src.

End AudioPlayer.

(** X22: the address the player loads is the address the page computed
    for it, which is also the one the download link gets: completing a
    URL a second time changes nothing. *)
Theorem fullUrl_idempotent url :
  AudioPlayer.fullUrl (DetailsPage.fullUrl url) = DetailsPage.fullUrl url
  /\ String.prefix "http" (DetailsPage.fullUrl url) = true.
Proof.
  unfold AudioPlayer.fullUrl, DetailsPage.fullUrl.
  destruct (String.prefix "http" url) eqn:Hhttp.
  - rewrite Hhttp. auto.
  - split; reflexivity.
Qed.

Example fullUrl_static_path :
  DetailsPage.fullUrl "/static/podcasts/episode.mp3"
  = "http://localhost:8000/static/podcasts/episode.mp3".
Proof. reflexivity. Qed.

(** The details page shows a duration in whole minutes, the seconds
    beyond dropped, and prints each duration the create page offers with
    exactly the label the create page gave it. *)
Theorem formatDuration_labels :
  (forall seconds,
     DetailsPage.formatDuration seconds
     = DetailsPage.formatDuration (60 * (seconds / 60)))
  /\ Forall
       (fun option =>
          DetailsPage.formatDuration (CreatePodcastPage.value option)
          = CreatePodcastPage.label option)
       CreatePodcastPage.DURATION_OPTIONS.
Proof.
  split.
  - intros seconds. unfold DetailsPage.formatDuration.
    rewrite (Z.mul_comm 60), Z.div_mul by lia. reflexivity.
  - repeat constructor; vm_compute; reflexivity.
Qed.

Example formatDuration_ninety_seconds :
  DetailsPage.formatDuration 90 = "1 minute".
Proof. vm_compute. reflexivity. Qed.

(** *** After a fetch *)

Lemma not_found_message pid :
  Js.includes (Js.toLowerCase ("Podcast not found: " ++ pid)) "not found"
  = true.
Proof. reflexivity. Qed.

(** X23: when the backend answers 404, the page shows Not Found only for
    an id that, lower-cased and trimmed, does not have the shape of a
    UUID (and then only if the page did not hold a processing record
    already); for an id of that shape it shows the processing view, with
    polling on, as for a job under way. *)
Theorem fetchPodcastDetails_404 now pid autoRefresh response s :
  pid <> "" ->
  Js.status response = 404 ->
  let s' := (DetailsPage.fetchPodcastDetails (Some pid) autoRefresh
               (podcastApi.getById now pid (Js.Ok response)) s).1 in
  if Uuid.test (Js.trim (Js.toLowerCase pid))
  then DetailsPage.view s' = DetailsPage.ProcessingView
       /\ DetailsPage.pollingActive s' = true
       /\ DetailsPage.notFound s' = false
  else DetailsPage.notFound s' = true
       /\ DetailsPage.waitingForGeneration s' = false
       /\ DetailsPage.view s'
          = if DetailsPage.is_processing s then DetailsPage.ProcessingView
            else DetailsPage.NotFoundView.
Proof.
  intros Hpid Hstatus s'. subst s'.
  unfold DetailsPage.fetchPodcastDetails.
  apply truthy_true in Hpid. rewrite Hpid. simpl.
  unfold podcastApi.getById. simpl. rewrite Hstatus. simpl.
  destruct (Uuid.test (Js.trim (Js.toLowerCase pid))); simpl.
  - auto.
  - unfold DetailsPage.fetch_failed. simpl DetailsPage.message.
    rewrite not_found_message. simpl.
    split; [reflexivity|]. split; [reflexivity|].
    unfold DetailsPage.view, DetailsPage.is_processing; simpl.
    destruct (DetailsPage.podcast s) as [[body|stub]|]; simpl;
      try reflexivity.
Qed.

Definition mounted : DetailsPage.State :=
  {| DetailsPage.podcast := None; DetailsPage.loading := true;
     DetailsPage.pollingActive := false;
     DetailsPage.waitingForGeneration := false;
     DetailsPage.notFound := false; DetailsPage.errorMsg := None |}.

Definition answered_404 : Js.Response Js.Json :=
  {| Js.status := 404; Js.statusText := "Not Found";
     Js.json := Js.Ok (Js.JObject [("detail", Js.JString "Podcast not found")]) |}.

Lemma fetchPodcastDetails_404_witness :
  let s' := (DetailsPage.fetchPodcastDetails (Some sample_id) true
               (podcastApi.getById 1700000000000 sample_id
                  (Js.Ok answered_404)) mounted).1 in
  if Uuid.test (Js.trim (Js.toLowerCase sample_id))
  then DetailsPage.view s' = DetailsPage.ProcessingView
       /\ DetailsPage.pollingActive s' = true
       /\ DetailsPage.notFound s' = false
  else DetailsPage.notFound s' = true
       /\ DetailsPage.waitingForGeneration s' = false
       /\ DetailsPage.view s'
          = if DetailsPage.is_processing mounted
            then DetailsPage.ProcessingView
            else DetailsPage.NotFoundView.
Proof.
  apply (fetchPodcastDetails_404 1700000000000 sample_id true answered_404
           mounted).
  - discriminate.
  - reflexivity.
Defined.

(** X24: a failure whose message holds neither "not found" nor "404"
    (a server error, the network down) is not shown as a failure when the
    id has the shape of a UUID: the page says the podcast is being set
    up, waits and keeps polling; before any record was fetched it renders
    the being-created view. *)
Theorem fetchPodcastDetails_failure pid autoRefresh error s :
  Uuid.test pid = true ->
  Js.includes (Js.toLowerCase (DetailsPage.message error)) "not found"
  = false ->
  Js.includes (Js.toLowerCase (DetailsPage.message error)) "404" = false ->
  let s' := (DetailsPage.fetchPodcastDetails (Some pid) autoRefresh
               (Js.Throw error) s).1 in
  DetailsPage.pollingActive s' = true
  /\ DetailsPage.waitingForGeneration s' = true
  /\ DetailsPage.notFound s' = DetailsPage.notFound s
  /\ DetailsPage.errorMsg s'
     = Some "We're setting up your podcast. This may take a moment."
  /\ (DetailsPage.podcast s = None ->
      DetailsPage.view s' = DetailsPage.BeingCreatedView).
Proof.
  intros Hshape Hnf H404 s'. subst s'.
  assert (Hpid : Js.truthy pid = true).
  { destruct pid; [discriminate|reflexivity]. }
  unfold DetailsPage.fetchPodcastDetails. rewrite Hpid. simpl.
  unfold DetailsPage.fetch_failed. rewrite Hnf, H404, Hpid, Hshape. simpl.
  repeat split.
  intros Hnone. unfold DetailsPage.view, DetailsPage.has_podcast. simpl.
  rewrite Hnone. reflexivity.
Qed.

Lemma fetchPodcastDetails_failure_witness :
  let s' := (DetailsPage.fetchPodcastDetails (Some sample_id) false
               (Js.Throw
                  (Js.Error "Failed to fetch podcast: Internal Server Error"))
               mounted).1 in
  DetailsPage.pollingActive s' = true
  /\ DetailsPage.waitingForGeneration s' = true
  /\ DetailsPage.notFound s' = DetailsPage.notFound mounted
  /\ DetailsPage.errorMsg s'
     = Some "We're setting up your podcast. This may take a moment."
  /\ (DetailsPage.podcast mounted = None ->
      DetailsPage.view s' = DetailsPage.BeingCreatedView).
Proof.
  apply (fetchPodcastDetails_failure sample_id false
           (Js.Error "Failed to fetch podcast: Internal Server Error")
           mounted).
  - vm_compute. reflexivity.
  - vm_compute. reflexivity.
  - vm_compute. reflexivity.
Defined.

(** X25: after a fetch that resolved to a record whose status can be
    read, polling is on exactly when that status is 'processing'; for any
    other status, a missing one too, the page stops polling and waiting
    and is not in the Not Found state. *)
Theorem fetchPodcastDetails_polling pid autoRefresh data st s :
  pid <> "" ->
  DetailsPage.data_status data = Js.Ok st ->
  let s' := (DetailsPage.fetchPodcastDetails (Some pid) autoRefresh
               (Js.Ok data) s).1 in
  DetailsPage.pollingActive s' = DetailsPage.is_text "processing" st
  /\ DetailsPage.waitingForGeneration s'
     = DetailsPage.is_text "processing" st
  /\ DetailsPage.notFound s' = false
  /\ DetailsPage.podcast s' = Some data
  /\ DetailsPage.loading s' = false.
Proof.
  intros Hpid Hstatus s'. subst s'.
  unfold DetailsPage.fetchPodcastDetails.
  apply truthy_true in Hpid. rewrite Hpid. simpl.
  unfold DetailsPage.fetched_ok. rewrite Hstatus.
  destruct (DetailsPage.is_text "processing" st); simpl; [auto|].
  destruct (DetailsPage.is_text "completed" st && autoRefresh); simpl; auto.
Qed.

Definition failed_body : Js.Json :=
  Js.JObject [("podcast_id", Js.JString sample_id);
              ("status", Js.JString "failed")].

Lemma fetchPodcastDetails_polling_witness :
  let s' := (DetailsPage.fetchPodcastDetails (Some sample_id) true
               (Js.Ok (FromBackend failed_body)) mounted).1 in
  DetailsPage.pollingActive s'
  = DetailsPage.is_text "processing" (Some (Js.JString "failed"))
  /\ DetailsPage.waitingForGeneration s'
     = DetailsPage.is_text "processing" (Some (Js.JString "failed"))
  /\ DetailsPage.notFound s' = false
  /\ DetailsPage.podcast s' = Some (FromBackend failed_body)
  /\ DetailsPage.loading s' = false.
Proof.
  apply (fetchPodcastDetails_polling sample_id true (FromBackend failed_body)
           (Some (Js.JString "failed")) mounted).
  - discriminate.
  - reflexivity.
Defined.

(** ** The list page: fetching a page ([fetchPodcasts]) *)

Module ListPage.

Definition podcastsPerPage : Z := 12.

Record State := {
  podcasts : list PodcastRecord;
  totalPodcasts : Z;
  currentPage : Z;
  loading : bool
}.

(** [error.code] *)
Definition code (e : Js.Thrown) : option string :=
  match e with
  | Js.Error _ => None
  | Js.PostgrestError c _ => Some c
  end.

(** [fetchPodcasts()] for the signed-in user ([None] when there is none),
    over the table, with the failure of the query when it fails. The
    second component says whether the error toast is shown. *)
Definition fetchPodcasts (user : option string) (fault : option Js.Thrown)
    (t : Table) (s : State) : State * bool :=
  match user with
  | None => (s, false)
  | Some user_id =>
      match podcastApi.getByUser fault user_id (currentPage s)
              podcastsPerPage t with
      | Js.Ok response =>
          ({| podcasts := page_data response;
              totalPodcasts := total response;
              currentPage :=
                if (length (page_data response) =? 0)%nat
                   && (1 <? currentPage s)%Z
                then 1 else currentPage s;
              loading := false |}, false)
      | Js.Throw error =>
          ({| podcasts := podcasts s;
              totalPodcasts := totalPodcasts s;
              currentPage :=
                match code error with
                | Some c => if String.eqb c "PGRST103" then 1
                            else currentPage s
                | None => currentPage s
                end;
              loading := false |}, true)
      end
  end.

End ListPage.

(** X26: fetching a page of the signed-in user's records replaces the
    list by that page and the total by the exact count; when the page
    lies beyond the last record, and when the query is refused for its
    range, the page number goes back to 1; otherwise it stays. *)
Theorem fetchPodcasts_page user_id t s :
  user_id <> "" ->
  1 <= ListPage.currentPage s ->
  (let s' := (ListPage.fetchPodcasts (Some user_id) None t s).1 in
   ListPage.podcasts s'
   = page_rows t user_id ListPage.podcastsPerPage (ListPage.currentPage s)
   /\ ListPage.totalPodcasts s' = Z.of_nat (length (ordered_of user_id t))
   /\ ListPage.currentPage s'
      = if (ListPage.totalPodcasts s'
              <=? (ListPage.currentPage s - 1) * ListPage.podcastsPerPage)%Z
        then 1 else ListPage.currentPage s)
  /\ (forall message,
        let s' := (ListPage.fetchPodcasts (Some user_id)
                     (Some (Js.PostgrestError "PGRST103" message)) t s).1 in
        ListPage.currentPage s' = 1
        /\ ListPage.podcasts s' = ListPage.podcasts s).
Proof.
  intros Huser Hpage. split.
  - unfold ListPage.fetchPodcasts, podcastApi.getByUser.
    rewrite page_rows_eq by (assumption || (unfold ListPage.podcastsPerPage; lia)).
    rewrite getByUser_ok
      by (assumption || (unfold ListPage.podcastsPerPage; lia)).
    simpl. split; [reflexivity|]. split; [reflexivity|].
    unfold ListPage.podcastsPerPage.
    set (o := ordered_of user_id t).
    set (p := ListPage.currentPage s) in *.
    rewrite length_take, length_drop.
    destruct (Z.leb_spec (Z.of_nat (length o)) ((p - 1) * 12)) as [Hle|Hgt].
    + replace (Z.to_nat 12 `min` (length o - Z.to_nat ((p - 1) * 12)))%nat
        with 0%nat by lia.
      simpl. destruct (Z.ltb_spec 1 p) as [_|Hfirst]; [reflexivity|]. lia.
    + destruct (Nat.eqb_spec
                  (Z.to_nat 12 `min` (length o - Z.to_nat ((p - 1) * 12)))
                  0) as [Hzero|_]; [lia|reflexivity].
  - intros message. unfold ListPage.fetchPodcasts, podcastApi.getByUser.
    rewrite getByUser_fault by exact Huser. simpl. auto.
Qed.

Definition second_page : ListPage.State :=
  {| ListPage.podcasts := []; ListPage.totalPodcasts := 0;
     ListPage.currentPage := 2; ListPage.loading := true |}.

Lemma fetchPodcasts_page_witness :
  (let s' := (ListPage.fetchPodcasts (Some "user_1") None listing_table
                second_page).1 in
   ListPage.podcasts s'
   = page_rows listing_table "user_1" ListPage.podcastsPerPage
       (ListPage.currentPage second_page)
   /\ ListPage.totalPodcasts s'
      = Z.of_nat (length (ordered_of "user_1" listing_table))
   /\ ListPage.currentPage s'
      = if (ListPage.totalPodcasts s'
              <=? (ListPage.currentPage second_page - 1)
                  * ListPage.podcastsPerPage)%Z
        then 1 else ListPage.currentPage second_page)
  /\ (forall message,
        let s' := (ListPage.fetchPodcasts (Some "user_1")
                     (Some (Js.PostgrestError "PGRST103" message))
                     listing_table second_page).1 in
        ListPage.currentPage s' = 1
        /\ ListPage.podcasts s' = ListPage.podcasts second_page).
Proof.
  apply (fetchPodcasts_page "user_1" listing_table second_page).
  - discriminate.
  - simpl. lia.
Defined.

(** The second page of a user with three records is empty, so the page
    number goes back to 1. *)
Example fetchPodcasts_beyond_the_end :
  ListPage.currentPage
    (ListPage.fetchPodcasts (Some "user_1") None listing_table second_page).1
  = 1.
Proof. vm_compute. reflexivity. Qed.

(** ** The submission from start to end *)

Definition is_setIsSubmitting (e : CreatePodcastPage.Effect) : bool :=
  match e with
  | CreatePodcastPage.setIsSubmitting _ => true
  | _ => false
  end.

(** X27: [handleSubmit] either shows one validation error and does
    nothing else, or marks the form as submitting, sends one request and,
    whatever comes back (a body, a body without an id, an error status,
    no answer), ends by clearing the mark, without touching it in
    between; when the call throws, the error is shown once. *)
Theorem handleSubmit_clears_isSubmitting ToString now_text errorMessage f
    fetched :
  (exists text,
     CreatePodcastPage.handleSubmit ToString now_text errorMessage f fetched
     = [CreatePodcastPage.toast_error text])
  \/ exists body middle,
       CreatePodcastPage.handleSubmit ToString now_text errorMessage f fetched
       = (CreatePodcastPage.setIsSubmitting true
          :: CreatePodcastPage.post_podcasts body
          :: middle ++ [CreatePodcastPage.setIsSubmitting false])%list
       /\ existsb is_setIsSubmitting middle = false
       /\ (forall error,
             podcastApi.create errorMessage (submitted_data f)
               (body_user_id body) fetched = Js.Throw error ->
             middle = [CreatePodcastPage.failure_toast error]).
Proof.
  unfold CreatePodcastPage.handleSubmit.
  destruct (CreatePodcastPage.user f) as [user_id|]; [|left; eauto].
  destruct (length (CreatePodcastPage.topics f) =? 0)%nat; [left; eauto|].
  destruct (negb (Js.truthy (CreatePodcastPage.hostVoice f)));
    [left; eauto|].
  destruct (negb (Js.truthy (CreatePodcastPage.coHostVoice f)));
    [left; eauto|].
  right. fold (submitted_data f). simpl.
  eexists _, _. split; [reflexivity|]. simpl.
  destruct (podcastApi.create errorMessage (submitted_data f) user_id fetched)
    as [responseData|e].
  - split; [|discriminate].
    unfold CreatePodcastPage.after_create.
    destruct (CreatePodcastPage.created_id responseData); reflexivity.
  - split; [reflexivity|]. intros error [= <-]. reflexivity.
Qed.

(** A body that is [null] has the success shown and then the failure. *)
Example handleSubmit_null_body :
  CreatePodcastPage.handleSubmit plain_text "1700000000000"
    (fun _ => "HTTP error") same_voice_form
    (Js.Ok {| Js.status := 202; Js.statusText := "Accepted";
              Js.json := Js.Ok Js.JNull |})
  = [ CreatePodcastPage.setIsSubmitting true;
      CreatePodcastPage.post_podcasts
        (podcastApi.create_body (submitted_data same_voice_form) "user_1");
      CreatePodcastPage.toast_success
        "Podcast creation started! You will be redirected to the waiting page.";
      CreatePodcastPage.toast_error
        "Failed to create podcast: Cannot read properties of null (reading 'podcast_id')";
      CreatePodcastPage.setIsSubmitting false ].
Proof. vm_compute. reflexivity. Qed.
